(** * Voice turn-taking controller of the chat front end (App component)

    A shallow embedding of the React component that captures microphone
    audio, detects speech from the signal energy, records an utterance,
    posts it to the chat service and plays the synthesized answer.

    - JavaScript numbers that carry sample amplitudes and energies are
      idealised as real numbers; [0/0] (NaN) does not arise on the frames
      the ScriptProcessor delivers (2048 samples).
    - Strings are sequences of 8-bit code units.
    - The component is one record, [App]: the React state ([status],
      [messages], ...), the refs, the counter [speechBufferCount] shared
      by [startListening] and its audio callback, and what the browser
      holds for the component (recorders, timers, the pending request,
      the log of calls).  A callback reads and writes the current value
      of a field; [setStatus] takes effect at once.
    - A callback is a computation in the monad [Js]: it threads the
      component and may complete abruptly with an exception, so that
      [try]/[catch]/[finally] are written as in the source.
    - [await] and [.then] are resolved in place, except for the [fetch]
      of [processAudio], which stays pending until the event
      [FetchSettled]; what the browser does (which guarded calls throw,
      whether the microphone is granted) is the field [env]. *)

From Stdlib Require Import List String Ascii Bool Arith ZArith Lia Reals Lra.
Import ListNotations.

(* ------------------------------------------------------------------ *)
(** ** Numbers *)

(** [x > y] on numbers, as a boolean. *)
Definition gtb (x y : R) : bool := if Rgt_dec x y then true else false.

(* ------------------------------------------------------------------ *)
(** ** Data model *)

Inductive Status : Type := waiting | listening | speaking | processing.

Definition Status_eqb (s t : Status) : bool :=
  match s, t with
  | waiting, waiting | listening, listening
  | speaking, speaking | processing, processing => true
  | _, _ => false
  end.

Inductive Role : Type := user | assistant.

Record Files : Type := mkFiles {
  original_audio : string;
  files_transcription : string;
  tts_audio : string
}.

Record Message : Type := mkMessage {
  role : Role;
  content : string;
  audio : option string;
  transcription : option string;
  files : option Files
}.

(** Binary data: a [Blob] or a [Uint8Array], as its bytes. *)
Definition Blob : Type := list Z.

(** The JSON body of a successful answer of [/api/chat]. *)
Record ChatResponse : Type := mkChatResponse {
  data_transcription : option string;
  data_response : string;
  data_audio : option string;
  data_files : option Files
}.

(** How the [fetch] of [processAudio] settles. *)
Inductive FetchResult : Type :=
| fetchRejected                    (* network failure: [fetch] rejects *)
| fetchNotOk                       (* [response.ok] is false *)
| fetchBadJson                     (* [response.json()] rejects *)
| fetchOk (data : ChatResponse).

(** The [src] of the audio element: [''] or an object URL of a blob. *)
Inductive MediaSrc : Type := emptySrc | objectURL (b : Blob).

(** The closures [playAudioResponse] installs on the audio element. *)
Inductive Callback : Type := ttsEnded (url : Blob) | ttsError (url : Blob).

Record HTMLAudioElement : Type := mkAudio {
  paused : bool;
  currentTime : R;
  src : MediaSrc;
  onended : option Callback;
  onerror : option Callback;
  onpause : option Callback
}.

Inductive RecordingState : Type := inactive | recording.

(** A [MediaRecorder] started without a time slice: it gathers the
    captured data until [stop()]. *)
Record MediaRecorder : Type := mkRecorder {
  state : RecordingState;
  gathered : Blob
}.

(** What the browser does on the calls that the source guards with
    [try]/[catch]: [true] means the call throws (or the promise rejects). *)
Record Browser : Type := mkBrowser {
  intercept_throws : bool;
  pause_throws : bool;
  seek_throws : bool;
  clearSrc_throws : bool;
  load_throws : bool;
  mic_denied : bool
}.

Inductive Exn : Type :=
| TypeError | DOMException | NotAllowedError | SyntaxError
| Error (msg : string).

(** Calls into the browser, as they are logged in the field [calls]. *)
Inductive Call : Type :=
| call_intercept | call_pause | call_seek | call_clearSrc | call_load
| call_play (b : Blob)
| call_getUserMedia
| call_match (audioHex : string)
| call_fetch (b : Blob)
| call_start (id : nat) | call_stop (id : nat).

(** What a run of the audio callback did: nothing, started a recording
    after the run of loud buffers, or cut the playback short. *)
Inductive DetectorEvent : Type := NoEvent | SpeechStart | Interrupt.

Record App : Type := mkApp {
  env : Browser;
  status : Status;
  loading : bool;
  messages : list Message;
  isRecording : bool;
  isRecordingRef : bool;
  barVolumes : list R;
  speechBufferCount : nat;
  audioPlayerRef : option HTMLAudioElement;
  window_audioController : bool;
  isTTSStoppedRef : bool;
  processorRef : bool;
  audioChunksRef : list Blob;
  mediaRecorderRef : option nat;
  recorders : list MediaRecorder;
  timers : list (N * nat);
  now : N;
  inflight : nat;
  calls : list Call
}.

Definition set_status (v : Status) (a : App) : App :=
  {| env := env a; status := v; loading := loading a; messages := messages a;
     isRecording := isRecording a; isRecordingRef := isRecordingRef a;
     barVolumes := barVolumes a; speechBufferCount := speechBufferCount a;
     audioPlayerRef := audioPlayerRef a;
     window_audioController := window_audioController a;
     isTTSStoppedRef := isTTSStoppedRef a; processorRef := processorRef a;
     audioChunksRef := audioChunksRef a;
     mediaRecorderRef := mediaRecorderRef a; recorders := recorders a;
     timers := timers a; now := now a; inflight := inflight a;
     calls := calls a |}.

Definition set_loading (v : bool) (a : App) : App :=
  {| env := env a; status := status a; loading := v; messages := messages a;
     isRecording := isRecording a; isRecordingRef := isRecordingRef a;
     barVolumes := barVolumes a; speechBufferCount := speechBufferCount a;
     audioPlayerRef := audioPlayerRef a;
     window_audioController := window_audioController a;
     isTTSStoppedRef := isTTSStoppedRef a; processorRef := processorRef a;
     audioChunksRef := audioChunksRef a;
     mediaRecorderRef := mediaRecorderRef a; recorders := recorders a;
     timers := timers a; now := now a; inflight := inflight a;
     calls := calls a |}.

Definition set_messages (v : list Message) (a : App) : App :=
  {| env := env a; status := status a; loading := loading a; messages := v;
     isRecording := isRecording a; isRecordingRef := isRecordingRef a;
     barVolumes := barVolumes a; speechBufferCount := speechBufferCount a;
     audioPlayerRef := audioPlayerRef a;
     window_audioController := window_audioController a;
     isTTSStoppedRef := isTTSStoppedRef a; processorRef := processorRef a;
     audioChunksRef := audioChunksRef a;
     mediaRecorderRef := mediaRecorderRef a; recorders := recorders a;
     timers := timers a; now := now a; inflight := inflight a;
     calls := calls a |}.

Definition set_isRecording (v : bool) (a : App) : App :=
  {| env := env a; status := status a; loading := loading a;
     messages := messages a; isRecording := v;
     isRecordingRef := isRecordingRef a; barVolumes := barVolumes a;
     speechBufferCount := speechBufferCount a;
     audioPlayerRef := audioPlayerRef a;
     window_audioController := window_audioController a;
     isTTSStoppedRef := isTTSStoppedRef a; processorRef := processorRef a;
     audioChunksRef := audioChunksRef a;
     mediaRecorderRef := mediaRecorderRef a; recorders := recorders a;
     timers := timers a; now := now a; inflight := inflight a;
     calls := calls a |}.

Definition set_isRecordingRef (v : bool) (a : App) : App :=
  {| env := env a; status := status a; loading := loading a;
     messages := messages a; isRecording := isRecording a;
     isRecordingRef := v; barVolumes := barVolumes a;
     speechBufferCount := speechBufferCount a;
     audioPlayerRef := audioPlayerRef a;
     window_audioController := window_audioController a;
     isTTSStoppedRef := isTTSStoppedRef a; processorRef := processorRef a;
     audioChunksRef := audioChunksRef a;
     mediaRecorderRef := mediaRecorderRef a; recorders := recorders a;
     timers := timers a; now := now a; inflight := inflight a;
     calls := calls a |}.

Definition set_barVolumes (v : list R) (a : App) : App :=
  {| env := env a; status := status a; loading := loading a;
     messages := messages a; isRecording := isRecording a;
     isRecordingRef := isRecordingRef a; barVolumes := v;
     speechBufferCount := speechBufferCount a;
     audioPlayerRef := audioPlayerRef a;
     window_audioController := window_audioController a;
     isTTSStoppedRef := isTTSStoppedRef a; processorRef := processorRef a;
     audioChunksRef := audioChunksRef a;
     mediaRecorderRef := mediaRecorderRef a; recorders := recorders a;
     timers := timers a; now := now a; inflight := inflight a;
     calls := calls a |}.

Definition set_speechBufferCount (v : nat) (a : App) : App :=
  {| env := env a; status := status a; loading := loading a;
     messages := messages a; isRecording := isRecording a;
     isRecordingRef := isRecordingRef a; barVolumes := barVolumes a;
     speechBufferCount := v; audioPlayerRef := audioPlayerRef a;
     window_audioController := window_audioController a;
     isTTSStoppedRef := isTTSStoppedRef a; processorRef := processorRef a;
     audioChunksRef := audioChunksRef a;
     mediaRecorderRef := mediaRecorderRef a; recorders := recorders a;
     timers := timers a; now := now a; inflight := inflight a;
     calls := calls a |}.

Definition set_audioPlayerRef (v : option HTMLAudioElement) (a : App) : App :=
  {| env := env a; status := status a; loading := loading a;
     messages := messages a; isRecording := isRecording a;
     isRecordingRef := isRecordingRef a; barVolumes := barVolumes a;
     speechBufferCount := speechBufferCount a; audioPlayerRef := v;
     window_audioController := window_audioController a;
     isTTSStoppedRef := isTTSStoppedRef a; processorRef := processorRef a;
     audioChunksRef := audioChunksRef a;
     mediaRecorderRef := mediaRecorderRef a; recorders := recorders a;
     timers := timers a; now := now a; inflight := inflight a;
     calls := calls a |}.

Definition set_window_audioController (v : bool) (a : App) : App :=
  {| env := env a; status := status a; loading := loading a;
     messages := messages a; isRecording := isRecording a;
     isRecordingRef := isRecordingRef a; barVolumes := barVolumes a;
     speechBufferCount := speechBufferCount a;
     audioPlayerRef := audioPlayerRef a; window_audioController := v;
     isTTSStoppedRef := isTTSStoppedRef a; processorRef := processorRef a;
     audioChunksRef := audioChunksRef a;
     mediaRecorderRef := mediaRecorderRef a; recorders := recorders a;
     timers := timers a; now := now a; inflight := inflight a;
     calls := calls a |}.

Definition set_isTTSStoppedRef (v : bool) (a : App) : App :=
  {| env := env a; status := status a; loading := loading a;
     messages := messages a; isRecording := isRecording a;
     isRecordingRef := isRecordingRef a; barVolumes := barVolumes a;
     speechBufferCount := speechBufferCount a;
     audioPlayerRef := audioPlayerRef a;
     window_audioController := window_audioController a;
     isTTSStoppedRef := v; processorRef := processorRef a;
     audioChunksRef := audioChunksRef a;
     mediaRecorderRef := mediaRecorderRef a; recorders := recorders a;
     timers := timers a; now := now a; inflight := inflight a;
     calls := calls a |}.

Definition set_processorRef (v : bool) (a : App) : App :=
  {| env := env a; status := status a; loading := loading a;
     messages := messages a; isRecording := isRecording a;
     isRecordingRef := isRecordingRef a; barVolumes := barVolumes a;
     speechBufferCount := speechBufferCount a;
     audioPlayerRef := audioPlayerRef a;
     window_audioController := window_audioController a;
     isTTSStoppedRef := isTTSStoppedRef a; processorRef := v;
     audioChunksRef := audioChunksRef a;
     mediaRecorderRef := mediaRecorderRef a; recorders := recorders a;
     timers := timers a; now := now a; inflight := inflight a;
     calls := calls a |}.

Definition set_audioChunksRef (v : list Blob) (a : App) : App :=
  {| env := env a; status := status a; loading := loading a;
     messages := messages a; isRecording := isRecording a;
     isRecordingRef := isRecordingRef a; barVolumes := barVolumes a;
     speechBufferCount := speechBufferCount a;
     audioPlayerRef := audioPlayerRef a;
     window_audioController := window_audioController a;
     isTTSStoppedRef := isTTSStoppedRef a; processorRef := processorRef a;
     audioChunksRef := v; mediaRecorderRef := mediaRecorderRef a;
     recorders := recorders a; timers := timers a; now := now a;
     inflight := inflight a; calls := calls a |}.

Definition set_mediaRecorderRef (v : option nat) (a : App) : App :=
  {| env := env a; status := status a; loading := loading a;
     messages := messages a; isRecording := isRecording a;
     isRecordingRef := isRecordingRef a; barVolumes := barVolumes a;
     speechBufferCount := speechBufferCount a;
     audioPlayerRef := audioPlayerRef a;
     window_audioController := window_audioController a;
     isTTSStoppedRef := isTTSStoppedRef a; processorRef := processorRef a;
     audioChunksRef := audioChunksRef a; mediaRecorderRef := v;
     recorders := recorders a; timers := timers a; now := now a;
     inflight := inflight a; calls := calls a |}.

Definition set_recorders (v : list MediaRecorder) (a : App) : App :=
  {| env := env a; status := status a; loading := loading a;
     messages := messages a; isRecording := isRecording a;
     isRecordingRef := isRecordingRef a; barVolumes := barVolumes a;
     speechBufferCount := speechBufferCount a;
     audioPlayerRef := audioPlayerRef a;
     window_audioController := window_audioController a;
     isTTSStoppedRef := isTTSStoppedRef a; processorRef := processorRef a;
     audioChunksRef := audioChunksRef a;
     mediaRecorderRef := mediaRecorderRef a; recorders := v;
     timers := timers a; now := now a; inflight := inflight a;
     calls := calls a |}.

Definition set_timers (v : list (N * nat)) (a : App) : App :=
  {| env := env a; status := status a; loading := loading a;
     messages := messages a; isRecording := isRecording a;
     isRecordingRef := isRecordingRef a; barVolumes := barVolumes a;
     speechBufferCount := speechBufferCount a;
     audioPlayerRef := audioPlayerRef a;
     window_audioController := window_audioController a;
     isTTSStoppedRef := isTTSStoppedRef a; processorRef := processorRef a;
     audioChunksRef := audioChunksRef a;
     mediaRecorderRef := mediaRecorderRef a; recorders := recorders a;
     timers := v; now := now a; inflight := inflight a; calls := calls a |}.

Definition set_now (v : N) (a : App) : App :=
  {| env := env a; status := status a; loading := loading a;
     messages := messages a; isRecording := isRecording a;
     isRecordingRef := isRecordingRef a; barVolumes := barVolumes a;
     speechBufferCount := speechBufferCount a;
     audioPlayerRef := audioPlayerRef a;
     window_audioController := window_audioController a;
     isTTSStoppedRef := isTTSStoppedRef a; processorRef := processorRef a;
     audioChunksRef := audioChunksRef a;
     mediaRecorderRef := mediaRecorderRef a; recorders := recorders a;
     timers := timers a; now := v; inflight := inflight a;
     calls := calls a |}.

Definition set_inflight (v : nat) (a : App) : App :=
  {| env := env a; status := status a; loading := loading a;
     messages := messages a; isRecording := isRecording a;
     isRecordingRef := isRecordingRef a; barVolumes := barVolumes a;
     speechBufferCount := speechBufferCount a;
     audioPlayerRef := audioPlayerRef a;
     window_audioController := window_audioController a;
     isTTSStoppedRef := isTTSStoppedRef a; processorRef := processorRef a;
     audioChunksRef := audioChunksRef a;
     mediaRecorderRef := mediaRecorderRef a; recorders := recorders a;
     timers := timers a; now := now a; inflight := v; calls := calls a |}.

Definition set_calls (v : list Call) (a : App) : App :=
  {| env := env a; status := status a; loading := loading a;
     messages := messages a; isRecording := isRecording a;
     isRecordingRef := isRecordingRef a; barVolumes := barVolumes a;
     speechBufferCount := speechBufferCount a;
     audioPlayerRef := audioPlayerRef a;
     window_audioController := window_audioController a;
     isTTSStoppedRef := isTTSStoppedRef a; processorRef := processorRef a;
     audioChunksRef := audioChunksRef a;
     mediaRecorderRef := mediaRecorderRef a; recorders := recorders a;
     timers := timers a; now := now a; inflight := inflight a; calls := v |}.

(* ------------------------------------------------------------------ *)
(** ** Computations *)

Inductive Completion (A : Type) : Type :=
| Normal (a : A)
| Abrupt (e : Exn).
Arguments Normal {A} a.
Arguments Abrupt {A} e.

Definition Js (A : Type) : Type := App -> Completion A * App.

Definition ret {A} (x : A) : Js A := fun a => (Normal x, a).

Definition throw {A} (e : Exn) : Js A := fun a => (Abrupt e, a).

Definition bind {A B} (m : Js A) (k : A -> Js B) : Js B :=
  fun a =>
    match m a with
    | (Normal x, a') => k x a'
    | (Abrupt e, a') => (Abrupt e, a')
    end.

Declare Scope js_scope.
Delimit Scope js_scope with js.
Notation "x <- m ;; k" := (bind m (fun x => k))
  (at level 61, m at next level, right associativity) : js_scope.
Notation "m ;; k" := (bind m (fun _ => k))
  (at level 61, right associativity) : js_scope.
Open Scope js_scope.

Definition try_catch (body : Js unit) (handler : Exn -> Js unit) : Js unit :=
  fun a =>
    match body a with
    | (Normal x, a') => (Normal x, a')
    | (Abrupt e, a') => handler e a'
    end.

Definition try_finally {A} (body : Js A) (finalizer : Js unit) : Js A :=
  fun a =>
    match body a with
    | (c, a') =>
        match finalizer a' with
        | (Normal _, a'') => (c, a'')
        | (Abrupt e, a'') => (Abrupt e, a'')
        end
    end.

Definition gets {A} (f : App -> A) : Js A := fun a => (Normal (f a), a).

Definition modify (f : App -> App) : Js unit := fun a => (Normal tt, f a).

Definition when (b : bool) (m : Js unit) : Js unit :=
  if b then m else ret tt.

(** [console.log] and [console.error] leave the state alone. *)
Definition console : Js unit := ret tt.

(** A call into the browser is logged, the most recent call first. *)
Definition called (c : Call) : Js unit :=
  modify (fun a => set_calls (c :: calls a) a).

(** A task of the event loop: an exception that escapes it is reported
    by the browser and the state it reached stays. *)
Definition task {A} (m : Js A) (a : App) : App := snd (m a).

(* ------------------------------------------------------------------ *)
(** ** Energy of a buffer (the first half of [onaudioprocess]) *)

Definition rms (inputData : list R) : R :=
  sqrt (fold_left (fun sum sample => sum + sample * sample)%R inputData 0%R
        / INR (List.length inputData)).

(** [l.slice(start, stop)] for [start <= stop <= l.length]. *)
Definition slice {A} (start stop : nat) (l : list A) : list A :=
  firstn (stop - start) (skipn start l).

Definition bands (inputData : list R) : list R :=
  let bandSize := List.length inputData / 8 in
  map (fun i =>
         let start := i * bandSize in
         let stop := if i =? 7 then List.length inputData else (i + 1) * bandSize in
         let band := slice start stop inputData in
         let bandRms :=
           sqrt (fold_left (fun sum s => sum + s * s)%R band 0%R
                 / INR (List.length band)) in
         Rmin 1 (bandRms * 10))
      (seq 0 8).

(* ------------------------------------------------------------------ *)
(** ** Hex decoding (the expression of [playAudioResponse]) *)

Definition codeOf (c : ascii) : Z := Z.of_nat (nat_of_ascii c).

(** Among the 8-bit code units, line feed and carriage return are the
    line terminators, which [.] does not match. *)
Definition isLineTerminator (c : ascii) : bool :=
  (codeOf c =? 10)%Z || (codeOf c =? 13)%Z.

(** The matches of [/.{1,2}/g], left to right. *)
Fixpoint matchAll (s : string) : list string :=
  match s with
  | EmptyString => []
  | String c rest =>
      if isLineTerminator c then matchAll rest
      else
        match rest with
        | EmptyString => [String c EmptyString]
        | String d rest' =>
            if isLineTerminator d
            then String c EmptyString :: matchAll rest'
            else String c (String d EmptyString) :: matchAll rest'
        end
  end.

(** [s.match(/.{1,2}/g)]: [null] when nothing matches. *)
Definition String_match (s : string) : option (list string) :=
  match matchAll s with
  | [] => None
  | chunks => Some chunks
  end.

(** White space that [parseInt] skips, among the 8-bit code units. *)
Definition isWhiteSpace (c : ascii) : bool :=
  let n := codeOf c in
  ((9 <=? n) && (n <=? 13) || (n =? 32) || (n =? 160))%Z.

Fixpoint trimStart (s : string) : string :=
  match s with
  | EmptyString => EmptyString
  | String c rest => if isWhiteSpace c then trimStart rest else s
  end.

Definition hexDigit (c : ascii) : option Z :=
  let n := codeOf c in
  if ((48 <=? n) && (n <=? 57))%Z then Some (n - 48)%Z
  else if ((65 <=? n) && (n <=? 70))%Z then Some (n - 55)%Z
  else if ((97 <=? n) && (n <=? 102))%Z then Some (n - 87)%Z
  else None.

(** The value of the longest prefix of hex digits; [acc] is the value of
    the digits read so far, [None] when there is none yet. *)
Fixpoint digits (s : string) (acc : option Z) : option Z :=
  match s with
  | EmptyString => acc
  | String c rest =>
      match hexDigit c with
      | None => acc
      | Some d =>
          digits rest (Some (match acc with
                             | None => d
                             | Some v => 16 * v + d
                             end)%Z)
      end
  end.

(** [parseInt(s, 16)]; [None] is NaN. *)
Definition parseInt16 (s : string) : option Z :=
  let s1 := trimStart s in
  let '(sign, s2) :=
    match s1 with
    | String "-"%char rest => ((-1)%Z, rest)
    | String "+"%char rest => (1%Z, rest)
    | _ => (1%Z, s1)
    end in
  let s3 :=
    match s2 with
    | String "0"%char (String x rest) =>
        if (codeOf x =? 120)%Z || (codeOf x =? 88)%Z then rest else s2
    | _ => s2
    end in
  option_map (Z.mul sign) (digits s3 None).

(** The conversion [new Uint8Array([...])] applies to each number. *)
Definition toUint8 (n : option Z) : Z :=
  match n with
  | None => 0%Z
  | Some z => (z mod 256)%Z
  end.

(** [new Uint8Array(audioHex.match(/.{1,2}/g)!.map(byte => parseInt(byte, 16)))] *)
Definition hexToBinary (audioHex : string) : Js Blob :=
  called (call_match audioHex) ;;
  match String_match audioHex with
  | None => throw TypeError
  | Some chunks => ret (map (fun byte => toUint8 (parseInt16 byte)) chunks)
  end.

(* ------------------------------------------------------------------ *)
(** ** The audio element and the stop hook *)

Definition with_paused (v : bool) (el : HTMLAudioElement) : HTMLAudioElement :=
  {| paused := v; currentTime := currentTime el; src := src el;
     onended := onended el; onerror := onerror el; onpause := onpause el |}.

Definition with_currentTime (v : R) (el : HTMLAudioElement) : HTMLAudioElement :=
  {| paused := paused el; currentTime := v; src := src el;
     onended := onended el; onerror := onerror el; onpause := onpause el |}.

Definition with_src (v : MediaSrc) (el : HTMLAudioElement) : HTMLAudioElement :=
  {| paused := paused el; currentTime := currentTime el; src := v;
     onended := onended el; onerror := onerror el; onpause := onpause el |}.

Definition with_onended (v : option Callback) (el : HTMLAudioElement)
  : HTMLAudioElement :=
  {| paused := paused el; currentTime := currentTime el; src := src el;
     onended := v; onerror := onerror el; onpause := onpause el |}.

Definition with_onerror (v : option Callback) (el : HTMLAudioElement)
  : HTMLAudioElement :=
  {| paused := paused el; currentTime := currentTime el; src := src el;
     onended := onended el; onerror := v; onpause := onpause el |}.

Definition with_onpause (v : option Callback) (el : HTMLAudioElement)
  : HTMLAudioElement :=
  {| paused := paused el; currentTime := currentTime el; src := src el;
     onended := onended el; onerror := onerror el; onpause := v |}.

(** An assignment to, or a method of, [audioPlayerRef.current]. *)
Definition onAudio (f : HTMLAudioElement -> HTMLAudioElement) : Js unit :=
  modify (fun a => set_audioPlayerRef (option_map f (audioPlayerRef a)) a).

(** A browser call that may throw: the call is recorded, then it throws
    or takes effect. *)
Definition browserCall (c : Call) (throws : Browser -> bool) (effect : Js unit)
  : Js unit :=
  called c ;;
  b <- gets env ;;
  if throws b then throw DOMException else effect.

Definition audio_pause : Js unit :=
  browserCall call_pause pause_throws (onAudio (with_paused true)).

Definition audio_seek0 : Js unit :=
  browserCall call_seek seek_throws (onAudio (with_currentTime 0%R)).

Definition audio_clearSrc : Js unit :=
  browserCall call_clearSrc clearSrc_throws (onAudio (with_src emptySrc)).

(** [load()] restarts the element: playback is paused and rewound. *)
Definition audio_load : Js unit :=
  browserCall call_load load_throws
    (onAudio (fun el => with_currentTime 0%R (with_paused true el))).

(** [play()] returns a promise; the call itself does not throw. *)
Definition audio_play (url : Blob) : Js unit :=
  called (call_play url) ;; onAudio (with_paused false).

Definition intercept : Js unit :=
  browserCall call_intercept intercept_throws (ret tt).

Definition isSome {A} (o : option A) : bool :=
  match o with Some _ => true | None => false end.

Definition hardStopAudio : Js unit :=
  console ;;
  controller <- gets window_audioController ;;
  when controller
    (try_catch
       (intercept ;;
        modify (set_window_audioController false))
       (fun _ => console)) ;;
  player <- gets audioPlayerRef ;;
  when (isSome player)
    (try_catch
       (onAudio (with_onended None) ;;
        onAudio (with_onerror None) ;;
        onAudio (with_onpause None) ;;
        audio_pause ;;
        audio_seek0 ;;
        audio_clearSrc ;;
        audio_load)
       (fun _ => console)) ;;
  modify (set_isTTSStoppedRef true) ;;
  console.

(* ------------------------------------------------------------------ *)
(** ** Listening and recording *)

Definition SPEECH_THRESHOLD : R := (2 / 100)%R.
Definition MIN_SPEECH_BUFFERS : nat := 6.
Definition INTERRUPT_THRESHOLD : R := (3 / 100)%R.

Definition setStatus (v : Status) : Js unit := modify (set_status v).

Definition setStatusWithLog (newStatus : Status) : Js unit :=
  console ;; setStatus newStatus.

(** The processor, the source, the audio context and the stream are set
    together by [startListening] and released together here;
    [processorRef] stands for the four. *)
Definition stopListening : Js unit := modify (set_processorRef false).

(** [startListening]: once the microphone is granted the audio callback
    is attached and the run counter starts from 0. *)
Definition startListening : Js unit :=
  setStatus waiting ;;
  try_catch
    (called call_getUserMedia ;;
     b <- gets env ;;
     (if mic_denied b then throw NotAllowedError else ret tt) ;;
     modify (set_processorRef true) ;;
     modify (set_speechBufferCount 0))
    (fun _ => console).

Fixpoint updateNth {A} (n : nat) (f : A -> A) (l : list A) : list A :=
  match l, n with
  | [], _ => []
  | x :: rest, O => f x :: rest
  | x :: rest, S n' => x :: updateNth n' f rest
  end.

Definition mediaRecorder_start (id : nat) : Js unit :=
  called (call_start id) ;;
  modify (fun a =>
            set_recorders
              (updateNth id (fun _ => mkRecorder recording []) (recorders a)) a).

(** The ceiling of one utterance, the delay given to [setTimeout]. *)
Definition MAX_UTTERANCE_MS : N := 5000%N.

Definition startRecording : Js unit :=
  player <- gets audioPlayerRef ;;
  when (isSome player)
    (try_catch
       (console ;;
        audio_pause ;;
        audio_seek0 ;;
        audio_clearSrc ;;
        audio_load ;;
        console)
       (fun _ => console)) ;;
  stopListening ;;
  setStatus listening ;;
  modify (set_isRecording true) ;;
  modify (set_isRecordingRef true) ;;
  modify (set_audioChunksRef []) ;;
  called call_getUserMedia ;;
  b <- gets env ;;
  if mic_denied b then ret tt
  else
    id <- gets (fun a => List.length (recorders a)) ;;
    modify (fun a =>
              set_recorders (recorders a ++ [mkRecorder inactive []]) a) ;;
    modify (set_mediaRecorderRef (Some id)) ;;
    mediaRecorder_start id ;;
    t <- gets now ;;
    modify (fun a => set_timers (timers a ++ [((t + MAX_UTTERANCE_MS)%N, id)]) a).

(** The second half of [onaudioprocess]: what the callback does with the
    energy [r] of the buffer.  The value returned names the branch that
    ran; the source returns nothing. *)
Definition observe (r : R) : Js DetectorEvent :=
  st <- gets status ;;
  if Status_eqb st speaking && gtb r INTERRUPT_THRESHOLD then
    console ;;
    player <- gets audioPlayerRef ;;
    when (isSome player)
      (try_catch
         (console ;;
          audio_pause ;;
          audio_seek0 ;;
          audio_clearSrc ;;
          audio_load ;;
          console)
         (fun _ => console)) ;;
    setStatus listening ;;
    stopListening ;;
    startRecording ;;
    ret Interrupt
  else if gtb r SPEECH_THRESHOLD then
    modify (fun a => set_speechBufferCount (S (speechBufferCount a)) a) ;;
    count <- gets speechBufferCount ;;
    busy <- gets isRecordingRef ;;
    if (MIN_SPEECH_BUFFERS <=? count) && negb busy then
      console ;;
      modify (set_isRecording true) ;;
      modify (set_isRecordingRef true) ;;
      stopListening ;;
      startRecording ;;
      modify (set_speechBufferCount 0) ;;
      ret SpeechStart
    else if negb (Status_eqb st listening) && negb (Status_eqb st processing)
    then setStatus listening ;; ret NoEvent
    else ret NoEvent
  else
    modify (set_speechBufferCount 0) ;;
    ret NoEvent.

Definition onaudioprocess (inputData : list R) : Js DetectorEvent :=
  modify (set_barVolumes (bands inputData)) ;;
  observe (rms inputData).

(** The callback run on a stream of energies, one buffer after the
    other; the events come out in the order of the buffers. *)
Fixpoint observeAll (rs : list R) : Js (list DetectorEvent) :=
  match rs with
  | [] => ret []
  | r :: rest =>
      e <- observe r ;;
      es <- observeAll rest ;;
      ret (e :: es)
  end.

(* ------------------------------------------------------------------ *)
(** ** Processing and playback *)

Definition truthy (s : string) : bool := negb (String.eqb s EmptyString).

(** [o || d] for an optional string [o]. *)
Definition orElse (o : option string) (d : string) : string :=
  match o with
  | Some s => if truthy s then s else d
  | None => d
  end.

Definition playAudioResponse (audioHex : string) : Js unit :=
  setStatusWithLog speaking ;;
  modify (set_isTTSStoppedRef false) ;;
  console ;;
  player <- gets audioPlayerRef ;;
  when (isSome player)
    (try_catch
       (console ;;
        audio_pause ;;
        audio_seek0 ;;
        audio_clearSrc)
       (fun _ => console)) ;;
  try_catch
    (binary <- hexToBinary audioHex ;;
     console ;;
     let url := binary in
     player <- gets audioPlayerRef ;;
     if isSome player then
       onAudio (with_src (objectURL url)) ;;
       onAudio (with_onended (Some (ttsEnded url))) ;;
       onAudio (with_onerror (Some (ttsError url))) ;;
       audio_play url
     else
       console ;;
       setStatusWithLog waiting ;;
       startListening)
    (fun _ =>
       console ;;
       setStatusWithLog waiting ;;
       startListening).

(** [onended], [onerror] and the rejection handler of [play()]. *)
Definition playbackOver : Js unit :=
  console ;;
  setStatusWithLog waiting ;;
  startListening.

Definition userMessage (data : ChatResponse) : Message :=
  {| role := user;
     content := orElse (data_transcription data) "Transcription not available";
     audio := None;
     transcription := data_transcription data;
     files := data_files data |}.

Definition assistantMessage (data : ChatResponse) : Message :=
  {| role := assistant;
     content := data_response data;
     audio := data_audio data;
     transcription := None;
     files := None |}.

Definition fallbackMessage : Message :=
  {| role := assistant;
     content := "Sorry, there was an error processing your message.";
     audio := None;
     transcription := None;
     files := None |}.

Definition setMessages (f : list Message -> list Message) : Js unit :=
  modify (fun a => set_messages (f (messages a)) a).

(** [processAudio] up to the [await fetch(...)]. *)
Definition processAudio_request (audioBlob : Blob) : Js unit :=
  modify (set_loading true) ;;
  called (call_fetch audioBlob) ;;
  modify (fun a => set_inflight (S (inflight a)) a).

(** [processAudio] from the moment the [fetch] settles. *)
Definition processAudio_settled (r : FetchResult) : Js unit :=
  try_finally
    (try_catch
       (match r with
        | fetchRejected => throw TypeError
        | fetchNotOk => throw (Error "Failed to process audio")
        | fetchBadJson => throw SyntaxError
        | fetchOk data =>
            setMessages
              (fun prev => prev ++ [userMessage data; assistantMessage data]) ;;
            match data_audio data with
            | Some audioHex =>
                if truthy audioHex then playAudioResponse audioHex
                else startListening
            | None => startListening
            end
        end)
       (fun _ =>
          console ;;
          setMessages (fun prev => prev ++ [fallbackMessage]) ;;
          startListening))
    (modify (set_loading false)).

(** A whole call of [processAudio] whose [fetch] settles with [r]. *)
Definition processAudio (audioBlob : Blob) (r : FetchResult) : Js unit :=
  processAudio_request audioBlob ;;
  modify (fun a => set_inflight (pred (inflight a)) a) ;;
  processAudio_settled r.

(** [mediaRecorder.onstop] up to the pending [fetch]. *)
Definition onstop : Js unit :=
  setStatus processing ;;
  audioBlob <- gets (fun a => List.concat (audioChunksRef a)) ;;
  processAudio_request audioBlob.

(** [mediaRecorder.onstop] from the moment the [fetch] settles. *)
Definition onstop_settled (r : FetchResult) : Js unit :=
  processAudio_settled r ;;
  modify (set_isRecording false) ;;
  modify (set_isRecordingRef false) ;;
  setStatus waiting ;;
  startListening.

(** [mediaRecorder.stop()]: the recorder hands over what it gathered
    ([ondataavailable]) and then runs [onstop]. *)
Definition mediaRecorder_stop (id : nat) : Js unit :=
  called (call_stop id) ;;
  r <- gets (fun a => nth_error (recorders a) id) ;;
  match r with
  | Some (mkRecorder recording data) =>
      modify (fun a =>
                set_recorders
                  (updateNth id (fun _ => mkRecorder inactive []) (recorders a))
                  a) ;;
      modify (fun a => set_audioChunksRef (audioChunksRef a ++ [data]) a) ;;
      onstop
  | _ => throw DOMException
  end.

(** The callback given to [setTimeout]. *)
Definition recordingTimeout (id : nat) : Js unit :=
  r <- gets (fun a => nth_error (recorders a) id) ;;
  match r with
  | Some (mkRecorder recording _) => mediaRecorder_stop id
  | _ => ret tt
  end.

(* ------------------------------------------------------------------ *)
(** ** The event loop *)

Inductive Event : Type :=
| AudioProcess (inputData : list R)   (* a buffer of the ScriptProcessor *)
| Captured (chunk : Blob)             (* audio reaches the recorders *)
| Elapse (ms : N)                     (* time passes *)
| FetchSettled (r : FetchResult)      (* the oldest pending fetch settles *)
| MediaEnded                          (* the audio element ended *)
| MediaError                          (* the audio element failed *)
| PlayRejected.                       (* the promise of play() rejected *)

Definition capture (chunk : Blob) (rec : MediaRecorder) : MediaRecorder :=
  match state rec with
  | recording => mkRecorder recording (gathered rec ++ chunk)
  | inactive => rec
  end.

Definition isDue (t : N) (timer : N * nat) : bool := (fst timer <=? t)%N.

(** The clock advances, then the timers that are due run, oldest first. *)
Definition elapse (ms : N) (a : App) : App :=
  let t := (now a + ms)%N in
  let due := filter (isDue t) (timers a) in
  let later := filter (fun timer => negb (isDue t timer)) (timers a) in
  fold_left (fun acc timer => task (recordingTimeout (snd timer)) acc)
            due (set_timers later (set_now t a)).

Definition dispatch (e : Event) (a : App) : App :=
  match e with
  | AudioProcess inputData =>
      if processorRef a then task (onaudioprocess inputData) a else a
  | Captured chunk => set_recorders (map (capture chunk) (recorders a)) a
  | Elapse ms => elapse ms a
  | FetchSettled r =>
      match inflight a with
      | O => a
      | S n => task (onstop_settled r) (set_inflight n a)
      end
  | MediaEnded =>
      match audioPlayerRef a with
      | Some (mkAudio _ _ _ (Some _) _ _) => task playbackOver a
      | _ => a
      end
  | MediaError =>
      match audioPlayerRef a with
      | Some (mkAudio _ _ _ _ (Some _) _) => task playbackOver a
      | _ => a
      end
  | PlayRejected => task playbackOver a
  end.

Definition run (events : list Event) (a : App) : App :=
  fold_left (fun acc e => dispatch e acc) events a.

Definition idleAudio : HTMLAudioElement :=
  {| paused := true; currentTime := 0%R; src := emptySrc;
     onended := None; onerror := None; onpause := None |}.

(** The component before its mount effect ran, in a browser [b]. *)
Definition initialApp (b : Browser) : App :=
  {| env := b; status := waiting; loading := false; messages := [];
     isRecording := false; isRecordingRef := false;
     barVolumes := repeat 0%R 8; speechBufferCount := 0;
     audioPlayerRef := Some idleAudio; window_audioController := false;
     isTTSStoppedRef := false; processorRef := false; audioChunksRef := [];
     mediaRecorderRef := None; recorders := []; timers := []; now := 0%N;
     inflight := 0; calls := [] |}.

(** The mount effect. *)
Definition mount : Js unit :=
  setStatus waiting ;;
  startListening.

Definition mounted (b : Browser) : App := task mount (initialApp b).

(* ------------------------------------------------------------------ *)
(** ** Auxiliary definitions for the statements *)

(** The statuses from which a loud buffer moves the display to
    [listening]. *)
Definition quietStatus (st : Status) : bool :=
  negb (Status_eqb st listening) && negb (Status_eqb st processing).

Definition DetectorEvent_eq_dec (x y : DetectorEvent) : {x = y} + {x <> y}.
Proof. decide equality. Defined.

(** The two notions the description of the energy analysis is written
    in, for comparison with [rms] and [bands]: the mean of the squared
    samples of a range, and the clamp to [[0,1]]. *)
Definition meanSquare (range : list R) : R :=
  (fold_right Rplus 0 (map (fun x => x * x) range) / INR (List.length range))%R.

Definition clamp01 (x : R) : R := Rmax 0 (Rmin 1 x).

(** The eight sub-ranges of a buffer: seven of [length / 8] samples and
    a last one that runs to the end of the buffer. *)
Definition subRanges (inputData : list R) : list (list R) :=
  let k := List.length inputData / 8 in
  map (fun i => firstn k (skipn (i * k) inputData)) (seq 0 7)
    ++ [skipn (7 * k) inputData].

(** The messages one settled [fetch] adds to the log. *)
Definition newMessages (r : FetchResult) : list Message :=
  match r with
  | fetchOk data => [userMessage data; assistantMessage data]
  | _ => [fallbackMessage]
  end.


(** A string that is not a hex encoding of bytes: it has odd length or a
    character that is not a hex digit. *)
Definition malformedHex (s : string) : bool :=
  Nat.odd (String.length s)
  || existsb (fun c => negb (isSome (hexDigit c))) (list_ascii_of_string s).

(** The recorder and the timer a granted microphone adds. *)
Definition withNewRecorder (a : App) (x : App) : App :=
  if mic_denied (env a) then x
  else
    set_timers
      (timers a ++ [((now a + MAX_UTTERANCE_MS)%N, List.length (recorders a))])
      (set_mediaRecorderRef (Some (List.length (recorders a)))
         (set_recorders (recorders a ++ [mkRecorder recording []]) x)).

(** Recorders that are recording, and the recordings under way or
    waiting for their answer. *)
Definition isRecordingNow (r : MediaRecorder) : bool :=
  match state r with
  | recording => true
  | inactive => false
  end.

Definition recordingCount (rs : list MediaRecorder) : nat :=
  List.length (filter isRecordingNow rs).

Definition sessions (a : App) : nat :=
  inflight a + recordingCount (recorders a).

(** What the flag of the recording guards: the status is never left at
    [speaking]; a recording or a pending request exists only under the
    flag, and at most one; the status [processing] is shown only under
    the flag. *)
Definition exclusive (a : App) : Prop :=
  status a <> speaking /\
  sessions a <= (if isRecordingRef a then 1 else 0) /\
  (status a = processing -> isRecordingRef a = true).

(** The events of a recording session: audio reaches the recorder and
    time passes; nothing else happens, in particular no stop. *)
Definition isSessionEvent (e : Event) : bool :=
  match e with
  | Captured _ | Elapse _ => true
  | _ => false
  end.

(** The time that passes in a list of events. *)
Fixpoint elapsed (events : list Event) : N :=
  match events with
  | [] => 0%N
  | Elapse ms :: rest => (ms + elapsed rest)%N
  | _ :: rest => elapsed rest
  end.

(** The audio that arrives in a list of events. *)
Fixpoint capturedIn (events : list Event) : Blob :=
  match events with
  | [] => []
  | Captured chunk :: rest => chunk ++ capturedIn rest
  | _ :: rest => capturedIn rest
  end.

(** The state of a recording session of the component [a0], which
    started recorder [id] at time [t0]: the clock, the pending timers
    and what the recorder gathered are the only things that move. *)
Definition sessionState (a0 : App) (id : nat) (t0 : N)
  (passed : N) (older : list (N * nat)) (data : Blob) : App :=
  set_now (t0 + passed)%N
    (set_timers (older ++ [((t0 + MAX_UTTERANCE_MS)%N, id)])
       (set_recorders
          (firstn id (recorders a0) ++ [mkRecorder recording data]) a0)).

(** Every pending timer belongs to a recorder that exists. *)
Definition timersKnown (a : App) : Prop :=
  Forall (fun timer => snd timer < List.length (recorders a)) (timers a).

(** The component [a] after [k] loud buffers [f] of a run that is not
    yet complete: the bars show [f], the counter holds [k], and a status
    that is neither [listening] nor [processing] has become [listening]. *)
Definition counted (f : list R) (k : nat) (a : App) : App :=
  (if quietStatus (status a) then set_status listening else fun x => x)
    (set_speechBufferCount k (set_barVolumes (bands f) a)).

(* ------------------------------------------------------------------ *)
(** ** Sample browsers and states *)

(** A browser in which no guarded call throws and the microphone is
    granted. *)
Definition plainBrowser : Browser :=
  {| intercept_throws := false; pause_throws := false; seek_throws := false;
     clearSrc_throws := false; load_throws := false; mic_denied := false |}.



(** An audio element in the middle of playing a synthesized answer. *)
Definition playingAudio : HTMLAudioElement :=
  {| paused := false; currentTime := 1%R;
     src := objectURL [82; 73; 70; 70]%Z;
     onended := Some (ttsEnded [82; 73; 70; 70]%Z);
     onerror := Some (ttsError [82; 73; 70; 70]%Z);
     onpause := None |}.

(** The mounted component in browser [b] with the answer playing and a
    stop hook registered on [window]. *)
Definition playingUnder (b : Browser) : App :=
  set_window_audioController true
    (set_audioPlayerRef (Some playingAudio) (mounted b)).

(** A recording that ran into the ceiling: the mounted component starts
    a recording, the recorder gathers two bytes, five seconds pass.  The
    utterance has been posted and the answer is pending. *)
Definition awaitingAnswer : App :=
  run [Captured [82; 73]%Z; Elapse 5000%N]
      (task startRecording (mounted plainBrowser)).

(** An answer whose audio has an odd number of hex digits. *)
Definition oddAudioAnswer : ChatResponse :=
  {| data_transcription := Some "hello"%string;
     data_response := "hi there"%string;
     data_audio := Some "abc"%string;
     data_files := None |}.

(** An answer whose transcription is the empty string. *)
Definition silentAnswer : ChatResponse :=
  {| data_transcription := Some EmptyString;
     data_response := "hi there"%string;
     data_audio := None;
     data_files := None |}.


(** A buffer of the ScriptProcessor, 2048 samples of amplitude 0.1. *)
Definition loudBuffer : list R := repeat (1 / 10)%R 2048.

(** An answer with four bytes of audio. *)
Definition spokenAnswer : ChatResponse :=
  {| data_transcription := Some "hello"%string;
     data_response := "hi there"%string;
     data_audio := Some "52494646"%string;
     data_files := None |}.

(** The component while the answer plays: the pending request of
    [awaitingAnswer] has settled with [spokenAnswer]. *)
Definition answerPlaying : App :=
  dispatch (FetchSettled (fetchOk spokenAnswer)) awaitingAnswer.

(* ------------------------------------------------------------------ *)
(** ** Further functions of the component *)

(** The cleanup of the mount effect: what runs when the component
    unmounts. *)
Definition cleanup : Js unit :=
  stopListening ;;
  hardStopAudio.

(* ------------------------------------------------------------------ *)
(** ** Auxiliary definitions for the further statements *)

Definition isHexDigit (c : ascii) : bool := isSome (hexDigit c).

(** A hex encoding of bytes: an even number of hex digits. *)
Definition wellFormedHex (s : string) : bool :=
  Nat.even (String.length s) && forallb isHexDigit (list_ascii_of_string s).

(** The characters of a string that are no line terminators. *)
Definition withoutLineTerminators (s : string) : string :=
  string_of_list_ascii
    (filter (fun c => negb (isLineTerminator c)) (list_ascii_of_string s)).

(** The bytes the decoder makes of the matches of a string. *)
Definition decoded (audioHex : string) : Blob :=
  map (fun byte => toUint8 (parseInt16 byte)) (matchAll audioHex).

(** The requests that settle in a list of events. *)
Definition settlements (events : list Event) : nat :=
  List.length
    (filter (fun e => match e with FetchSettled _ => true | _ => false end)
            events).

(** A stream of bursts: each a run of energies and the energy that
    follows it. *)
Definition burstStream (bursts : list (list R * R)) : list R :=
  flat_map (fun burst => fst burst ++ [snd burst]) bursts.

(** An answer whose audio is a single line feed: not empty, and nothing
    in it for the pattern to match. *)
Definition lineFeedAnswer : ChatResponse :=
  {| data_transcription := Some "hello"%string;
     data_response := "hi there"%string;
     data_audio := Some (String (ascii_of_nat 10) EmptyString);
     data_files := None |}.

(* ------------------------------------------------------------------ *)
(** ** The view *)

(** The props of [RecordingBars]; a prop left out is [None]. *)
Record RecordingBarsProps : Type := mkBarsProps {
  volumes : option (list R);
  color : option string;
  animate : option bool
}.

(** The element below the message list: a [<RecordingBars>] with its
    key and props, or a [<ParticleCloud>]. *)
Inductive Indicator : Type :=
| barsElement (key : string) (props : RecordingBarsProps)
| cloudElement.

(** [{cond && element}] in JSX. *)
Definition shown {A} (cond : bool) (x : A) : list A :=
  if cond then [x] else [].

(** The indicators [App] renders, in the order of the source. *)
Definition indicators (a : App) : list Indicator :=
  let st := status a in
  shown (Status_eqb st waiting)
    (barsElement "waiting"%string
       {| volumes := None; color := Some "purple"%string; animate := Some true |})
  ++ shown (Status_eqb st listening)
       (barsElement "listening"%string
          {| volumes := Some (barVolumes a); color := Some "purple"%string;
             animate := None |})
  ++ shown (Status_eqb st processing)
       (barsElement "processing"%string
          {| volumes := None; color := Some "green"%string;
             animate := Some true |})
  ++ shown (Status_eqb st speaking)
       (barsElement "speaking"%string
          {| volumes := None; color := Some "#e75480"%string;
             animate := Some true |})
  ++ shown (loading a && negb (Status_eqb st processing)
            && negb (Status_eqb st listening) && negb (Status_eqb st waiting)
            && negb (Status_eqb st speaking))
       cloudElement.

(** The line of text below the indicator. *)
Definition caption (a : App) : string :=
  let st := status a in
  String.concat EmptyString
    (shown (Status_eqb st waiting) "Waiting for Input..."%string
     ++ shown (Status_eqb st listening) "Listening..."%string
     ++ shown (Status_eqb st processing) "Processing your message..."%string
     ++ shown (Status_eqb st speaking) "Bot is speaking..."%string).

(** One entry of the message list: the bubble of the user with its text,
    or the bubble of the assistant with its text and, if any, the block
    titled Transcription. *)
Inductive Bubble : Type :=
| userBubble (text : string)
| assistantBubble (text : string) (transcriptionBlock : option string).

Definition bubble (message : Message) : Bubble :=
  match role message with
  | user => userBubble (orElse (transcription message) (content message))
  | assistant =>
      assistantBubble (content message)
        (match transcription message with
         | Some t => if truthy t then Some t else None
         | None => None
         end)
  end.

(* ------------------------------------------------------------------ *)
(** ** [RecordingBars] *)

Definition NUM_BARS : nat := 8.

(** What the callback of [setInterval] stores at a value of [frame]. *)
Definition sineVolumes (frame : nat) : list R :=
  map (fun i => (5 / 10 + 35 / 100 * sin (INR frame / 10 + INR i * PI / 4))%R)
      (seq 0 NUM_BARS).

(** The state [animatedVolumes] after the interval ran [ticks] times;
    the interval is set only when [animate] holds. *)
Definition animatedVolumes (animate : bool) (ticks : nat) : list R :=
  match animate, ticks with
  | true, S frame => sineVolumes frame
  | _, _ => repeat (5 / 10)%R NUM_BARS
  end.

(** One rendered bar: its height in pixels and its colour. *)
Record Bar : Type := mkBar {
  height : R;
  bar_color : string
}.

Definition RecordingBars (props : RecordingBarsProps) (ticks : nat) : list Bar :=
  let color := match color props with Some c => c | None => "#6c63ff"%string end in
  let animate := match animate props with Some b => b | None => false end in
  let barHeights :=
    if animate then animatedVolumes animate ticks
    else match volumes props with
         | Some vs => vs
         | None => repeat (5 / 10)%R NUM_BARS
         end in
  map (fun v => {| height := (20 + v * 60)%R; bar_color := color |}) barHeights.

(* ------------------------------------------------------------------ *)
(** ** [ParticleCloud] *)

Definition NUM_PARTICLES : nat := 12.
Definition RADIUS : R := 28%R.
Definition PARTICLE_RADIUS : R := 5%R.

Record Circle : Type := mkCircle {
  cx : R;
  cy : R;
  circle_r : R;
  fill : string
}.

(** The circles of the cloud; the [svg] that holds them is 80 by 80. *)
Definition ParticleCloud : list Circle :=
  map (fun i =>
         let angle := (2 * PI * INR i / INR NUM_PARTICLES)%R in
         {| cx := (RADIUS * cos angle + 40)%R;
            cy := (RADIUS * sin angle + 40)%R;
            circle_r := PARTICLE_RADIUS;
            fill := "#6c63ff"%string |})
      (seq 0 NUM_PARTICLES).

(* ------------------------------------------------------------------ *)
(** ** The second [App] of the file *)

(** The file holds a second [App], without the interruption and without
    the guards around the player.  Its state is a part of the state of
    the first, and its [stopListening] and [startListening] are the
    same. *)
Module Plain.

Definition stopPlayback : Js unit :=
  player <- gets audioPlayerRef ;;
  when (isSome player)
    (audio_pause ;;
     audio_seek0 ;;
     audio_clearSrc ;;
     onAudio (with_onended None)).

Definition cleanup : Js unit := stopListening ;; stopPlayback.

Definition startRecording : Js unit :=
  stopListening ;;
  setStatus listening ;;
  modify (set_isRecording true) ;;
  modify (set_isRecordingRef true) ;;
  modify (set_audioChunksRef []) ;;
  called call_getUserMedia ;;
  b <- gets env ;;
  if mic_denied b then ret tt
  else
    id <- gets (fun a => List.length (recorders a)) ;;
    modify (fun a =>
              set_recorders (recorders a ++ [mkRecorder inactive []]) a) ;;
    modify (set_mediaRecorderRef (Some id)) ;;
    mediaRecorder_start id ;;
    t <- gets now ;;
    modify (fun a => set_timers (timers a ++ [((t + MAX_UTTERANCE_MS)%N, id)]) a).

(** The second half of [onaudioprocess]: the buffer is counted first,
    the run is checked after. *)
Definition observe (r : R) : Js DetectorEvent :=
  st <- gets status ;;
  (if gtb r SPEECH_THRESHOLD then
     when (negb (Status_eqb st listening)) (setStatus listening) ;;
     modify (fun a => set_speechBufferCount (S (speechBufferCount a)) a)
   else
     modify (set_speechBufferCount 0)) ;;
  count <- gets speechBufferCount ;;
  busy <- gets isRecordingRef ;;
  if (MIN_SPEECH_BUFFERS <=? count) && negb busy then
    modify (set_isRecording true) ;;
    modify (set_isRecordingRef true) ;;
    stopListening ;;
    startRecording ;;
    modify (set_speechBufferCount 0) ;;
    ret SpeechStart
  else ret NoEvent.

Definition onaudioprocess (inputData : list R) : Js DetectorEvent :=
  modify (set_barVolumes (bands inputData)) ;;
  observe (rms inputData).

Definition playAudioResponse (audioHex : string) : Js unit :=
  setStatus speaking ;;
  binary <- hexToBinary audioHex ;;
  let url := binary in
  player <- gets audioPlayerRef ;;
  when (isSome player)
    (audio_pause ;;
     audio_seek0 ;;
     audio_clearSrc ;;
     onAudio (with_onended None) ;;
     onAudio (with_src (objectURL url)) ;;
     audio_play url ;;
     onAudio (with_onended (Some (ttsEnded url)))).

(** [processAudio] from the moment the [fetch] settles. *)
Definition processAudio_settled (r : FetchResult) : Js unit :=
  try_finally
    (try_catch
       (match r with
        | fetchRejected => throw TypeError
        | fetchNotOk => throw (Error "Failed to process audio")
        | fetchBadJson => throw SyntaxError
        | fetchOk data =>
            setMessages
              (fun prev => prev ++ [userMessage data; assistantMessage data]) ;;
            match data_audio data with
            | Some audioHex =>
                if truthy audioHex then playAudioResponse audioHex
                else startListening
            | None => startListening
            end
        end)
       (fun _ =>
          console ;;
          setMessages (fun prev => prev ++ [fallbackMessage]) ;;
          startListening))
    (modify (set_loading false)).

End Plain.

(* ================================================================== *)
(** * Properties *)

Arguments gtb : simpl never.

Ltac js_unfold :=
  unfold observe, onaudioprocess, hardStopAudio, playAudioResponse, playbackOver,
    processAudio, processAudio_settled, processAudio_request, onstop,
    onstop_settled, mediaRecorder_stop, recordingTimeout, mount, hexToBinary,
    setMessages,
    startRecording, startListening, stopListening, setStatus, setStatusWithLog,
    mediaRecorder_start, audio_pause, audio_seek0, audio_clearSrc, audio_load,
    audio_play, intercept, browserCall, onAudio, called, console, when,
    try_catch, try_finally, gets, modify, bind, ret, throw, task in *.

Ltac app_norm :=
  cbv [set_status set_loading set_messages set_isRecording set_isRecordingRef
       set_barVolumes set_speechBufferCount set_audioPlayerRef
       set_window_audioController set_isTTSStoppedRef set_processorRef
       set_audioChunksRef set_mediaRecorderRef set_recorders set_timers set_now
       set_inflight set_calls
       env status loading messages isRecording isRecordingRef barVolumes
       speechBufferCount audioPlayerRef window_audioController isTTSStoppedRef
       processorRef audioChunksRef mediaRecorderRef recorders timers now
       inflight calls].

Ltac split_ifs :=
  repeat match goal with
         | |- context [if ?c then _ else _] => destruct c eqn:?; cbn
         end.

Lemma gtb_true (x y : R) : (x > y)%R -> gtb x y = true.
Proof. intros H. unfold gtb. destruct (Rgt_dec x y); [reflexivity | contradiction]. Qed.

Lemma gtb_false (x y : R) : (x <= y)%R -> gtb x y = false.
Proof. intros H. unfold gtb. destruct (Rgt_dec x y); [lra | reflexivity]. Qed.

Lemma thresholds_ordered : (SPEECH_THRESHOLD < INTERRUPT_THRESHOLD)%R.
Proof. unfold SPEECH_THRESHOLD, INTERRUPT_THRESHOLD. lra. Qed.

Lemma Status_eqb_eq (s t : Status) : Status_eqb s t = true <-> s = t.
Proof. destruct s, t; cbn; split; intros H; congruence. Qed.

Lemma Status_eqb_neq (s t : Status) : s <> t -> Status_eqb s t = false.
Proof. destruct s, t; cbn; congruence. Qed.

(* ------------------------------------------------------------------ *)
(** ** The audio callback *)

Lemma gtb_cases (x y : R) :
  (gtb x y = true /\ (x > y)%R) \/ (gtb x y = false /\ (x <= y)%R).
Proof.
  unfold gtb. destruct (Rgt_dec x y); [left | right]; split; try reflexivity; lra.
Qed.

Lemma updateNth_at_end {A : Type} (f : A -> A) (l : list A) (x : A) :
  updateNth (List.length l) f (l ++ [x]) = l ++ [f x].
Proof. induction l as [| y l IH]; cbn; [reflexivity | rewrite IH; reflexivity]. Qed.

(** [startRecording] returns normally.  It stops the callback, raises
    the flag, empties the chunks and, the microphone granted, starts a
    new recorder with its timer; what it does to the player and which
    calls it logs depends on the browser. *)
Lemma startRecording_shape (a : App) :
  exists player log,
    startRecording a =
      (Normal tt,
       set_audioPlayerRef player (set_calls log
         (withNewRecorder a
            (set_audioChunksRef [] (set_isRecordingRef true
               (set_isRecording true (set_status listening
                  (set_processorRef false a))))))))
    /\ exists new, log = new ++ calls a.
Proof.
  destruct a as [b st ld ms ir irr bv cnt ap wc tts pr ch mr rs ts nw inf cs].
  unfold withNewRecorder. js_unfold. cbn.
  destruct ap; cbn; split_ifs; rewrite ?updateNth_at_end;
    do 2 eexists; (split; [app_norm; reflexivity |]);
    match goal with
    | |- exists new, ?l = new ++ cs =>
        let rec prefix l :=
          lazymatch l with
          | cs => constr:(@nil Call)
          | ?c :: ?r => let p := prefix r in constr:(c :: p)
          end in
        let p := prefix l in exists p; reflexivity
    end.
Qed.

(** A buffer that is not louder than the speech threshold ends the run. *)
Lemma observe_quiet (r : R) (a : App) :
  (r <= SPEECH_THRESHOLD)%R ->
  observe r a = (Normal NoEvent, set_speechBufferCount 0 a).
Proof.
  intros H. unfold observe, gets, modify, bind, ret.
  rewrite (gtb_false r INTERRUPT_THRESHOLD)
    by (pose proof thresholds_ordered; lra).
  rewrite andb_false_r, (gtb_false _ _ H). reflexivity.
Qed.

(** A loud buffer that is no interruption and does not complete a run,
    or comes while the flag is up, only counts. *)
Lemma observe_loud_counts (r : R) (a : App) :
  Status_eqb (status a) speaking && gtb r INTERRUPT_THRESHOLD = false ->
  (r > SPEECH_THRESHOLD)%R ->
  (MIN_SPEECH_BUFFERS <=? S (speechBufferCount a)) && negb (isRecordingRef a)
    = false ->
  observe r a =
    (Normal NoEvent,
     (if quietStatus (status a) then set_status listening else fun x => x)
       (set_speechBufferCount (S (speechBufferCount a)) a)).
Proof.
  intros Hs Hr Hc. unfold observe, gets, modify, bind, ret, setStatus.
  rewrite Hs, (gtb_true _ _ Hr).
  destruct a as [b st ld ms ir irr bv cnt ap wc tts pr ch mr rs ts nw inf cs].
  cbn [speechBufferCount isRecordingRef status set_speechBufferCount] in *.
  rewrite Hc. unfold quietStatus.
  destruct (negb (Status_eqb st listening) && negb (Status_eqb st processing));
    reflexivity.
Qed.

(** The loud buffer that completes a run while the flag is down starts a
    recording and clears the counter. *)
Lemma observe_loud_fires (r : R) (a : App) :
  Status_eqb (status a) speaking && gtb r INTERRUPT_THRESHOLD = false ->
  (r > SPEECH_THRESHOLD)%R ->
  MIN_SPEECH_BUFFERS <= S (speechBufferCount a) ->
  isRecordingRef a = false ->
  observe r a =
    (Normal SpeechStart,
     set_speechBufferCount 0
       (task startRecording
          (set_processorRef false (set_isRecordingRef true
             (set_isRecording true
                (set_speechBufferCount (S (speechBufferCount a)) a)))))).
Proof.
  intros Hs Hr Hc Hf. unfold observe.
  unfold gets at 1. unfold bind at 1.
  rewrite Hs, (gtb_true _ _ Hr).
  apply Nat.leb_le in Hc.
  unfold gets, modify, bind, ret, console, stopListening, task.
  cbn [speechBufferCount isRecordingRef set_speechBufferCount].
  destruct a as [b st ld ms ir irr bv cnt ap wc tts pr ch mr rs ts nw inf cs].
  cbn [speechBufferCount isRecordingRef status set_speechBufferCount] in *.
  rewrite Hc, Hf. cbn -[startRecording].
  match goal with
  | |- context [startRecording ?x] =>
      destruct (startRecording_shape x) as (p & c & E & _); rewrite E
  end.
  reflexivity.
Qed.

(** The fields a recording started by a completed run leaves. *)
Lemma fired_state (a : App) :
  let a' :=
    set_speechBufferCount 0
      (task startRecording
         (set_processorRef false (set_isRecordingRef true
            (set_isRecording true
               (set_speechBufferCount (S (speechBufferCount a)) a))))) in
  speechBufferCount a' = 0 /\ isRecordingRef a' = true /\
  status a' = listening /\ processorRef a' = false /\
  inflight a' = inflight a /\ env a' = env a /\
  recorders a' =
    recorders a ++ (if mic_denied (env a) then []
                    else [mkRecorder recording []]).
Proof.
  cbv zeta. unfold task.
  match goal with
  | |- context [startRecording ?x] =>
      destruct (startRecording_shape x) as (p & c & E & _); rewrite E
  end.
  unfold withNewRecorder.
  destruct a as [b st ld ms ir irr bv cnt ap wc tts pr ch mr rs ts nw inf cs].
  cbn [env set_processorRef set_isRecordingRef set_isRecording
       set_speechBufferCount recorders now timers].
  destruct (mic_denied b); app_norm; cbn [snd]; rewrite ?app_nil_r;
    repeat split; reflexivity.
Qed.


Lemma no_interrupt_unless_speaking (r : R) (a : App) :
  status a <> speaking ->
  Status_eqb (status a) speaking && gtb r INTERRUPT_THRESHOLD = false.
Proof. intros H. rewrite (Status_eqb_neq _ _ H). reflexivity. Qed.

Lemma set_speechBufferCount_twice (m n : nat) (a : App) :
  set_speechBufferCount m (set_speechBufferCount n a) = set_speechBufferCount m a.
Proof. reflexivity. Qed.

Lemma observeAll_cons (r : R) (rs : list R) (a : App) :
  observeAll (r :: rs) a =
    match observe r a with
    | (Normal e, a1) =>
        match observeAll rs a1 with
        | (Normal es, a2) => (Normal (e :: es), a2)
        | (Abrupt x, a2) => (Abrupt x, a2)
        end
    | (Abrupt x, a1) => (Abrupt x, a1)
    end.
Proof.
  cbn [observeAll]. unfold bind, ret.
  destruct (observe r a) as [[e | x] a1]; [| reflexivity].
  destruct (observeAll rs a1) as [[es | x] a2]; reflexivity.
Qed.

Lemma observeAll_app (rs1 rs2 : list R) (a : App) :
  observeAll (rs1 ++ rs2) a =
    match observeAll rs1 a with
    | (Normal es1, a1) =>
        match observeAll rs2 a1 with
        | (Normal es2, a2) => (Normal (es1 ++ es2), a2)
        | (Abrupt x, a2) => (Abrupt x, a2)
        end
    | (Abrupt x, a1) => (Abrupt x, a1)
    end.
Proof.
  revert a. induction rs1 as [| r rs1 IH]; intros a.
  - cbn [app observeAll]. unfold ret.
    destruct (observeAll rs2 a) as [[es | x] a2]; reflexivity.
  - rewrite <- app_comm_cons, !observeAll_cons.
    destruct (observe r a) as [[e | x] a1]; [| reflexivity].
    rewrite IH.
    destruct (observeAll rs1 a1) as [[es1 | x] a2]; [| reflexivity].
    destruct (observeAll rs2 a2) as [[es2 | x] a3]; reflexivity.
Qed.

(** A stream of buffers none of which is louder than the speech
    threshold yields no event and leaves the counter at 0. *)
Lemma observeAll_quiet (rs : list R) (a : App) :
  Forall (fun r => (r <= SPEECH_THRESHOLD)%R) rs ->
  observeAll rs a =
    (Normal (repeat NoEvent (List.length rs)),
     match rs with
     | [] => a
     | _ :: _ => set_speechBufferCount 0 a
     end).
Proof.
  intros H. revert a. induction H as [| r rs Hr Hrs IH]; intros a.
  - reflexivity.
  - rewrite observeAll_cons, (observe_quiet _ _ Hr), IH.
    destruct rs; reflexivity.
Qed.

(** Loud buffers short of a full run only count. *)
Lemma observeAll_loud_run (rs : list R) :
  forall a : App,
    status a <> speaking ->
    isRecordingRef a = false ->
    Forall (fun r => (r > SPEECH_THRESHOLD)%R) rs ->
    speechBufferCount a + List.length rs < MIN_SPEECH_BUFFERS ->
    exists a',
      observeAll rs a = (Normal (repeat NoEvent (List.length rs)), a') /\
      speechBufferCount a' = speechBufferCount a + List.length rs /\
      isRecordingRef a' = false /\ status a' <> speaking.
Proof.
  induction rs as [| r rs IH]; intros a Hs Hf Hl Hn.
  - exists a. cbn. rewrite Nat.add_0_r. auto.
  - inversion Hl as [| ? ? Hr Hrs]; subst. cbn [List.length] in Hn.
    assert (Hc : (MIN_SPEECH_BUFFERS <=? S (speechBufferCount a))
                 && negb (isRecordingRef a) = false).
    { apply andb_false_iff. left. apply Nat.leb_gt. lia. }
    rewrite observeAll_cons,
      (observe_loud_counts _ _ (no_interrupt_unless_speaking r a Hs) Hr Hc).
    set (a1 := (if quietStatus (status a) then set_status listening
                else fun x => x)
                 (set_speechBufferCount (S (speechBufferCount a)) a)).
    assert (H1 : speechBufferCount a1 = S (speechBufferCount a))
      by (unfold a1; destruct (quietStatus (status a)); reflexivity).
    assert (H2 : isRecordingRef a1 = false)
      by (unfold a1; destruct (quietStatus (status a)); exact Hf).
    assert (H3 : status a1 <> speaking).
    { unfold a1. destruct (quietStatus (status a)); cbn; [discriminate | exact Hs]. }
    destruct (IH a1 H3 H2 Hrs) as (a' & E & Hc' & Hf' & Hs'); [lia |].
    exists a'. rewrite E. cbn [List.length repeat].
    repeat split; [lia | assumption | assumption].
Qed.

Lemma Forall_firstn_of {A : Type} (P : A -> Prop) (k : nat) (l : list A) :
  Forall P l -> Forall P (firstn k l).
Proof.
  intros H. rewrite <- (firstn_skipn k l) in H.
  apply Forall_app in H. apply H.
Qed.

Lemma count_occ_repeat_NoEvent (n : nat) :
  count_occ DetectorEvent_eq_dec (repeat NoEvent n) SpeechStart = 0.
Proof. induction n as [| n IH]; [reflexivity | exact IH]. Qed.

(** C4. For every stream of energies strictly below the speech
    threshold, after each observation (the first [k] buffers of the
    stream, for every [k]) no [SpeechStart] and no [Interrupt] has been
    emitted and the counter of the run is 0: the state is the one the
    stream started from, with the counter at 0. *)
Theorem quiet_stream_counter_zero_no_event (rs : list R) (a : App) :
  Forall (fun r => (r < SPEECH_THRESHOLD)%R) rs ->
  forall k : nat,
    0 < k <= List.length rs ->
    observeAll (firstn k rs) a =
      (Normal (repeat NoEvent k), set_speechBufferCount 0 a) /\
    speechBufferCount (snd (observeAll (firstn k rs) a)) = 0 /\
    ~ In SpeechStart (repeat NoEvent k) /\ ~ In Interrupt (repeat NoEvent k).
Proof.
  intros H k [Hk0 Hk].
  assert (Hq : Forall (fun r => (r <= SPEECH_THRESHOLD)%R) (firstn k rs)).
  { apply Forall_firstn_of.
    apply (Forall_impl _ (fun r Hr => Rlt_le _ _ Hr) H). }
  rewrite (observeAll_quiet _ a Hq), firstn_length_le by exact Hk.
  destruct (firstn k rs) eqn:E.
  - apply (f_equal (@List.length R)) in E.
    rewrite firstn_length_le in E by exact Hk. cbn in E. lia.
  - repeat split; try reflexivity;
      intros Hin; apply repeat_spec in Hin; discriminate.
Qed.

Lemma quiet_stream_counter_zero_no_event_witness :
  observeAll (firstn 2 [(1 / 100)%R; 0%R]) (mounted plainBrowser) =
    (Normal (repeat NoEvent 2), set_speechBufferCount 0 (mounted plainBrowser)) /\
  speechBufferCount
    (snd (observeAll (firstn 2 [(1 / 100)%R; 0%R]) (mounted plainBrowser))) = 0 /\
  ~ In SpeechStart (repeat NoEvent 2) /\ ~ In Interrupt (repeat NoEvent 2).
Proof.
  apply (quiet_stream_counter_zero_no_event [(1 / 100)%R; 0%R]).
  - repeat constructor; unfold SPEECH_THRESHOLD; lra.
  - cbn. lia.
Defined.

(** C3. With the flag of a recording down, the counter at 0 and a status
    other than [speaking], six consecutive energies above the speech
    threshold followed by energies that are not above it give exactly one
    [SpeechStart]: the first five buffers give no event, the sixth gives
    [SpeechStart] and leaves the counter at 0, and the buffers after it
    give no event. *)
Theorem six_loud_buffers_one_speech_start (loud quiet : list R) (a : App) :
  speechBufferCount a = 0 ->
  isRecordingRef a = false ->
  status a <> speaking ->
  List.length loud = MIN_SPEECH_BUFFERS ->
  Forall (fun r => (r > SPEECH_THRESHOLD)%R) loud ->
  Forall (fun r => (r <= SPEECH_THRESHOLD)%R) quiet ->
  exists a6 a',
    observeAll (firstn 5 loud) a = (Normal (repeat NoEvent 5), snd (observeAll (firstn 5 loud) a)) /\
    observeAll loud a = (Normal (repeat NoEvent 5 ++ [SpeechStart]), a6) /\
    speechBufferCount a6 = 0 /\
    observeAll (loud ++ quiet) a =
      (Normal (repeat NoEvent 5 ++ SpeechStart
                 :: repeat NoEvent (List.length quiet)), a') /\
    count_occ DetectorEvent_eq_dec
      (repeat NoEvent 5 ++ SpeechStart :: repeat NoEvent (List.length quiet))
      SpeechStart = 1.
Proof.
  intros Hc Hf Hs Hlen Hloud Hquiet.
  assert (Hsplit : loud = firstn 5 loud ++ skipn 5 loud)
    by (symmetry; apply firstn_skipn).
  assert (H5 : List.length (firstn 5 loud) = 5)
    by (rewrite firstn_length_le; [reflexivity | rewrite Hlen; unfold MIN_SPEECH_BUFFERS; lia]).
  destruct (skipn 5 loud) as [| r6 tl] eqn:Esk.
  { apply (f_equal (@List.length R)) in Esk. rewrite length_skipn, Hlen in Esk.
    discriminate Esk. }
  assert (tl = []) as ->.
  { apply (f_equal (@List.length R)) in Esk. rewrite length_skipn, Hlen in Esk.
    cbn in Esk. destruct tl; [reflexivity | discriminate Esk]. }
  assert (Hl5 : Forall (fun r => (r > SPEECH_THRESHOLD)%R) (firstn 5 loud)).
  { rewrite Hsplit in Hloud. apply Forall_app in Hloud. apply Hloud. }
  assert (Hr6 : (r6 > SPEECH_THRESHOLD)%R).
  { rewrite Hsplit in Hloud. apply Forall_app in Hloud.
    destruct Hloud as [_ Hl]. inversion Hl; assumption. }
  destruct (observeAll_loud_run (firstn 5 loud) a Hs Hf Hl5)
    as (a5 & E5 & Hc5 & Hf5 & Hs5).
  { rewrite Hc, H5. unfold MIN_SPEECH_BUFFERS. lia. }
  rewrite H5 in E5, Hc5.
  pose proof (observe_loud_fires r6 a5 (no_interrupt_unless_speaking r6 a5 Hs5) Hr6)
    as E6.
  specialize (E6 ltac:(rewrite Hc5, Hc; unfold MIN_SPEECH_BUFFERS; lia) Hf5).
  destruct (fired_state a5) as (Hc6 & _).
  set (a6 := set_speechBufferCount 0
               (task startRecording
                  (set_processorRef false (set_isRecordingRef true
                     (set_isRecording true
                        (set_speechBufferCount (S (speechBufferCount a5)) a5))))))
    in *.
  assert (Eloud : observeAll loud a = (Normal (repeat NoEvent 5 ++ [SpeechStart]), a6)).
  { rewrite Hsplit, observeAll_app, E5, observeAll_cons, E6. reflexivity. }
  exists a6.
  exists (match quiet with [] => a6 | _ :: _ => set_speechBufferCount 0 a6 end).
  split; [rewrite E5; reflexivity |].
  split; [exact Eloud |].
  split; [exact Hc6 |].
  split.
  - rewrite observeAll_app, Eloud, (observeAll_quiet _ a6 Hquiet).
    rewrite <- app_assoc. reflexivity.
  - rewrite count_occ_app, count_occ_repeat_NoEvent.
    cbn [count_occ]. destruct (DetectorEvent_eq_dec SpeechStart SpeechStart);
      [| congruence].
    rewrite count_occ_repeat_NoEvent. reflexivity.
Qed.

Lemma six_loud_buffers_one_speech_start_witness :
  exists a6 a',
    observeAll (firstn 5 (repeat (5 / 100)%R 6)) (mounted plainBrowser) =
      (Normal (repeat NoEvent 5),
       snd (observeAll (firstn 5 (repeat (5 / 100)%R 6)) (mounted plainBrowser))) /\
    observeAll (repeat (5 / 100)%R 6) (mounted plainBrowser) =
      (Normal (repeat NoEvent 5 ++ [SpeechStart]), a6) /\
    speechBufferCount a6 = 0 /\
    observeAll (repeat (5 / 100)%R 6 ++ [(1 / 100)%R]) (mounted plainBrowser) =
      (Normal (repeat NoEvent 5 ++ SpeechStart :: repeat NoEvent 1), a') /\
    count_occ DetectorEvent_eq_dec
      (repeat NoEvent 5 ++ SpeechStart :: repeat NoEvent 1) SpeechStart = 1.
Proof.
  apply (six_loud_buffers_one_speech_start
           (repeat (5 / 100)%R 6) [(1 / 100)%R] (mounted plainBrowser)).
  - reflexivity.
  - reflexivity.
  - cbn. discriminate.
  - reflexivity.
  - repeat constructor; unfold SPEECH_THRESHOLD; lra.
  - repeat constructor; unfold SPEECH_THRESHOLD; lra.
Defined.


(* ------------------------------------------------------------------ *)
(** ** hardStopAudio *)




(* ------------------------------------------------------------------ *)
(** ** Energy analysis *)

Lemma fold_left_sum_squares (l : list R) (acc : R) :
  fold_left (fun sum s => sum + s * s)%R l acc =
    (acc + fold_right Rplus 0 (map (fun x => x * x) l))%R.
Proof.
  revert acc. induction l as [| x l IH]; intros acc; cbn.
  - lra.
  - rewrite IH. lra.
Qed.

Lemma rms_meanSquare (l : list R) :
  sqrt (fold_left (fun sum s => sum + s * s)%R l 0%R / INR (List.length l)) =
    sqrt (meanSquare l).
Proof.
  unfold meanSquare. rewrite fold_left_sum_squares, Rplus_0_l. reflexivity.
Qed.

Lemma clamp01_of_nonneg (x : R) : (0 <= x)%R -> Rmin 1 x = clamp01 x.
Proof.
  intros H. unfold clamp01.
  rewrite Rmax_right; [reflexivity |].
  apply Rmin_glb; lra.
Qed.

Lemma clamp01_bounds (x : R) : (0 <= clamp01 x <= 1)%R.
Proof.
  unfold clamp01. split.
  - apply Rmax_l.
  - apply Rmax_lub; [lra | apply Rmin_l].
Qed.

Lemma chunk_then_rest {A : Type} (k s : nat) (l : list A) :
  firstn k (skipn s l) ++ skipn (s + k) l = skipn s l.
Proof.
  rewrite Nat.add_comm, <- skipn_skipn. apply firstn_skipn.
Qed.

Lemma subRanges_concat (l : list R) : List.concat (subRanges l) = l.
Proof.
  unfold subRanges. set (k := List.length l / 8).
  cbn [seq map app List.concat]. rewrite app_nil_r.
  change (0 * k) with 0.
  replace (7 * k) with (6 * k + k) by lia.
  rewrite chunk_then_rest.
  replace (6 * k) with (5 * k + k) by lia. rewrite chunk_then_rest.
  replace (5 * k) with (4 * k + k) by lia. rewrite chunk_then_rest.
  replace (4 * k) with (3 * k + k) by lia. rewrite chunk_then_rest.
  replace (3 * k) with (2 * k + k) by lia. rewrite chunk_then_rest.
  replace (2 * k) with (1 * k + k) by lia. rewrite chunk_then_rest.
  replace (1 * k) with (0 + k) by lia. rewrite chunk_then_rest.
  reflexivity.
Qed.

Lemma eighth_fits (n i : nat) : i < 8 -> i * (n / 8) + n / 8 <= n.
Proof.
  intros Hi. pose proof (Nat.div_mod_eq n 8) as E.
  pose proof (Nat.mod_upper_bound n 8 ltac:(discriminate)). nia.
Qed.

Lemma nth_subRanges (l : list R) (i : nat) :
  i < 8 ->
  nth i (subRanges l) [] =
    slice (i * (List.length l / 8))
          (if i =? 7 then List.length l else (i + 1) * (List.length l / 8)) l.
Proof.
  intros Hi. unfold subRanges, slice. set (k := List.length l / 8).
  assert (Hk : 7 * k + k <= List.length l) by (apply (eighth_fits (List.length l) 7); lia).
  do 7 (destruct i as [| i];
        [cbn [seq map app nth Nat.eqb]; f_equal; lia |]).
  destruct i as [| i]; [| lia].
  cbn [seq map app nth Nat.eqb].
  rewrite firstn_all2; [reflexivity |].
  rewrite length_skipn. lia.
Qed.

Lemma length_subRange (l : list R) (i : nat) :
  i < 7 -> List.length (nth i (subRanges l) []) = List.length l / 8.
Proof.
  intros Hi. unfold subRanges. set (k := List.length l / 8).
  pose proof (eighth_fits (List.length l) i ltac:(lia)) as Hfit. fold k in Hfit.
  do 7 (destruct i as [| i];
        [cbn [seq map app nth]; rewrite length_firstn, length_skipn; lia |]).
  lia.
Qed.

Lemma length_last_subRange (l : list R) :
  List.length (nth 7 (subRanges l) []) =
    List.length l / 8 + List.length l mod 8.
Proof.
  unfold subRanges. cbn [seq map app nth]. rewrite length_skipn.
  pose proof (Nat.div_mod_eq (List.length l) 8). lia.
Qed.

Lemma nth_bands (l : list R) (i : nat) :
  i < 8 ->
  nth i (bands l) 0%R =
    Rmin 1 (sqrt (meanSquare (nth i (subRanges l) [])) * 10).
Proof.
  intros Hi. rewrite (nth_subRanges l i Hi). unfold bands.
  rewrite <- rms_meanSquare.
  do 8 (destruct i as [| i]; [reflexivity |]). lia.
Qed.

(** C8. The energy analysis is a function of the buffer alone, and on
    every buffer of at least 8 samples (the ScriptProcessor delivers
    2048; on fewer than 8 the source divides 0 by 0) it satisfies its
    defining equations: [rms] is the square root of the mean of the
    squared samples of the whole buffer; [bands] has 8 entries; the
    buffer splits into 8 contiguous sub-ranges, seven of [length / 8]
    samples and a last one that also takes the remainder; and each
    entry is the root mean square of its sub-range times 10, clamped to
    [[0,1]]. *)
Theorem energy_analysis_equations (inputData : list R) :
  8 <= List.length inputData ->
  (forall other : list R,
     other = inputData ->
     rms other = rms inputData /\ bands other = bands inputData) /\
  rms inputData = sqrt (meanSquare inputData) /\
  List.length (bands inputData) = 8 /\
  List.length (subRanges inputData) = 8 /\
  List.concat (subRanges inputData) = inputData /\
  (forall i : nat,
     i < 7 ->
     List.length (nth i (subRanges inputData) []) = List.length inputData / 8 /\
     0 < List.length (nth i (subRanges inputData) [])) /\
  List.length (nth 7 (subRanges inputData) []) =
    List.length inputData / 8 + List.length inputData mod 8 /\
  (forall i : nat,
     i < 8 ->
     nth i (bands inputData) 0%R =
       clamp01 (sqrt (meanSquare (nth i (subRanges inputData) [])) * 10) /\
     (0 <= nth i (bands inputData) 0 <= 1)%R).
Proof.
  intros Hlen.
  split; [intros other ->; split; reflexivity |].
  split; [apply rms_meanSquare |].
  split; [reflexivity |].
  split; [reflexivity |].
  split; [apply subRanges_concat |].
  split.
  { intros i Hi. rewrite (length_subRange inputData i Hi). split; [reflexivity |].
    apply Nat.div_str_pos. lia. }
  split; [apply length_last_subRange |].
  intros i Hi. rewrite (nth_bands inputData i Hi).
  rewrite clamp01_of_nonneg.
  - split; [reflexivity | apply clamp01_bounds].
  - apply Rmult_le_pos; [apply sqrt_pos | lra].
Qed.

Lemma energy_analysis_equations_witness :
  rms (repeat (1 / 2)%R 8) = sqrt (meanSquare (repeat (1 / 2)%R 8)) /\
  List.length (bands (repeat (1 / 2)%R 8)) = 8 /\
  List.concat (subRanges (repeat (1 / 2)%R 8)) = repeat (1 / 2)%R 8.
Proof.
  destruct (energy_analysis_equations (repeat (1 / 2)%R 8))
    as (_ & H1 & H2 & _ & H3 & _).
  - cbn. lia.
  - exact (conj H1 (conj H2 H3)).
Defined.

(* ------------------------------------------------------------------ *)
(** ** processAudio and playAudioResponse *)

Lemma startListening_shape (a : App) :
  startListening a =
    (Normal tt,
     if mic_denied (env a)
     then set_calls (call_getUserMedia :: calls a) (set_status waiting a)
     else set_speechBufferCount 0
            (set_processorRef true
               (set_calls (call_getUserMedia :: calls a)
                  (set_status waiting a)))).
Proof.
  destruct a as [b st ld ms ir irr bv cnt ap wc tts pr ch mr rs ts nw inf cs].
  destruct b as [ti tp tk tc tl md].
  destruct md; vm_compute; reflexivity.
Qed.


Lemma not_truthy_empty (s : string) : truthy s = false -> s = EmptyString.
Proof.
  unfold truthy. intros H. apply negb_false_iff in H.
  apply String.eqb_eq in H. exact H.
Qed.

(** [playAudioResponse] returns normally whatever the string is; it
    leaves the log of messages, the flags of the recording and the
    pending requests alone. *)
Lemma playAudioResponse_shape (audioHex : string) (a : App) :
  exists newStatus player log armed count,
    playAudioResponse audioHex a =
      (Normal tt,
       set_status newStatus (set_audioPlayerRef player (set_calls log
         (set_processorRef armed (set_speechBufferCount count
           (set_isTTSStoppedRef false a)))))) /\
    (newStatus = speaking \/ newStatus = waiting).
Proof.
  destruct a as [b st ld ms ir irr bv cnt ap wc tts pr ch mr rs ts nw inf cs].
  destruct b as [ti tp tk tc tl md].
  unfold playAudioResponse, hexToBinary.
  destruct (String_match audioHex) as [chunks |];
    [generalize (map (fun byte => toUint8 (parseInt16 byte)) chunks);
     intros binary |];
    destruct ap as [el |], tp, tk, tc, md;
    vm_compute; do 5 eexists; (split; [reflexivity | auto]).
Qed.

(** The part of [processAudio] that runs once the [fetch] has settled
    returns normally; the log grows by [newMessages r]. *)
Lemma processAudio_settled_shape (r : FetchResult) (a : App) :
  exists newStatus player log armed count stopped,
    processAudio_settled r a =
      (Normal tt,
       set_loading false (set_status newStatus (set_audioPlayerRef player
         (set_calls log (set_processorRef armed (set_speechBufferCount count
           (set_isTTSStoppedRef stopped
             (set_messages (messages a ++ newMessages r) a)))))))) /\
    (newStatus = speaking \/ newStatus = waiting).
Proof.
  destruct a as [b st ld ms ir irr bv cnt ap wc tts pr ch mr rs ts nw inf cs].
  destruct b as [ti tp tk tc tl md].
  destruct r as [| | | [tr resp [audioHex |] fl]].
  1-3: destruct md; vm_compute; do 6 eexists; (split; [reflexivity | auto]).
  - unfold processAudio_settled. cbn [data_audio].
    destruct (truthy audioHex).
    + unfold playAudioResponse, hexToBinary.
      destruct (String_match audioHex) as [chunks |];
        [generalize (map (fun byte => toUint8 (parseInt16 byte)) chunks);
         intros binary |];
        destruct ap as [el |], tp, tk, tc, md;
        vm_compute; do 6 eexists; (split; [reflexivity | auto]).
    + destruct md; vm_compute; do 6 eexists; (split; [reflexivity | auto]).
  - destruct md; vm_compute; do 6 eexists; (split; [reflexivity | auto]).
Qed.



Lemma processAudio_unfold (audioBlob : Blob) (r : FetchResult) (a : App) :
  processAudio audioBlob r a =
    processAudio_settled r
      (set_inflight (inflight a)
         (set_calls (call_fetch audioBlob :: calls a) (set_loading true a))).
Proof. reflexivity. Qed.

(** C9, as the code has it.  Every call of [processAudio] whose [fetch]
    settles returns normally.  On a successful answer the log grows by
    exactly two messages: first a user message whose content is the
    transcription, or the text 'Transcription not available' when the
    transcription is absent or is the empty string, then an assistant
    message whose content is the response text.  On a failed call the
    log grows by exactly the assistant fallback message. *)
Theorem processAudio_log_growth (audioBlob : Blob) (r : FetchResult) (a : App) :
  fst (processAudio audioBlob r a) = Normal tt /\
  match r with
  | fetchOk data =>
      exists u m : Message,
        messages (task (processAudio audioBlob r) a) = messages a ++ [u; m] /\
        role u = user /\
        content u =
          match data_transcription data with
          | Some t =>
              if String.eqb t EmptyString
              then "Transcription not available"%string
              else t
          | None => "Transcription not available"%string
          end /\
        role m = assistant /\
        content m = data_response data
  | _ =>
      messages (task (processAudio audioBlob r) a) =
        messages a ++ [fallbackMessage] /\
      role fallbackMessage = assistant
  end.
Proof.
  unfold task. rewrite processAudio_unfold.
  destruct (processAudio_settled_shape r
              (set_inflight (inflight a)
                 (set_calls (call_fetch audioBlob :: calls a)
                    (set_loading true a))))
    as (ns & p & lg & ar & ct & sp & E & _).
  rewrite E. split; [reflexivity |].
  destruct r as [| | | data]; cbn [snd newMessages]; try (split; reflexivity).
  exists (userMessage data), (assistantMessage data).
  split; [reflexivity |]. split; [reflexivity |].
  split; [| split; reflexivity].
  cbn [userMessage content]. unfold orElse, truthy.
  destruct (data_transcription data) as [t |]; [| reflexivity].
  destruct (String.eqb t EmptyString); reflexivity.
Qed.

(** C9 as stated fails on an empty transcription: the answer returns the
    transcription [""], and the user message does not hold it but the
    placeholder. *)
Lemma empty_transcription_gets_placeholder :
  data_transcription silentAnswer = Some EmptyString /\
  map content
      (messages (task (processAudio [] (fetchOk silentAnswer))
                      (mounted plainBrowser)))
    = ["Transcription not available"%string; "hi there"%string] /\
  "Transcription not available"%string <> EmptyString.
Proof.
  split; [reflexivity |]. split; [vm_compute; reflexivity | discriminate].
Qed.



(** [onstop] from the settled [fetch] on: it returns normally, lowers the
    flag of the recording and leaves the status at [waiting]. *)
Lemma onstop_settled_shape (r : FetchResult) (a : App) :
  exists player log armed count stopped,
    onstop_settled r a =
      (Normal tt,
       set_status waiting (set_isRecordingRef false (set_isRecording false
         (set_loading false (set_audioPlayerRef player (set_calls log
           (set_processorRef armed (set_speechBufferCount count
             (set_isTTSStoppedRef stopped
               (set_messages (messages a ++ newMessages r) a)))))))))) /\
    (mic_denied (env a) = false -> armed = true /\ count = 0).
Proof.
  destruct (processAudio_settled_shape r a) as (ns & p & lg & ar & ct & sp & E & _).
  unfold onstop_settled, bind. rewrite E.
  unfold modify, setStatus, modify. rewrite startListening_shape.
  destruct a as [b st ld ms ir irr bv cnt ap wc tts pr ch mr rs ts nw inf cs].
  cbn [env set_status set_isRecordingRef set_isRecording set_loading
       set_audioPlayerRef set_calls set_processorRef set_speechBufferCount
       set_isTTSStoppedRef set_messages].
  destruct (mic_denied b); do 5 eexists; (split; [app_norm; reflexivity |]);
    intros H; [discriminate H | split; reflexivity].
Qed.

Lemma matchAll_nonempty (s : string) :
  (exists c, In c (list_ascii_of_string s) /\ isLineTerminator c = false) ->
  matchAll s <> [].
Proof.
  induction s as [| c rest IH]; intros (x & Hin & Hx).
  - destruct Hin.
  - cbn [matchAll]. destruct (isLineTerminator c) eqn:Ec.
    + apply IH. exists x. split; [| exact Hx].
      destruct Hin as [-> | Hin]; [congruence | exact Hin].
    + destruct rest as [| d rest']; [discriminate |].
      destruct (isLineTerminator d); discriminate.
Qed.

Lemma toUint8_byte (n : option Z) : (0 <= toUint8 n < 256)%Z.
Proof.
  destruct n as [z |]; cbn [toUint8]; [apply Z.mod_pos_bound |]; lia.
Qed.

Lemma malformedHex_truthy (s : string) : malformedHex s = true -> truthy s = true.
Proof. destruct s; [discriminate | reflexivity]. Qed.

Lemma hexToBinary_lenient (s : string) (a : App) :
  matchAll s <> [] ->
  hexToBinary s a =
    (Normal (map (fun byte => toUint8 (parseInt16 byte)) (matchAll s)),
     set_calls (call_match s :: calls a) a).
Proof.
  intros H. unfold hexToBinary, called, modify, bind, String_match, ret.
  destruct (matchAll s); [contradiction | reflexivity].
Qed.

(** Where there is an audio element and the string has a match, the
    decoded bytes are handed to the element and played. *)
Lemma onstop_settled_plays (data : ChatResponse) (s : string) (a : App) :
  data_audio data = Some s ->
  truthy s = true ->
  matchAll s <> [] ->
  isSome (audioPlayerRef a) = true ->
  In (call_play (map (fun byte => toUint8 (parseInt16 byte)) (matchAll s)))
     (calls (task (onstop_settled (fetchOk data)) a)).
Proof.
  intros Hd Ht Hm Hp.
  destruct data as [tr resp au fl]. cbn [data_audio] in Hd. subst au.
  destruct a as [b st ld ms ir irr bv cnt ap wc tts pr ch mr rs ts nw inf cs].
  destruct b as [ti tp tk tc tl md].
  destruct ap as [el |]; [| discriminate Hp].
  unfold onstop_settled, processAudio_settled. cbn [data_audio]. rewrite Ht.
  unfold playAudioResponse, hexToBinary, String_match.
  destruct (matchAll s) as [| chunk chunks]; [contradiction |].
  generalize (map (fun byte => toUint8 (parseInt16 byte)) (chunk :: chunks)).
  intros binary.
  destruct tp, tk, tc, md; vm_compute; tauto.
Qed.

(** C2, as the code has it.  For every string in the [audio] field that
    has odd length or a character that is no hex digit: the string is
    non-empty and goes to the decoder; unless all its characters are line
    terminators the decoder does not fail but yields one byte for each
    match of up to two characters ([parseInt] of the match, 0 where that
    is no number); [onstop] returns normally once the answer is there;
    the log grows by the user and the assistant message of the answer,
    neither of which is the fallback message; where there is an audio
    element the decoded bytes are played; and the component ends with the
    status [waiting], the flag of the recording down and, the microphone
    granted, the audio callback attached again. *)
Theorem malformed_audio_is_decoded_leniently
  (data : ChatResponse) (audioHex : string) (a : App) :
  data_audio data = Some audioHex ->
  malformedHex audioHex = true ->
  truthy audioHex = true /\
  ((exists c, In c (list_ascii_of_string audioHex)
              /\ isLineTerminator c = false) ->
   (forall a0 : App,
      fst (hexToBinary audioHex a0) =
        Normal (map (fun byte => toUint8 (parseInt16 byte)) (matchAll audioHex))) /\
   Forall (fun byte => (0 <= byte < 256)%Z)
          (map (fun byte => toUint8 (parseInt16 byte)) (matchAll audioHex)) /\
   (isSome (audioPlayerRef a) = true ->
    In (call_play (map (fun byte => toUint8 (parseInt16 byte))
                       (matchAll audioHex)))
       (calls (task (onstop_settled (fetchOk data)) a)))) /\
  fst (onstop_settled (fetchOk data) a) = Normal tt /\
  messages (task (onstop_settled (fetchOk data)) a) =
    messages a ++ [userMessage data; assistantMessage data] /\
  ~ In fallbackMessage [userMessage data; assistantMessage data] /\
  status (task (onstop_settled (fetchOk data)) a) = waiting /\
  isRecordingRef (task (onstop_settled (fetchOk data)) a) = false /\
  (mic_denied (env a) = false ->
   processorRef (task (onstop_settled (fetchOk data)) a) = true).
Proof.
  intros Hd Hm.
  pose proof (malformedHex_truthy _ Hm) as Ht.
  split; [exact Ht |].
  split.
  { intros Hc. pose proof (matchAll_nonempty _ Hc) as Hne.
    split; [intros a0; rewrite (hexToBinary_lenient _ a0 Hne); reflexivity |].
    split.
    - apply Forall_forall. intros z Hz. apply in_map_iff in Hz.
      destruct Hz as (chunk & <- & _). apply toUint8_byte.
    - intros Hp. exact (onstop_settled_plays data audioHex a Hd Ht Hne Hp). }
  destruct (onstop_settled_shape (fetchOk data) a)
    as (p & lg & ar & ct & sp & E & Harm).
  unfold task. rewrite E. cbn [fst snd newMessages].
  split; [reflexivity |]. split; [reflexivity |].
  split.
  { intros [H | [H | []]].
    - discriminate H.
    - apply (f_equal audio) in H. cbn in H. congruence. }
  split; [reflexivity |]. split; [reflexivity |].
  intros Hg. destruct (Harm Hg) as [-> _]. reflexivity.
Qed.

Lemma malformed_audio_is_decoded_leniently_witness :
  truthy "abc" = true /\
  fst (onstop_settled (fetchOk oddAudioAnswer) awaitingAnswer) = Normal tt /\
  messages (task (onstop_settled (fetchOk oddAudioAnswer)) awaitingAnswer) =
    messages awaitingAnswer
      ++ [userMessage oddAudioAnswer; assistantMessage oddAudioAnswer] /\
  status (task (onstop_settled (fetchOk oddAudioAnswer)) awaitingAnswer)
    = waiting.
Proof.
  destruct (malformed_audio_is_decoded_leniently
              oddAudioAnswer "abc" awaitingAnswer)
    as (H1 & _ & H2 & H3 & _ & H4 & _).
  - reflexivity.
  - reflexivity.
  - exact (conj H1 (conj H2 (conj H3 H4))).
Defined.

(** C2 as stated fails on the odd-length string "abc": the decoder
    yields the bytes 0xab and 0x0c instead of failing, and when the
    pending answer arrives the log holds the two messages of the answer
    and no fallback message, with the bytes handed to the player. *)
Lemma odd_length_audio_is_played :
  Nat.odd (String.length "abc") = true /\
  fst (hexToBinary "abc" awaitingAnswer) = Normal [171; 12]%Z /\
  messages (dispatch (FetchSettled (fetchOk oddAudioAnswer)) awaitingAnswer) =
    [userMessage oddAudioAnswer; assistantMessage oddAudioAnswer] /\
  ~ In fallbackMessage
       (messages (dispatch (FetchSettled (fetchOk oddAudioAnswer)) awaitingAnswer)) /\
  In (call_play [171; 12]%Z)
     (calls (dispatch (FetchSettled (fetchOk oddAudioAnswer)) awaitingAnswer)).
Proof.
  assert (E : messages (dispatch (FetchSettled (fetchOk oddAudioAnswer)) awaitingAnswer)
              = [userMessage oddAudioAnswer; assistantMessage oddAudioAnswer])
    by (vm_compute; reflexivity).
  split; [reflexivity |]. split; [vm_compute; reflexivity |].
  split; [exact E |]. split.
  - rewrite E. intros [H | [H | []]]; discriminate H.
  - vm_compute. tauto.
Qed.

(** A well-formed hex string decodes to its bytes. *)
Lemma hexToBinary_RIFF (a : App) :
  fst (hexToBinary "52494646" a) = Normal [82; 73; 70; 70]%Z.
Proof. reflexivity. Qed.

(* ------------------------------------------------------------------ *)
(** ** The event loop and the flag of the recording *)

Lemma recordingCount_app (rs1 rs2 : list MediaRecorder) :
  recordingCount (rs1 ++ rs2) = recordingCount rs1 + recordingCount rs2.
Proof. unfold recordingCount. rewrite filter_app, length_app. reflexivity. Qed.

Lemma recordingCount_capture (chunk : Blob) (rs : list MediaRecorder) :
  recordingCount (map (capture chunk) rs) = recordingCount rs.
Proof.
  unfold recordingCount. induction rs as [| [[] data] rs IH]; cbn in *;
    [reflexivity | exact IH | rewrite IH; reflexivity].
Qed.

Lemma recordingCount_stop (rs : list MediaRecorder) :
  forall (id : nat) (data : Blob),
    nth_error rs id = Some (mkRecorder recording data) ->
    S (recordingCount (updateNth id (fun _ => mkRecorder inactive []) rs))
      = recordingCount rs.
Proof.
  unfold recordingCount.
  induction rs as [| r rs IH]; intros [| id] data H; cbn in H; try discriminate.
  - injection H as ->. reflexivity.
  - cbn. destruct (isRecordingNow r); cbn; rewrite <- (IH id data H); reflexivity.
Qed.

(** The timer callback: it stops a recorder that is recording, which
    posts what was gathered, and does nothing otherwise. *)
Lemma recordingTimeout_shape (id : nat) (a : App) :
  (exists data,
     nth_error (recorders a) id = Some (mkRecorder recording data) /\
     recordingTimeout id a =
       (Normal tt,
        set_inflight (S (inflight a))
          (set_calls (call_fetch (List.concat (audioChunksRef a ++ [data]))
                        :: call_stop id :: calls a)
             (set_loading true (set_status processing
                (set_audioChunksRef (audioChunksRef a ++ [data])
                   (set_recorders
                      (updateNth id (fun _ => mkRecorder inactive [])
                                 (recorders a)) a))))))) \/
  ((forall data, nth_error (recorders a) id <> Some (mkRecorder recording data)) /\
   recordingTimeout id a = (Normal tt, a)).
Proof.
  destruct a as [b st ld ms ir irr bv cnt ap wc tts pr ch mr rs ts nw inf cs].
  unfold recordingTimeout, mediaRecorder_stop, onstop, processAudio_request,
    setStatus, called, gets, modify, bind, ret.
  cbn [recorders set_calls calls].
  destruct (nth_error rs id) as [[[] data] |] eqn:E.
  - right. split; [intros d H; discriminate H | reflexivity].
  - left. exists data. split; [reflexivity |].
    cbn [recorders set_calls calls]. rewrite E. reflexivity.
  - right. split; [intros d H; discriminate H | reflexivity].
Qed.

Lemma recordingTimeout_exclusive (id : nat) (a : App) :
  exclusive a -> exclusive (task (recordingTimeout id) a).
Proof.
  intros (Hs & Hn & Hp). unfold task.
  destruct (recordingTimeout_shape id a) as [(data & Hrec & E) | (_ & E)];
    rewrite E; cbn [snd]; [| split; [assumption | split; assumption]].
  pose proof (recordingCount_stop _ _ _ Hrec) as Hcount.
  unfold exclusive, sessions in *.
  destruct a as [b st ld ms ir irr bv cnt ap wc tts pr ch mr rs ts nw inf cs].
  cbn [status isRecordingRef inflight recorders set_inflight set_calls
       set_loading set_status set_audioChunksRef set_recorders] in *.
  destruct irr; [| lia].
  split; [discriminate | split; [lia | reflexivity]].
Qed.

Lemma timers_exclusive (due : list (N * nat)) (a : App) :
  exclusive a ->
  exclusive (fold_left (fun acc timer => task (recordingTimeout (snd timer)) acc)
                       due a).
Proof.
  revert a. induction due as [| t due IH]; intros a H; cbn [fold_left].
  - exact H.
  - apply IH, recordingTimeout_exclusive, H.
Qed.

Lemma observe_exclusive (r : R) (a : App) :
  exclusive a -> exclusive (snd (observe r a)).
Proof.
  intros (Hs & Hn & Hp).
  pose proof (no_interrupt_unless_speaking r a Hs) as Hni.
  destruct (gtb_cases r SPEECH_THRESHOLD) as [[_ Hr] | [_ Hr]].
  - destruct ((MIN_SPEECH_BUFFERS <=? S (speechBufferCount a))
              && negb (isRecordingRef a)) eqn:Hc.
    + apply andb_true_iff in Hc. destruct Hc as [Hc Hf].
      apply Nat.leb_le in Hc. apply negb_true_iff in Hf.
      rewrite (observe_loud_fires r a Hni Hr Hc Hf). cbn [snd].
      destruct (fired_state a) as (_ & Hf' & Hs' & _ & Hi' & He' & Hr').
      unfold exclusive, sessions in *. rewrite Hf', Hs', Hi', Hr'.
      rewrite Hf in Hn. rewrite recordingCount_app.
      split; [discriminate | split].
      * destruct (mic_denied (env a)); cbn; lia.
      * intros H; discriminate H.
    + rewrite (observe_loud_counts r a Hni Hr Hc). cbn [snd].
      unfold exclusive, sessions in *.
      destruct a as [b st ld ms ir irr bv cnt ap wc tts pr ch mr rs ts nw inf cs].
      cbn [status] in *. destruct (quietStatus st) eqn:Hq; cbn in *.
      * split; [discriminate | split; [exact Hn | intros H; discriminate H]].
      * split; [assumption | split; assumption].
  - rewrite (observe_quiet r a Hr). cbn [snd].
    destruct a as [b st ld ms ir irr bv cnt ap wc tts pr ch mr rs ts nw inf cs].
    exact (conj Hs (conj Hn Hp)).
Qed.

Lemma playbackOver_shape (a : App) :
  playbackOver a = startListening (set_status waiting a).
Proof. reflexivity. Qed.

Lemma playbackOver_exclusive (a : App) :
  exclusive a -> exclusive (task playbackOver a).
Proof.
  intros (Hs & Hn & Hp). unfold task.
  rewrite playbackOver_shape, startListening_shape. cbn [snd].
  unfold exclusive, sessions in *.
  destruct a as [b st ld ms ir irr bv cnt ap wc tts pr ch mr rs ts nw inf cs].
  cbn [env set_status] in *.
  destruct (mic_denied b); cbn in *;
    (split; [discriminate | split; [exact Hn | intros H; discriminate H]]).
Qed.

Lemma dispatch_exclusive (e : Event) (a : App) :
  exclusive a -> exclusive (dispatch e a).
Proof.
  intros H. destruct e as [inputData | chunk | ms | r | | |]; cbn [dispatch].
  - destruct (processorRef a); [| exact H].
    unfold task, onaudioprocess, bind, modify.
    apply observe_exclusive.
    destruct a as [b st ld ms ir irr bv cnt ap wc tts pr ch mr rs ts nw inf cs].
    exact H.
  - destruct H as (Hs & Hn & Hp). unfold exclusive, sessions in *.
    destruct a as [b st ld ms ir irr bv cnt ap wc tts pr ch mr rs ts nw inf cs].
    cbn [status isRecordingRef inflight recorders set_recorders] in *.
    rewrite recordingCount_capture.
    split; [assumption | split; assumption].
  - unfold elapse. apply timers_exclusive.
    destruct a as [b st ld ms' ir irr bv cnt ap wc tts pr ch mr rs ts nw inf cs].
    exact H.
  - destruct (inflight a) as [| n] eqn:Hin; [exact H |].
    unfold task.
    destruct (onstop_settled_shape r (set_inflight n a))
      as (p & lg & ar & ct & sp & E & _).
    rewrite E. cbn [snd].
    destruct H as (Hs & Hn & Hp). unfold exclusive, sessions in *.
    destruct a as [b st ld ms ir irr bv cnt ap wc tts pr ch mr rs ts nw inf cs].
    cbn in *. subst inf.
    split; [discriminate | split; [| intros H; discriminate H]].
    destruct irr; lia.
  - destruct (audioPlayerRef a) as [[? ? ? [cb |] ? ?] |];
      [apply playbackOver_exclusive| |]; exact H.
  - destruct (audioPlayerRef a) as [[? ? ? ? [cb |] ?] |];
      [apply playbackOver_exclusive| |]; exact H.
  - apply playbackOver_exclusive, H.
Qed.

Lemma mounted_exclusive (b : Browser) : exclusive (mounted b).
Proof.
  destruct b as [ti tp tk tc tl md].
  destruct md; unfold exclusive, sessions;
    (split; [intros H; vm_compute in H; discriminate H |]);
    (split; [vm_compute; constructor |]);
    intros H; vm_compute in H; discriminate H.
Qed.

Lemma run_exclusive (events : list Event) :
  forall a : App, exclusive a -> exclusive (run events a).
Proof.
  induction events as [| e events IH]; intros a H; cbn [run fold_left].
  - exact H.
  - apply IH, dispatch_exclusive, H.
Qed.

(** Under the flag, and with a status other than [speaking], the
    callback gives no event: it only moves the counter and the status
    shown. *)
Lemma observe_under_flag (r : R) (a : App) :
  status a <> speaking ->
  isRecordingRef a = true ->
  exists shown count,
    observe r a = (Normal NoEvent, set_status shown (set_speechBufferCount count a)).
Proof.
  intros Hs Hf.
  pose proof (no_interrupt_unless_speaking r a Hs) as Hni.
  destruct (gtb_cases r SPEECH_THRESHOLD) as [[_ Hr] | [_ Hr]].
  - rewrite (observe_loud_counts r a Hni Hr)
      by (rewrite Hf; apply andb_false_r).
    destruct (quietStatus (status a)).
    + exists listening, (S (speechBufferCount a)). reflexivity.
    + exists (status a), (S (speechBufferCount a)).
      destruct a as [b st ld ms ir irr bv cnt ap wc tts pr ch mr rs ts nw inf cs].
      reflexivity.
  - rewrite (observe_quiet r a Hr). exists (status a), 0.
    destruct a as [b st ld ms ir irr bv cnt ap wc tts pr ch mr rs ts nw inf cs].
    reflexivity.
Qed.

Lemma recordingTimeout_keeps_flag (id : nat) (a : App) :
  isRecordingRef (task (recordingTimeout id) a) = isRecordingRef a.
Proof.
  unfold task.
  destruct (recordingTimeout_shape id a) as [(data & _ & E) | (_ & E)];
    rewrite E; reflexivity.
Qed.

Lemma timers_keep_flag (due : list (N * nat)) (a : App) :
  isRecordingRef
    (fold_left (fun acc timer => task (recordingTimeout (snd timer)) acc) due a)
  = isRecordingRef a.
Proof.
  revert a. induction due as [| t due IH]; intros a; cbn [fold_left].
  - reflexivity.
  - rewrite IH. apply recordingTimeout_keeps_flag.
Qed.

Lemma playbackOver_keeps_flag (a : App) :
  isRecordingRef (task playbackOver a) = isRecordingRef a.
Proof.
  unfold task. rewrite playbackOver_shape, startListening_shape. cbn [snd].
  destruct a as [b st ld ms ir irr bv cnt ap wc tts pr ch mr rs ts nw inf cs].
  cbn [env set_status]. destruct (mic_denied b); reflexivity.
Qed.

(** C6. In every state the mounted component reaches through events:
    the flag of the recording is up whenever a recording is under way or
    a request is pending, and whenever the status is [processing]; under
    the flag an audio buffer gives no [SpeechStart], whatever its
    energy, and starts no recorder and no timer; and an event lowers the
    flag only if it is the settling of the pending request, after which
    the status is [waiting] and no recording or request is left. *)
Theorem flag_blocks_speech_start_while_processing
  (b : Browser) (events : list Event) :
  let a := run events (mounted b) in
  (0 < sessions a -> isRecordingRef a = true) /\
  (status a = processing -> isRecordingRef a = true) /\
  (isRecordingRef a = true ->
   forall inputData : list R,
     fst (onaudioprocess inputData a) = Normal NoEvent /\
     recorders (dispatch (AudioProcess inputData) a) = recorders a /\
     timers (dispatch (AudioProcess inputData) a) = timers a /\
     inflight (dispatch (AudioProcess inputData) a) = inflight a /\
     isRecordingRef (dispatch (AudioProcess inputData) a) = true) /\
  (forall e : Event,
     isRecordingRef a = true ->
     isRecordingRef (dispatch e a) = false ->
     (exists r, e = FetchSettled r) /\
     0 < inflight a /\
     status (dispatch e a) = waiting /\
     sessions (dispatch e a) = 0).
Proof.
  cbv zeta.
  pose proof (run_exclusive events _ (mounted_exclusive b)) as Hex.
  set (a := run events (mounted b)) in *.
  assert (Hframe : isRecordingRef a = true ->
            forall inputData : list R,
              fst (onaudioprocess inputData a) = Normal NoEvent /\
              recorders (dispatch (AudioProcess inputData) a) = recorders a /\
              timers (dispatch (AudioProcess inputData) a) = timers a /\
              inflight (dispatch (AudioProcess inputData) a) = inflight a /\
              isRecordingRef (dispatch (AudioProcess inputData) a) = true).
  { intros Hf inputData. destruct Hex as (Hs & _ & _).
    cbn [dispatch]. unfold task, onaudioprocess, bind, modify.
    destruct (observe_under_flag (rms inputData)
                (set_barVolumes (bands inputData) a))
      as (shown & count & E).
    { destruct a; exact Hs. }
    { destruct a; exact Hf. }
    rewrite E. split; [reflexivity |].
    destruct (processorRef a); [| repeat split; (reflexivity || exact Hf)].
    destruct a as [b' st ld ms ir irr bv cnt ap wc tts pr ch mr rs ts nw inf cs].
    repeat split; (reflexivity || exact Hf). }
  split.
  { destruct Hex as (_ & Hn & _). destruct (isRecordingRef a); [reflexivity | lia]. }
  split; [apply Hex |].
  split; [exact Hframe |].
  intros e Hf Hlow.
  destruct e as [inputData | chunk | ms | r | | |].
  - destruct (Hframe Hf inputData) as (_ & _ & _ & _ & H). congruence.
  - cbn [dispatch] in Hlow. destruct a; cbn in Hlow, Hf. congruence.
  - cbn [dispatch] in Hlow. unfold elapse in Hlow.
    rewrite timers_keep_flag in Hlow. destruct a; cbn in Hlow, Hf. congruence.
  - pose proof (dispatch_exclusive (FetchSettled r) a Hex) as Hex'.
    cbn [dispatch] in *.
    destruct (inflight a) as [| n] eqn:Hin; [congruence |].
    split; [exists r; reflexivity |]. split; [lia |].
    split.
    + unfold task.
      destruct (onstop_settled_shape r (set_inflight n a))
        as (p & lg & ar & ct & sp & E & _).
      rewrite E. reflexivity.
    + destruct Hex' as (_ & Hn & _). rewrite Hlow in Hn. lia.
  - cbn [dispatch] in Hlow.
    destruct (audioPlayerRef a) as [[? ? ? [cb |] ? ?] |];
      try rewrite playbackOver_keeps_flag in Hlow; congruence.
  - cbn [dispatch] in Hlow.
    destruct (audioPlayerRef a) as [[? ? ? ? [cb |] ?] |];
      try rewrite playbackOver_keeps_flag in Hlow; congruence.
  - cbn [dispatch] in Hlow. rewrite playbackOver_keeps_flag in Hlow. congruence.
Qed.

(* ------------------------------------------------------------------ *)
(** ** A recording session and its ceiling *)

Lemma elapsed_app (es1 es2 : list Event) :
  elapsed (es1 ++ es2) = (elapsed es1 + elapsed es2)%N.
Proof.
  induction es1 as [| [] es1 IH]; cbn; rewrite ?IH; lia.
Qed.

Lemma capturedIn_app (es1 es2 : list Event) :
  capturedIn (es1 ++ es2) = capturedIn es1 ++ capturedIn es2.
Proof.
  induction es1 as [| [] es1 IH]; cbn; rewrite ?IH, ?app_assoc; reflexivity.
Qed.

Lemma run_app (es1 es2 : list Event) (a : App) :
  run (es1 ++ es2) a = run es2 (run es1 a).
Proof. apply fold_left_app. Qed.

Lemma map_capture_inactive (chunk : Blob) (rs : list MediaRecorder) :
  Forall (fun r => state r = inactive) rs -> map (capture chunk) rs = rs.
Proof.
  induction 1 as [| r rs Hr _ IH]; cbn; [reflexivity |].
  rewrite IH. unfold capture. rewrite Hr. reflexivity.
Qed.

(** Timers of recorders that are not recording run without effect. *)
Lemma idle_timers_do_nothing (due : list (N * nat)) (a : App) :
  Forall (fun timer =>
            forall data,
              nth_error (recorders a) (snd timer)
                <> Some (mkRecorder recording data)) due ->
  fold_left (fun acc timer => task (recordingTimeout (snd timer)) acc) due a = a.
Proof.
  induction 1 as [| t due Ht _ IH]; cbn [fold_left]; [reflexivity |].
  unfold task at 2.
  destruct (recordingTimeout_shape (snd t) a) as [(data & Hrec & _) | (_ & E)].
  - destruct (Ht data Hrec).
  - rewrite E. exact IH.
Qed.

Lemma older_recorders_idle (rs : list MediaRecorder) (x : MediaRecorder)
  (timersOf : list (N * nat)) :
  Forall (fun r => state r = inactive) rs ->
  Forall (fun timer => snd timer < List.length rs) timersOf ->
  Forall (fun timer =>
            forall data,
              nth_error (rs ++ [x]) (snd timer)
                <> Some (mkRecorder recording data)) timersOf.
Proof.
  intros Hidle Hold. apply Forall_forall. intros t Ht data Hnth.
  rewrite Forall_forall in Hold. specialize (Hold t Ht).
  rewrite nth_error_app1 in Hnth by exact Hold.
  apply nth_error_In in Hnth. rewrite Forall_forall in Hidle.
  specialize (Hidle _ Hnth). discriminate Hidle.
Qed.

Lemma filter_due_app (t : N) (older : list (N * nat)) (timer : N * nat) :
  filter (isDue t) (older ++ [timer]) =
    filter (isDue t) older ++ (if isDue t timer then [timer] else []).
Proof. rewrite filter_app. reflexivity. Qed.

Lemma filter_later_app (t : N) (older : list (N * nat)) (timer : N * nat) :
  filter (fun x => negb (isDue t x)) (older ++ [timer]) =
    filter (fun x => negb (isDue t x)) older
      ++ (if isDue t timer then [] else [timer]).
Proof.
  rewrite filter_app. cbn [filter]. destruct (isDue t timer); reflexivity.
Qed.

Lemma Forall_filter_of {A : Type} (P : A -> Prop) (f : A -> bool) (l : list A) :
  Forall P l -> Forall P (filter f l).
Proof.
  intros H. apply Forall_forall. intros x Hx. apply filter_In in Hx.
  rewrite Forall_forall in H. apply H, Hx.
Qed.

Lemma nth_error_at_end {A : Type} (l : list A) (x : A) :
  nth_error (l ++ [x]) (List.length l) = Some x.
Proof.
  rewrite nth_error_app2 by lia. rewrite Nat.sub_diag. reflexivity.
Qed.

(** Where the microphone is granted, [startRecording] leaves a session
    that has just begun. *)
Lemma startRecording_begins_session (a : App) :
  mic_denied (env a) = false ->
  let a0 := task startRecording a in
  a0 = sessionState a0 (List.length (recorders a)) (now a) 0 (timers a) [] /\
  recorders a0 = recorders a ++ [mkRecorder recording []] /\
  audioChunksRef a0 = [] /\ inflight a0 = inflight a /\ now a0 = now a.
Proof.
  intros Hmic. cbv zeta. unfold task.
  destruct (startRecording_shape a) as (p & lg & E & _). rewrite E. clear E.
  unfold withNewRecorder. rewrite Hmic. unfold sessionState.
  destruct a as [b st ld ms ir irr bv cnt ap wc tts pr ch mr rs ts nw inf cs].
  cbn [snd recorders timers now set_audioPlayerRef set_calls set_timers
       set_mediaRecorderRef set_recorders set_audioChunksRef set_isRecordingRef
       set_isRecording set_status set_processorRef set_now audioChunksRef
       inflight].
  rewrite firstn_app, firstn_all, Nat.sub_diag, N.add_0_r. cbn [firstn].
  rewrite app_nil_r. repeat split; reflexivity.
Qed.

Lemma sessionState_fields (a0 : App) (id : nat) (t0 passed : N)
  (older : list (N * nat)) (data : Blob) :
  let s := sessionState a0 id t0 passed older data in
  recorders s = firstn id (recorders a0) ++ [mkRecorder recording data] /\
  timers s = older ++ [((t0 + MAX_UTTERANCE_MS)%N, id)] /\
  now s = (t0 + passed)%N /\
  inflight s = inflight a0 /\ calls s = calls a0 /\
  audioChunksRef s = audioChunksRef a0.
Proof. destruct a0. repeat split; reflexivity. Qed.

(** One event of the session, short of the ceiling, leaves a session. *)
Lemma session_step (a0 : App) (id : nat) (t0 passed : N)
  (older : list (N * nat)) (data : Blob) (e : Event) :
  List.length (firstn id (recorders a0)) = id ->
  Forall (fun r => state r = inactive) (firstn id (recorders a0)) ->
  Forall (fun timer => snd timer < id) older ->
  isSessionEvent e = true ->
  (passed + elapsed [e] < MAX_UTTERANCE_MS)%N ->
  exists older',
    Forall (fun timer => snd timer < id) older' /\
    dispatch e (sessionState a0 id t0 passed older data) =
      sessionState a0 id t0 (passed + elapsed [e]) older'
        (data ++ capturedIn [e]).
Proof.
  intros Hlen Hidle Hold He Hshort.
  destruct e as [inputData | chunk | ms | r | | |]; try discriminate He;
    cbn [elapsed capturedIn] in *.
  - exists older. split; [exact Hold |].
    cbn [dispatch]. unfold sessionState.
    destruct a0 as [b st ld mg ir irr bv cnt ap wc tts pr ch mr rs ts nw inf cs].
    cbn [recorders set_now set_timers set_recorders] in *.
    rewrite map_app, (map_capture_inactive chunk _ Hidle).
    cbn [map capture state gathered].
    rewrite N.add_0_r, app_nil_r. reflexivity.
  - exists (filter (fun x => negb (isDue (t0 + passed + ms)%N x)) older).
    split; [apply Forall_filter_of, Hold |].
    cbn [dispatch]. unfold elapse.
    destruct (sessionState_fields a0 id t0 passed older data)
      as (Hrs & Hts & Hnow & _).
    cbv zeta in Hrs, Hts, Hnow. rewrite Hts, Hnow.
    rewrite filter_due_app, filter_later_app.
    assert (Hnot : isDue (t0 + passed + ms)%N ((t0 + MAX_UTTERANCE_MS)%N, id) = false).
    { unfold isDue. cbn [fst]. apply N.leb_gt. lia. }
    rewrite Hnot, app_nil_r.
    rewrite idle_timers_do_nothing.
    + unfold sessionState.
      destruct a0 as [b st ld mg ir irr bv cnt ap wc tts pr ch mr rs ts nw inf cs].
      cbn [set_now set_timers set_recorders]. rewrite N.add_0_r, app_nil_r.
      rewrite N.add_assoc. reflexivity.
    + apply Forall_filter_of.
      assert (Hrs' : recorders
                (set_timers
                   (filter (fun x => negb (isDue (t0 + passed + ms)%N x)) older
                      ++ [((t0 + MAX_UTTERANCE_MS)%N, id)])
                   (set_now (t0 + passed + ms)%N
                      (sessionState a0 id t0 passed older data)))
              = firstn id (recorders a0) ++ [mkRecorder recording data]).
      { rewrite <- Hrs. destruct a0; reflexivity. }
      rewrite Hrs'. apply older_recorders_idle; [exact Hidle |].
      rewrite Hlen. exact Hold.
Qed.

(** A session short of the ceiling is still a session: the recorder has
    gathered what arrived and its timer is pending. *)
Lemma session_runs (a0 : App) (id : nat) (t0 : N) (older0 : list (N * nat))
  (events : list Event) :
  List.length (firstn id (recorders a0)) = id ->
  Forall (fun r => state r = inactive) (firstn id (recorders a0)) ->
  Forall (fun timer => snd timer < id) older0 ->
  Forall (fun e => isSessionEvent e = true) events ->
  (elapsed events < MAX_UTTERANCE_MS)%N ->
  exists older,
    Forall (fun timer => snd timer < id) older /\
    run events (sessionState a0 id t0 0 older0 []) =
      sessionState a0 id t0 (elapsed events) older (capturedIn events).
Proof.
  intros Hlen Hidle Hold.
  induction events as [| e events IH] using rev_ind; intros Hev Hshort.
  - exists older0. split; [exact Hold | reflexivity].
  - apply Forall_app in Hev. destruct Hev as [Hev He].
    inversion He as [| ? ? He1 _]; subst.
    rewrite elapsed_app in Hshort.
    destruct (IH Hev ltac:(lia)) as (older & Holder & E).
    rewrite run_app, E. cbn [run fold_left].
    destruct (session_step a0 id t0 (elapsed events) older (capturedIn events) e
                Hlen Hidle Holder He1 Hshort) as (older' & Holder' & E').
    exists older'. split; [exact Holder' |].
    rewrite E', elapsed_app, capturedIn_app. reflexivity.
Qed.

(** The step of the clock that reaches the ceiling stops the recorder
    and posts what it gathered. *)
Lemma session_hits_ceiling (a0 : App) (id : nat) (t0 passed ms : N)
  (older : list (N * nat)) (data : Blob) :
  List.length (firstn id (recorders a0)) = id ->
  Forall (fun r => state r = inactive) (firstn id (recorders a0)) ->
  Forall (fun timer => snd timer < id) older ->
  (MAX_UTTERANCE_MS <= passed + ms)%N ->
  let s := sessionState a0 id t0 passed older data in
  let s1 := set_timers (filter (fun x => negb (isDue (t0 + passed + ms)%N x)) older)
              (set_now (t0 + passed + ms)%N s) in
  dispatch (Elapse ms) s = task (mediaRecorder_stop id) s1 /\
  task (mediaRecorder_stop id) s1 =
    set_inflight (S (inflight a0))
      (set_calls (call_fetch (List.concat (audioChunksRef a0 ++ [data]))
                    :: call_stop id :: calls a0)
         (set_loading true (set_status processing
            (set_audioChunksRef (audioChunksRef a0 ++ [data])
               (set_recorders
                  (firstn id (recorders a0) ++ [mkRecorder inactive []]) s1))))).
Proof.
  intros Hlen Hidle Hold Hreach. cbv zeta.
  destruct (sessionState_fields a0 id t0 passed older data)
    as (Hrs & Hts & Hnow & Hinf & Hcalls & Hchunks).
  cbv zeta in Hrs, Hts, Hnow, Hinf, Hcalls, Hchunks.
  set (s := sessionState a0 id t0 passed older data) in *.
  set (s1 := set_timers (filter (fun x => negb (isDue (t0 + passed + ms)%N x)) older)
               (set_now (t0 + passed + ms)%N s)).
  assert (Hrs1 : recorders s1 = firstn id (recorders a0) ++ [mkRecorder recording data])
    by (rewrite <- Hrs; destruct s; reflexivity).
  assert (Hnth : nth_error (recorders s1) id = Some (mkRecorder recording data)).
  { rewrite Hrs1. rewrite <- Hlen at 2. apply nth_error_at_end. }
  assert (Hstop : recordingTimeout id s1 = mediaRecorder_stop id s1).
  { unfold recordingTimeout, gets, bind. rewrite Hnth. reflexivity. }
  split.
  - cbn [dispatch]. unfold elapse. rewrite Hts, Hnow.
    rewrite filter_due_app, filter_later_app.
    assert (Hdue : isDue (t0 + passed + ms)%N ((t0 + MAX_UTTERANCE_MS)%N, id) = true).
    { unfold isDue. cbn [fst]. apply N.leb_le. lia. }
    rewrite Hdue, app_nil_r, fold_left_app. fold s1.
    rewrite (idle_timers_do_nothing (filter (isDue (t0 + passed + ms)%N) older) s1).
    + cbn [fold_left snd]. unfold task at 1. rewrite Hstop. reflexivity.
    + apply Forall_filter_of. rewrite Hrs1.
      apply older_recorders_idle; [exact Hidle |].
      rewrite Hlen. exact Hold.
  - unfold task. rewrite <- Hstop.
    destruct (recordingTimeout_shape id s1) as [(data' & Hrec & E) | (Hno & _)].
    + rewrite Hnth in Hrec. injection Hrec as <-.
      rewrite E. cbn [snd]. rewrite Hrs1.
      pose proof (updateNth_at_end (fun _ => mkRecorder inactive [])
                    (firstn id (recorders a0)) (mkRecorder recording data)) as Hu.
      rewrite Hlen in Hu. rewrite Hu.
      assert (Hi : inflight s1 = inflight a0) by (rewrite <- Hinf; destruct s; reflexivity).
      assert (Hc : calls s1 = calls a0) by (rewrite <- Hcalls; destruct s; reflexivity).
      assert (Hk : audioChunksRef s1 = audioChunksRef a0)
        by (rewrite <- Hchunks; destruct s; reflexivity).
      rewrite Hi, Hc, Hk. reflexivity.
    + destruct (Hno data Hnth).
Qed.

(** C7. Take a component whose recorders are all idle and whose
    pending timers belong to them, with the microphone granted, and let
    it start a recording.  While audio arrives and time passes, short of
    5000 ms and with no stop, the recorder keeps recording and gathers
    the audio, its timer pending.  The step of the clock that reaches
    5000 ms stops it by itself: the state is the one [mediaRecorder.stop()]
    gives at that moment, the recorder is inactive, the gathered audio
    has been posted with [fetch] (a non-empty blob when audio arrived),
    one more request is pending and the status is [processing]. *)
Theorem recording_stops_at_ceiling (a : App) (events : list Event) (ms : N) :
  mic_denied (env a) = false ->
  Forall (fun r => state r = inactive) (recorders a) ->
  Forall (fun timer => snd timer < List.length (recorders a)) (timers a) ->
  Forall (fun e => isSessionEvent e = true) events ->
  (elapsed events < MAX_UTTERANCE_MS)%N ->
  (MAX_UTTERANCE_MS <= elapsed events + ms)%N ->
  let id := List.length (recorders a) in
  let during := run events (task startRecording a) in
  let after := dispatch (Elapse ms) during in
  MAX_UTTERANCE_MS = 5000%N /\
  nth_error (recorders during) id
    = Some (mkRecorder recording (capturedIn events)) /\
  In ((now a + MAX_UTTERANCE_MS)%N, id) (timers during) /\
  inflight during = inflight a /\
  after = task (mediaRecorder_stop id)
               (set_timers (timers after) (set_now (now after) during)) /\
  nth_error (recorders after) id = Some (mkRecorder inactive []) /\
  calls after = call_fetch (capturedIn events) :: call_stop id :: calls during /\
  inflight after = S (inflight a) /\
  status after = processing /\
  (capturedIn events <> [] ->
   exists audioBlob, In (call_fetch audioBlob) (calls after) /\ audioBlob <> []).
Proof.
  intros Hmic Hidle Hold Hev Hshort Hreach. cbv zeta.
  destruct (startRecording_begins_session a Hmic) as (E0 & Hrs0 & Hch0 & Hin0 & _).
  cbv zeta in E0, Hrs0, Hch0, Hin0.
  set (a0 := task startRecording a) in *.
  set (id := List.length (recorders a)) in *.
  assert (Hfirst : firstn id (recorders a0) = recorders a).
  { rewrite Hrs0. unfold id. rewrite firstn_app, firstn_all, Nat.sub_diag.
    cbn [firstn]. apply app_nil_r. }
  assert (Hlen : List.length (firstn id (recorders a0)) = id)
    by (rewrite Hfirst; reflexivity).
  assert (Hidle' : Forall (fun r => state r = inactive) (firstn id (recorders a0)))
    by (rewrite Hfirst; exact Hidle).
  destruct (session_runs a0 id (now a) (timers a) events Hlen Hidle' Hold Hev Hshort)
    as (older & Holder & Erun).
  assert (Hduring : run events a0 =
            sessionState a0 id (now a) (elapsed events) older (capturedIn events)).
  { rewrite <- Erun. f_equal. exact E0. }
  rewrite Hduring.
  destruct (session_hits_ceiling a0 id (now a) (elapsed events) ms older
              (capturedIn events) Hlen Hidle' Holder Hreach) as (Estop & Eafter).
  cbv zeta in Estop, Eafter.
  destruct (sessionState_fields a0 id (now a) (elapsed events) older
              (capturedIn events)) as (Hrs & Hts & Hnow & Hinf & Hcalls & _).
  cbv zeta in Hrs, Hts, Hnow, Hinf, Hcalls.
  set (s := sessionState a0 id (now a) (elapsed events) older (capturedIn events))
    in *.
  set (later := filter (fun x => negb (isDue (now a + elapsed events + ms)%N x)) older)
    in *.
  assert (Htimers : timers (dispatch (Elapse ms) s) = later)
    by (rewrite Estop, Eafter; destruct s; reflexivity).
  assert (Hclock : now (dispatch (Elapse ms) s) = (now a + elapsed events + ms)%N)
    by (rewrite Estop, Eafter; destruct s; reflexivity).
  assert (Hblob : List.concat (audioChunksRef a0 ++ [capturedIn events])
                  = capturedIn events).
  { rewrite Hch0. cbn. apply app_nil_r. }
  assert (Hcallsafter : calls (dispatch (Elapse ms) s) =
            call_fetch (capturedIn events) :: call_stop id :: calls s).
  { rewrite Estop, Eafter, Hblob, Hcalls. destruct s; reflexivity. }
  split; [reflexivity |].
  split.
  { rewrite Hrs.
    pose proof (nth_error_at_end (firstn id (recorders a0))
                  (mkRecorder recording (capturedIn events))) as Hn.
    rewrite Hlen in Hn. exact Hn. }
  split; [rewrite Hts; apply in_or_app; right; left; reflexivity |].
  split; [rewrite Hinf; exact Hin0 |].
  split; [rewrite Htimers, Hclock; exact Estop |].
  split.
  { rewrite Estop, Eafter.
    transitivity (nth_error (firstn id (recorders a0) ++ [mkRecorder inactive []]) id);
      [destruct s; reflexivity |].
    pose proof (nth_error_at_end (firstn id (recorders a0))
                  (mkRecorder inactive [])) as Hn.
    rewrite Hlen in Hn. exact Hn. }
  split; [exact Hcallsafter |].
  split; [rewrite Estop, Eafter, <- Hin0; destruct s; reflexivity |].
  split; [rewrite Estop, Eafter; destruct s; reflexivity |].
  intros Hne. exists (capturedIn events).
  split; [rewrite Hcallsafter; left; reflexivity | exact Hne].
Qed.

Lemma recording_stops_at_ceiling_witness :
  nth_error
    (recorders (run [Captured [82; 73]%Z; Elapse 46%N; Captured [70]%Z]
                    (task startRecording (mounted plainBrowser)))) 0
    = Some (mkRecorder recording [82; 73; 70]%Z) /\
  calls (dispatch (Elapse 4954%N)
           (run [Captured [82; 73]%Z; Elapse 46%N; Captured [70]%Z]
                (task startRecording (mounted plainBrowser)))) =
    call_fetch [82; 73; 70]%Z :: call_stop 0
      :: calls (run [Captured [82; 73]%Z; Elapse 46%N; Captured [70]%Z]
                    (task startRecording (mounted plainBrowser))) /\
  status (dispatch (Elapse 4954%N)
            (run [Captured [82; 73]%Z; Elapse 46%N; Captured [70]%Z]
                 (task startRecording (mounted plainBrowser)))) = processing.
Proof.
  destruct (recording_stops_at_ceiling (mounted plainBrowser)
              [Captured [82; 73]%Z; Elapse 46%N; Captured [70]%Z] 4954%N)
    as (_ & H1 & _ & _ & _ & _ & H2 & _ & H3 & _).
  - reflexivity.
  - constructor.
  - constructor.
  - repeat constructor.
  - vm_compute. reflexivity.
  - vm_compute. discriminate.
  - exact (conj H1 (conj H2 H3)).
Defined.

(* ------------------------------------------------------------------ *)
(** ** States the mounted component reaches *)

Lemma length_updateNth {A : Type} (f : A -> A) (l : list A) :
  forall n, List.length (updateNth n f l) = List.length l.
Proof.
  induction l as [| x l IH]; intros [| n]; cbn; try reflexivity.
  rewrite IH. reflexivity.
Qed.

Lemma fired_state_timers (a : App) :
  let a' :=
    set_speechBufferCount 0
      (task startRecording
         (set_processorRef false (set_isRecordingRef true
            (set_isRecording true
               (set_speechBufferCount (S (speechBufferCount a)) a))))) in
  timers a' =
    timers a ++ (if mic_denied (env a) then []
                 else [((now a + MAX_UTTERANCE_MS)%N, List.length (recorders a))]).
Proof.
  cbv zeta. unfold task.
  match goal with
  | |- context [startRecording ?x] =>
      destruct (startRecording_shape x) as (p & c & E & _); rewrite E
  end.
  unfold withNewRecorder.
  destruct a as [b st ld ms ir irr bv cnt ap wc tts pr ch mr rs ts nw inf cs].
  cbn [env set_processorRef set_isRecordingRef set_isRecording
       set_speechBufferCount recorders now timers].
  destruct (mic_denied b); app_norm; cbn [snd]; rewrite ?app_nil_r; reflexivity.
Qed.

Lemma observe_timersKnown (r : R) (a : App) :
  status a <> speaking -> timersKnown a -> timersKnown (snd (observe r a)).
Proof.
  intros Hs Hk.
  pose proof (no_interrupt_unless_speaking r a Hs) as Hni.
  destruct (gtb_cases r SPEECH_THRESHOLD) as [[_ Hr] | [_ Hr]].
  - destruct ((MIN_SPEECH_BUFFERS <=? S (speechBufferCount a))
              && negb (isRecordingRef a)) eqn:Hc.
    + apply andb_true_iff in Hc. destruct Hc as [Hc Hf].
      apply Nat.leb_le in Hc. apply negb_true_iff in Hf.
      rewrite (observe_loud_fires r a Hni Hr Hc Hf). cbn [snd].
      destruct (fired_state a) as (_ & _ & _ & _ & _ & _ & Hrs).
      pose proof (fired_state_timers a) as Hts. cbv zeta in Hts.
      unfold timersKnown in *. rewrite Hrs, Hts, length_app.
      apply Forall_app. split.
      * apply (Forall_impl _ (fun t (H : snd t < _) => Nat.lt_lt_add_r _ _ _ H) Hk).
      * destruct (mic_denied (env a)); repeat constructor. cbn. lia.
    + rewrite (observe_loud_counts r a Hni Hr Hc). cbn [snd].
      destruct a as [b st ld ms ir irr bv cnt ap wc tts pr ch mr rs ts nw inf cs].
      cbn [status]. destruct (quietStatus st); exact Hk.
  - rewrite (observe_quiet r a Hr). cbn [snd].
    destruct a as [b st ld ms ir irr bv cnt ap wc tts pr ch mr rs ts nw inf cs].
    exact Hk.
Qed.

Lemma recordingTimeout_timersKnown (id : nat) (a : App) :
  timersKnown a -> timersKnown (task (recordingTimeout id) a).
Proof.
  intros Hk. unfold task.
  destruct (recordingTimeout_shape id a) as [(data & _ & E) | (_ & E)];
    rewrite E; cbn [snd]; [| exact Hk].
  unfold timersKnown in *.
  destruct a as [b st ld ms ir irr bv cnt ap wc tts pr ch mr rs ts nw inf cs].
  cbn [timers recorders set_inflight set_calls set_loading set_status
       set_audioChunksRef set_recorders] in *.
  rewrite length_updateNth. exact Hk.
Qed.

Lemma timers_timersKnown (due : list (N * nat)) (a : App) :
  timersKnown a ->
  timersKnown
    (fold_left (fun acc timer => task (recordingTimeout (snd timer)) acc) due a).
Proof.
  revert a. induction due as [| t due IH]; intros a H; cbn [fold_left].
  - exact H.
  - apply IH, recordingTimeout_timersKnown, H.
Qed.

Lemma playbackOver_timersKnown (a : App) :
  timersKnown a -> timersKnown (task playbackOver a).
Proof.
  intros Hk. unfold task.
  rewrite playbackOver_shape, startListening_shape. cbn [snd].
  destruct a as [b st ld ms ir irr bv cnt ap wc tts pr ch mr rs ts nw inf cs].
  cbn [env set_status]. destruct (mic_denied b); exact Hk.
Qed.

Lemma dispatch_timersKnown (e : Event) (a : App) :
  exclusive a -> timersKnown a -> timersKnown (dispatch e a).
Proof.
  intros Hex Hk. destruct e as [inputData | chunk | ms | r | | |]; cbn [dispatch].
  - destruct (processorRef a); [| exact Hk].
    unfold task, onaudioprocess, bind, modify.
    apply observe_timersKnown.
    + destruct Hex as (Hs & _). destruct a; exact Hs.
    + destruct a; exact Hk.
  - unfold timersKnown in *.
    destruct a as [b st ld ms ir irr bv cnt ap wc tts pr ch mr rs ts nw inf cs].
    cbn [timers recorders set_recorders] in *. rewrite length_map. exact Hk.
  - unfold elapse. apply timers_timersKnown. unfold timersKnown in *.
    destruct a as [b st ld ms' ir irr bv cnt ap wc tts pr ch mr rs ts nw inf cs].
    cbn [timers recorders set_timers set_now] in *.
    apply Forall_filter_of, Hk.
  - destruct (inflight a) as [| n]; [exact Hk |].
    unfold task.
    destruct (onstop_settled_shape r (set_inflight n a))
      as (p & lg & ar & ct & sp & E & _).
    rewrite E. cbn [snd].
    destruct a as [b st ld ms ir irr bv cnt ap wc tts pr ch mr rs ts nw inf cs].
    exact Hk.
  - destruct (audioPlayerRef a) as [[? ? ? [cb |] ? ?] |];
      [apply playbackOver_timersKnown| |]; exact Hk.
  - destruct (audioPlayerRef a) as [[? ? ? ? [cb |] ?] |];
      [apply playbackOver_timersKnown| |]; exact Hk.
  - apply playbackOver_timersKnown, Hk.
Qed.

Lemma run_reachable (events : list Event) :
  forall a : App,
    exclusive a -> timersKnown a ->
    exclusive (run events a) /\ timersKnown (run events a).
Proof.
  induction events as [| e events IH]; intros a Hex Hk; cbn [run fold_left].
  - split; assumption.
  - apply IH; [apply dispatch_exclusive | apply dispatch_timersKnown]; assumption.
Qed.

Lemma recordingCount_zero_idle (rs : list MediaRecorder) :
  recordingCount rs = 0 -> Forall (fun r => state r = inactive) rs.
Proof.
  unfold recordingCount.
  induction rs as [| [[] data] rs IH]; cbn; intros H.
  - constructor.
  - constructor; [reflexivity | exact (IH H)].
  - discriminate H.
Qed.

(** Whenever the mounted component has its flag down, its recorders are
    idle and its timers belong to them: a completed run of loud buffers
    starts its recording in a state of the kind the ceiling of a
    recording session is stated for. *)
Lemma flag_down_means_idle (b : Browser) (events : list Event) :
  isRecordingRef (run events (mounted b)) = false ->
  Forall (fun r => state r = inactive) (recorders (run events (mounted b))) /\
  Forall (fun timer => snd timer
                       < List.length (recorders (run events (mounted b))))
         (timers (run events (mounted b))).
Proof.
  intros Hf.
  assert (Hk0 : timersKnown (mounted b)).
  { destruct b as [ti tp tk tc tl md]. destruct md; vm_compute; constructor. }
  destruct (run_reachable events _ (mounted_exclusive b) Hk0)
    as ((_ & Hn & _) & Hk).
  split; [| exact Hk].
  apply recordingCount_zero_idle. unfold sessions in Hn. rewrite Hf in Hn. lia.
Qed.

(* ------------------------------------------------------------------ *)
(** ** From the mount to a pending request *)

Lemma sum_squares_repeat (x : R) (n : nat) :
  fold_right Rplus 0%R (map (fun y => y * y)%R (repeat x n)) = (INR n * (x * x))%R.
Proof.
  induction n as [| n IH].
  - cbn. lra.
  - cbn [repeat map fold_right]. rewrite IH, S_INR. lra.
Qed.

(** The energy of a constant buffer is its amplitude. *)
Lemma rms_repeat (x : R) (n : nat) :
  (0 <= x)%R -> 0 < n -> rms (repeat x n) = x.
Proof.
  intros Hx Hn. unfold rms.
  rewrite fold_left_sum_squares, Rplus_0_l, sum_squares_repeat, repeat_length.
  replace (INR n * (x * x) / INR n)%R with (x * x)%R.
  - apply sqrt_square, Hx.
  - field. apply not_0_INR. lia.
Qed.

Lemma loudBuffer_is_loud : (rms loudBuffer > INTERRUPT_THRESHOLD)%R.
Proof.
  unfold loudBuffer. rewrite rms_repeat; [| lra | lia].
  unfold INTERRUPT_THRESHOLD. lra.
Qed.

Lemma dispatch_audio (f : list R) (a : App) :
  processorRef a = true ->
  dispatch (AudioProcess f) a =
    snd (observe (rms f) (set_barVolumes (bands f) a)).
Proof. intros H. cbn [dispatch]. rewrite H. reflexivity. Qed.

Lemma counted_fields (f : list R) (k : nat) (a : App) :
  processorRef (counted f k a) = processorRef a /\
  isRecordingRef (counted f k a) = isRecordingRef a /\
  speechBufferCount (counted f k a) = k /\
  quietStatus (status (counted f k a)) = false /\
  (status a <> speaking -> status (counted f k a) <> speaking) /\
  set_barVolumes (bands f) (counted f k a) = counted f k a.
Proof.
  unfold counted.
  destruct a as [b st ld ms ir irr bv cnt ap wc tts pr ch mr rs ts nw inf cs].
  cbn [status]. destruct (quietStatus st) eqn:Hq; cbn; rewrite ?Hq;
    repeat split; try reflexivity; try discriminate; auto.
Qed.

Lemma counted_again (f : list R) (j k : nat) (a : App) :
  set_speechBufferCount k (counted f j a) = counted f k a.
Proof.
  unfold counted.
  destruct a as [b st ld ms ir irr bv cnt ap wc tts pr ch mr rs ts nw inf cs].
  cbn [status]. destruct (quietStatus st); reflexivity.
Qed.

(** Loud buffers short of a full run, as events. *)
Lemma loud_buffers_count (f : list R) (a : App) (n : nat) :
  processorRef a = true ->
  status a <> speaking ->
  isRecordingRef a = false ->
  (rms f > SPEECH_THRESHOLD)%R ->
  S n < MIN_SPEECH_BUFFERS ->
  run (repeat (AudioProcess f) (S n)) (set_speechBufferCount 0 a)
    = counted f (S n) a.
Proof.
  intros Hp Hs Hf Hr. induction n as [| n IH]; intros Hn.
  - cbn [repeat run fold_left]. rewrite dispatch_audio by (destruct a; exact Hp).
    rewrite observe_loud_counts.
    + unfold counted.
      destruct a as [b st ld ms ir irr bv cnt ap wc tts pr ch mr rs ts nw inf cs].
      cbn [snd status set_barVolumes set_speechBufferCount speechBufferCount].
      destruct (quietStatus st); reflexivity.
    + apply no_interrupt_unless_speaking. destruct a; exact Hs.
    + exact Hr.
    + reflexivity.
  - change (repeat (AudioProcess f) (S (S n)))
      with (AudioProcess f :: repeat (AudioProcess f) (S n)).
    rewrite repeat_cons, run_app, IH by lia.
    cbn [run fold_left].
    destruct (counted_fields f (S n) a) as (Hp' & Hf' & Hc' & Hq' & Hs' & Hb').
    rewrite dispatch_audio by (rewrite Hp'; exact Hp).
    rewrite Hb', observe_loud_counts.
    + cbn [snd]. rewrite Hq', Hc'. apply counted_again.
    + apply no_interrupt_unless_speaking, Hs', Hs.
    + exact Hr.
    + rewrite Hc'. apply andb_false_iff. left. apply Nat.leb_gt. lia.
Qed.

(** Six loud buffers after the mount start a recording. *)
Lemma six_loud_buffers_start_recording (f : list R) (a : App) :
  processorRef a = true ->
  status a <> speaking ->
  isRecordingRef a = false ->
  (rms f > SPEECH_THRESHOLD)%R ->
  run (repeat (AudioProcess f) 6) (set_speechBufferCount 0 a) =
    set_speechBufferCount 0
      (task startRecording
         (set_processorRef false (set_isRecordingRef true
            (set_isRecording true (counted f 6 a))))).
Proof.
  intros Hp Hs Hf Hr.
  change (repeat (AudioProcess f) 6)
    with (AudioProcess f :: repeat (AudioProcess f) 5).
  rewrite repeat_cons, run_app.
  rewrite (loud_buffers_count f a 4 Hp Hs Hf Hr)
    by (unfold MIN_SPEECH_BUFFERS; lia).
  cbn [run fold_left].
  destruct (counted_fields f 5 a) as (Hp' & Hf' & Hc' & Hq' & Hs' & Hb').
  rewrite dispatch_audio by (rewrite Hp'; exact Hp).
  rewrite Hb', observe_loud_fires.
  - cbn [snd]. rewrite Hc', counted_again. reflexivity.
  - apply no_interrupt_unless_speaking, Hs', Hs.
  - exact Hr.
  - rewrite Hc'. unfold MIN_SPEECH_BUFFERS. lia.
  - rewrite Hf'. exact Hf.
Qed.

(** The mounted component, six loud buffers, some audio and five
    seconds: the request is pending under the flag, with the status
    [processing].  Such states do occur. *)
Lemma processing_is_reached :
  let a := run (repeat (AudioProcess loudBuffer) 6
                  ++ [Captured [82; 73]%Z; Elapse 5000%N])
               (mounted plainBrowser) in
  status a = processing /\ isRecordingRef a = true /\ inflight a = 1 /\
  processorRef a = false /\
  calls a = [call_fetch [82; 73]%Z; call_stop 0; call_start 0;
             call_getUserMedia; call_load; call_clearSrc; call_seek;
             call_pause; call_getUserMedia].
Proof.
  cbv zeta. rewrite run_app.
  assert (E6 : run (repeat (AudioProcess loudBuffer) 6) (mounted plainBrowser) =
            set_speechBufferCount 0
              (task startRecording
                 (set_processorRef false (set_isRecordingRef true
                    (set_isRecording true
                       (counted loudBuffer 6 (mounted plainBrowser))))))).
  { assert (E0 : mounted plainBrowser
                 = set_speechBufferCount 0 (mounted plainBrowser))
      by (vm_compute; reflexivity).
    rewrite E0 at 1.
    apply six_loud_buffers_start_recording.
    - reflexivity.
    - cbn. discriminate.
    - reflexivity.
    - pose proof loudBuffer_is_loud. pose proof thresholds_ordered. lra. }
  rewrite E6. unfold counted. generalize (bands loudBuffer). intros bv.
  vm_compute. repeat split; reflexivity.
Qed.

(** While the answer plays the status is back at [waiting], so a buffer
    above the interrupt threshold does not take the interrupt branch: it
    counts as the first buffer of a run and the player goes on. *)
Lemma loud_buffer_while_answer_plays :
  status answerPlaying = waiting /\
  option_map paused (audioPlayerRef answerPlaying) = Some false /\
  observe (4 / 100)%R answerPlaying =
    (Normal NoEvent,
     set_status listening (set_speechBufferCount 1 answerPlaying)).
Proof.
  assert (Hs : status answerPlaying = waiting) by (vm_compute; reflexivity).
  split; [exact Hs |]. split; [vm_compute; reflexivity |].
  rewrite observe_loud_counts.
  - rewrite Hs. cbn [quietStatus Status_eqb negb andb].
    assert (Hc : speechBufferCount answerPlaying = 0) by (vm_compute; reflexivity).
    rewrite Hc. reflexivity.
  - rewrite Hs. reflexivity.
  - unfold SPEECH_THRESHOLD. lra.
  - assert (Hc : speechBufferCount answerPlaying = 0) by (vm_compute; reflexivity).
    rewrite Hc. reflexivity.
Qed.

(* ================================================================== *)
(** * Further properties *)

(* ------------------------------------------------------------------ *)
(** ** The hex decoder *)

(** Induction on a string two characters at a time. *)
Lemma string_pair_ind (P : string -> Prop) :
  P EmptyString ->
  (forall c, P (String c EmptyString)) ->
  (forall c d s, P s -> P (String d s) -> P (String c (String d s))) ->
  forall s, P s.
Proof.
  intros H0 H1 H2.
  assert (H : forall s, P s /\ forall c, P (String c s)).
  { induction s as [| d s [IHs IHc]].
    - split; [exact H0 | exact H1].
    - split; [apply IHc |]. intros c. apply H2; [exact IHs | apply IHc]. }
  intros s. apply H.
Qed.

Lemma concat_cons_empty (x : string) (l : list string) :
  String.concat EmptyString (x :: l)
    = String.append x (String.concat EmptyString l).
Proof.
  destruct l as [| y l]; cbn [String.concat].
  - induction x as [| c x IH]; cbn; [reflexivity | f_equal; exact IH].
  - reflexivity.
Qed.

Lemma withoutLineTerminators_cons (c : ascii) (s : string) :
  withoutLineTerminators (String c s) =
    if isLineTerminator c then withoutLineTerminators s
    else String c (withoutLineTerminators s).
Proof.
  unfold withoutLineTerminators. cbn [list_ascii_of_string filter].
  destruct (isLineTerminator c); reflexivity.
Qed.

Lemma matchAll_concat (s : string) :
  String.concat EmptyString (matchAll s) = withoutLineTerminators s.
Proof.
  induction s as [| c | c d s IHs IHd] using string_pair_ind.
  - reflexivity.
  - cbn [matchAll]. rewrite withoutLineTerminators_cons.
    destruct (isLineTerminator c); reflexivity.
  - rewrite withoutLineTerminators_cons.
    change (matchAll (String c (String d s)))
      with (if isLineTerminator c then matchAll (String d s)
            else if isLineTerminator d
                 then String c EmptyString :: matchAll s
                 else String c (String d EmptyString) :: matchAll s).
    destruct (isLineTerminator c) eqn:Ec; [exact IHd |].
    rewrite withoutLineTerminators_cons.
    destruct (isLineTerminator d) eqn:Ed;
      rewrite concat_cons_empty, IHs; reflexivity.
Qed.

Lemma matchAll_chunks (s : string) :
  Forall (fun chunk =>
            (String.length chunk = 1 \/ String.length chunk = 2) /\
            forallb (fun c => negb (isLineTerminator c))
                    (list_ascii_of_string chunk) = true)
         (matchAll s).
Proof.
  induction s as [| c | c d s IHs IHd] using string_pair_ind.
  - constructor.
  - cbn [matchAll]. destruct (isLineTerminator c) eqn:Ec; repeat constructor.
    cbn. rewrite Ec. reflexivity.
  - change (matchAll (String c (String d s)))
      with (if isLineTerminator c then matchAll (String d s)
            else if isLineTerminator d
                 then String c EmptyString :: matchAll s
                 else String c (String d EmptyString) :: matchAll s).
    destruct (isLineTerminator c) eqn:Ec; [exact IHd |].
    destruct (isLineTerminator d) eqn:Ed; constructor; try exact IHs;
      (split; [auto | cbn; rewrite Ec, ?Ed; reflexivity]).
Qed.

Lemma matchAll_pairs (s : string) :
  forallb (fun c => negb (isLineTerminator c)) (list_ascii_of_string s) = true ->
  List.length (matchAll s) = Nat.div2 (S (String.length s)) /\
  forall i, S i < List.length (matchAll s) ->
            String.length (nth i (matchAll s) EmptyString) = 2.
Proof.
  induction s as [| c | c d s IHs _] using string_pair_ind; intros H.
  - split; [reflexivity | intros i Hi; cbn in Hi; lia].
  - cbn in H. rewrite andb_true_r in H. apply negb_true_iff in H.
    cbn [matchAll]. rewrite H. split; [reflexivity | intros i Hi; cbn in Hi; lia].
  - cbn [list_ascii_of_string forallb] in H.
    apply andb_true_iff in H. destruct H as [Hc H].
    apply andb_true_iff in H. destruct H as [Hd H].
    apply negb_true_iff in Hc, Hd.
    change (matchAll (String c (String d s)))
      with (if isLineTerminator c then matchAll (String d s)
            else if isLineTerminator d
                 then String c EmptyString :: matchAll s
                 else String c (String d EmptyString) :: matchAll s).
    rewrite Hc, Hd. destruct (IHs H) as [Hlen Hnth].
    split.
    + cbn [List.length String.length]. rewrite Hlen. reflexivity.
    + intros [| i] Hi; [reflexivity |].
      cbn [nth]. apply Hnth. cbn [List.length] in Hi. lia.
Qed.

(** X1. The matches of [/.{1,2}/g] are pieces of one or two characters,
    none a line terminator, and put together they are the string without
    its line terminators.  On a string of [n] characters without line
    terminators there are [(n + 1) / 2] pieces, all of two characters but
    possibly the last; the decoder then returns as many bytes, each
    between 0 and 255, and fails only on the empty string. *)
Theorem matchAll_partitions (s : string) :
  String.concat EmptyString (matchAll s) = withoutLineTerminators s /\
  Forall (fun chunk =>
            (String.length chunk = 1 \/ String.length chunk = 2) /\
            forallb (fun c => negb (isLineTerminator c))
                    (list_ascii_of_string chunk) = true)
         (matchAll s) /\
  Forall (fun byte => (0 <= byte < 256)%Z) (decoded s) /\
  (forallb (fun c => negb (isLineTerminator c)) (list_ascii_of_string s) = true ->
   List.length (decoded s) = Nat.div2 (S (String.length s)) /\
   (forall i, S i < List.length (matchAll s) ->
              String.length (nth i (matchAll s) EmptyString) = 2) /\
   (s <> EmptyString ->
    forall a : App, fst (hexToBinary s a) = Normal (decoded s))).
Proof.
  split; [apply matchAll_concat |].
  split; [apply matchAll_chunks |].
  split.
  { unfold decoded. apply Forall_forall. intros z Hz. apply in_map_iff in Hz.
    destruct Hz as (chunk & <- & _). apply toUint8_byte. }
  intros Hno. destruct (matchAll_pairs s Hno) as [Hlen Hnth].
  split; [unfold decoded; rewrite length_map; exact Hlen |].
  split; [exact Hnth |].
  intros Hne a.
  assert (Hsome : matchAll s <> []).
  { intros Hnil. rewrite Hnil in Hlen. destruct s as [| c s]; [congruence |].
    cbn in Hlen. destruct (String.length s); discriminate Hlen. }
  rewrite (hexToBinary_lenient s a Hsome). reflexivity.
Qed.

Lemma matchAll_partitions_witness :
  List.length (decoded "abc") = 2 /\
  fst (hexToBinary "abc" (mounted plainBrowser)) = Normal (decoded "abc").
Proof.
  destruct (matchAll_partitions "abc") as (_ & _ & _ & H).
  destruct H as (H1 & _ & H2); [reflexivity |].
  split; [exact H1 | apply H2; discriminate].
Defined.

Lemma hexDigit_range (c : ascii) (h : Z) :
  hexDigit c = Some h ->
  (0 <= h < 16)%Z /\
  ((codeOf c =? 120) || (codeOf c =? 88))%Z = false.
Proof.
  unfold hexDigit. intros H.
  destruct ((48 <=? codeOf c) && (codeOf c <=? 57))%Z eqn:E1.
  { injection H as <-. apply andb_true_iff in E1. destruct E1 as [A B].
    apply Z.leb_le in A, B. split; [lia |].
    apply orb_false_iff. split; apply Z.eqb_neq; lia. }
  destruct ((65 <=? codeOf c) && (codeOf c <=? 70))%Z eqn:E2.
  { injection H as <-. apply andb_true_iff in E2. destruct E2 as [A B].
    apply Z.leb_le in A, B. split; [lia |].
    apply orb_false_iff. split; apply Z.eqb_neq; lia. }
  destruct ((97 <=? codeOf c) && (codeOf c <=? 102))%Z eqn:E3; [| discriminate H].
  injection H as <-. apply andb_true_iff in E3. destruct E3 as [A B].
  apply Z.leb_le in A, B. split; [lia |].
  apply orb_false_iff. split; apply Z.eqb_neq; lia.
Qed.

(** [parseInt] of two hex digits is their value in base 16. *)
Lemma parseInt16_pair (c d : ascii) (h l : Z) :
  hexDigit c = Some h -> hexDigit d = Some l ->
  parseInt16 (String c (String d EmptyString)) = Some (16 * h + l)%Z.
Proof.
  intros Hc Hd. destruct (hexDigit_range d l Hd) as [_ Hx].
  destruct c as [[] [] [] [] [] [] [] []];
    try (vm_compute in Hc; discriminate Hc);
    (vm_compute in Hc; injection Hc as <-);
    unfold parseInt16; cbn [trimStart];
    match goal with
    | |- context [isWhiteSpace ?x] =>
        let v := eval vm_compute in (isWhiteSpace x) in
        change (isWhiteSpace x) with v
    end;
    cbv beta iota; rewrite ?Hx; cbv beta iota; cbn [digits];
    match goal with
    | |- context [hexDigit (Ascii ?b1 ?b2 ?b3 ?b4 ?b5 ?b6 ?b7 ?b8)] =>
        let v := eval vm_compute in (hexDigit (Ascii b1 b2 b3 b4 b5 b6 b7 b8)) in
        change (hexDigit (Ascii b1 b2 b3 b4 b5 b6 b7 b8)) with v
    end;
    cbv beta iota; rewrite Hd; cbn [option_map]; f_equal; lia.
Qed.
Lemma hexDigit_not_lineTerminator (c : ascii) (h : Z) :
  hexDigit c = Some h -> isLineTerminator c = false.
Proof.
  intros H. unfold hexDigit in H. unfold isLineTerminator.
  apply orb_false_iff.
  destruct ((48 <=? codeOf c) && (codeOf c <=? 57))%Z eqn:E1.
  { apply andb_true_iff in E1. destruct E1 as [A B]. apply Z.leb_le in A, B.
    split; apply Z.eqb_neq; lia. }
  destruct ((65 <=? codeOf c) && (codeOf c <=? 70))%Z eqn:E2.
  { apply andb_true_iff in E2. destruct E2 as [A B]. apply Z.leb_le in A, B.
    split; apply Z.eqb_neq; lia. }
  destruct ((97 <=? codeOf c) && (codeOf c <=? 102))%Z eqn:E3; [| discriminate H].
  apply andb_true_iff in E3. destruct E3 as [A B]. apply Z.leb_le in A, B.
  split; apply Z.eqb_neq; lia.
Qed.

(** Two hex digits in front of a string decode to one byte. *)
Lemma decoded_pair (c d : ascii) (h l : Z) (s : string) :
  hexDigit c = Some h -> hexDigit d = Some l ->
  decoded (String c (String d s)) = (16 * h + l)%Z :: decoded s.
Proof.
  intros Hc Hd. unfold decoded.
  change (matchAll (String c (String d s)))
    with (if isLineTerminator c then matchAll (String d s)
          else if isLineTerminator d
               then String c EmptyString :: matchAll s
               else String c (String d EmptyString) :: matchAll s).
  rewrite (hexDigit_not_lineTerminator c h Hc),
    (hexDigit_not_lineTerminator d l Hd).
  cbn [map]. rewrite (parseInt16_pair c d h l Hc Hd). cbn [toUint8].
  destruct (hexDigit_range c h Hc) as [Hh _].
  destruct (hexDigit_range d l Hd) as [Hl _].
  rewrite Z.mod_small by lia. reflexivity.
Qed.

(** X2. On a well-formed hex string, an even number of hex digits, the
    decoder returns one byte for each pair of digits, the first digit of
    the pair counting sixteen times, and does not fail unless the string
    is empty. *)
Theorem wellFormed_hex_decodes (s : string) :
  wellFormedHex s = true ->
  List.length (decoded s) = String.length s / 2 /\
  (forall i c1 c2,
     String.get (2 * i) s = Some c1 ->
     String.get (2 * i + 1) s = Some c2 ->
     exists h l,
       hexDigit c1 = Some h /\ hexDigit c2 = Some l /\
       nth i (decoded s) 0%Z = (16 * h + l)%Z) /\
  (s <> EmptyString ->
   forall a : App, fst (hexToBinary s a) = Normal (decoded s)).
Proof.
  induction s as [| c | c d s IHs _] using string_pair_ind; intros Hwf.
  - split; [reflexivity |]. split; [| congruence].
    intros i c1 c2 H. destruct (2 * i); discriminate H.
  - discriminate Hwf.
  - unfold wellFormedHex in Hwf. cbn [String.length Nat.even] in Hwf.
    cbn [list_ascii_of_string forallb] in Hwf.
    apply andb_true_iff in Hwf. destruct Hwf as [Hev Hall].
    apply andb_true_iff in Hall. destruct Hall as [Hc Hall].
    apply andb_true_iff in Hall. destruct Hall as [Hd Hall].
    unfold isHexDigit in Hc, Hd.
    destruct (hexDigit c) as [h |] eqn:Ec; [| discriminate Hc].
    destruct (hexDigit d) as [l |] eqn:Ed; [| discriminate Hd].
    destruct IHs as (Hlen & Hnth & _).
    { unfold wellFormedHex. rewrite Hev, Hall. reflexivity. }
    rewrite (decoded_pair c d h l s Ec Ed).
    split; [| split].
    + cbn [List.length String.length]. rewrite Hlen.
      replace (S (S (String.length s))) with (String.length s + 1 * 2) by lia.
      rewrite Nat.div_add by discriminate. lia.
    + intros [| i] c1 c2 H1 H2.
      * cbn in H1, H2. injection H1 as <-. injection H2 as <-.
        exists h, l. repeat split; assumption.
      * replace (2 * S i) with (S (S (2 * i))) in H1 by lia.
        replace (2 * S i + 1) with (S (S (2 * i + 1))) in H2 by lia.
        cbn [String.get] in H1, H2. cbn [nth]. apply (Hnth i c1 c2 H1 H2).
    + intros _ a. rewrite <- (decoded_pair c d h l s Ec Ed).
      rewrite hexToBinary_lenient; [reflexivity |].
      unfold decoded in *. intros Hnil.
      pose proof (decoded_pair c d h l s Ec Ed) as E. unfold decoded in E.
      rewrite Hnil in E. discriminate E.
Qed.

Lemma wellFormed_hex_decodes_witness :
  List.length (decoded "52494646") = 4 /\
  fst (hexToBinary "52494646" (mounted plainBrowser))
    = Normal (decoded "52494646").
Proof.
  destruct (wellFormed_hex_decodes "52494646") as (H1 & _ & H2).
  - reflexivity.
  - split; [exact H1 | apply H2; discriminate].
Defined.

(* ------------------------------------------------------------------ *)
(** ** Playback *)

(** X3. [playAudioResponse] never throws, whatever the string and
    whichever calls on the element throw, and leaves the log of messages
    and the flag of the recording alone.  Where there is an audio
    element and the string has a match, the status is [speaking], the
    element holds the decoded bytes as its source with both handlers
    installed and [play()] was the last call; in every other case the
    status is [waiting] and the microphone has been asked for again. *)
Theorem playAudioResponse_outcomes (audioHex : string) (a : App) :
  fst (playAudioResponse audioHex a) = Normal tt /\
  messages (task (playAudioResponse audioHex) a) = messages a /\
  isRecordingRef (task (playAudioResponse audioHex) a) = isRecordingRef a /\
  isTTSStoppedRef (task (playAudioResponse audioHex) a) = false /\
  match audioPlayerRef a, matchAll audioHex with
  | Some _, _ :: _ =>
      status (task (playAudioResponse audioHex) a) = speaking /\
      processorRef (task (playAudioResponse audioHex) a) = processorRef a /\
      (exists el,
         audioPlayerRef (task (playAudioResponse audioHex) a) = Some el /\
         paused el = false /\
         src el = objectURL (decoded audioHex) /\
         onended el = Some (ttsEnded (decoded audioHex)) /\
         onerror el = Some (ttsError (decoded audioHex))) /\
      (exists older,
         calls (task (playAudioResponse audioHex) a) =
           call_play (decoded audioHex) :: call_match audioHex :: older)
  | _, _ =>
      status (task (playAudioResponse audioHex) a) = waiting /\
      (exists older,
         calls (task (playAudioResponse audioHex) a) = call_getUserMedia :: older) /\
      (if mic_denied (env a) then True
       else processorRef (task (playAudioResponse audioHex) a) = true /\
            speechBufferCount (task (playAudioResponse audioHex) a) = 0)
  end.
Proof.
  destruct a as [b st ld ms ir irr bv cnt ap wc tts pr ch mr rs ts nw inf cs].
  destruct b as [ti tp tk tc tl md].
  unfold playAudioResponse, hexToBinary, String_match, decoded.
  destruct (matchAll audioHex) as [| chunk chunks];
    [| generalize (map (fun byte => toUint8 (parseInt16 byte)) (chunk :: chunks));
       intros binary];
    destruct ap as [el |], tp, tk, tc, md;
    vm_compute;
    repeat match goal with
           | |- _ /\ _ => split
           | |- exists _, _ => eexists
           | |- _ = _ => reflexivity
           | |- True => exact I
           end.
Qed.

(* ------------------------------------------------------------------ *)
(** ** Energy and amplitude *)

Lemma sum_squares_between (l : list R) (lo hi : R) :
  (0 <= lo)%R ->
  Forall (fun s => (lo <= Rabs s <= hi)%R) l ->
  (INR (List.length l) * (lo * lo)
   <= fold_right Rplus 0 (map (fun x => x * x) l)
   <= INR (List.length l) * (hi * hi))%R.
Proof.
  intros Hlo. induction 1 as [| x l [Hx1 Hx2] _ IH].
  - cbn. lra.
  - cbn [List.length map fold_right]. rewrite S_INR.
    assert (Hsq : (x * x = Rabs x * Rabs x)%R).
    { unfold Rabs. destruct (Rcase_abs x); ring. }
    rewrite Hsq.
    assert (lo * lo <= Rabs x * Rabs x)%R by nra.
    assert (Rabs x * Rabs x <= hi * hi)%R by nra.
    lra.
Qed.

(** X4. The energy of a non-empty buffer lies between the smallest and
    the largest magnitude of its samples; in particular it is between 0
    and 1 on normalised samples. *)
Theorem rms_between_magnitudes (inputData : list R) (lo hi : R) :
  inputData <> [] ->
  (0 <= lo)%R ->
  Forall (fun s => (lo <= Rabs s <= hi)%R) inputData ->
  (lo <= rms inputData <= hi)%R.
Proof.
  intros Hne Hlo Hall.
  assert (Hn : (0 < INR (List.length inputData))%R).
  { apply lt_0_INR. destruct inputData; [congruence | cbn; lia]. }
  assert (Hhi : (lo <= hi)%R).
  { destruct Hall as [| x l [H1 H2] _]; [congruence | lra]. }
  pose proof (sum_squares_between inputData lo hi Hlo Hall) as [Hs1 Hs2].
  unfold rms. rewrite fold_left_sum_squares, Rplus_0_l.
  set (sum := fold_right Rplus 0%R (map (fun x => (x * x)%R) inputData)) in *.
  set (n := INR (List.length inputData)) in *.
  assert (Hm1 : (lo * lo <= sum / n)%R).
  { apply (Rmult_le_reg_r n); [exact Hn |].
    replace (sum / n * n)%R with sum by (field; lra). lra. }
  assert (Hm2 : (sum / n <= hi * hi)%R).
  { apply (Rmult_le_reg_r n); [exact Hn |].
    replace (sum / n * n)%R with sum by (field; lra). lra. }
  split.
  - rewrite <- (sqrt_square lo Hlo) at 1. apply sqrt_le_1_alt, Hm1.
  - rewrite <- (sqrt_square hi) by lra. apply sqrt_le_1_alt, Hm2.
Qed.

Lemma rms_between_magnitudes_witness :
  (0 <= rms [(1 / 2)%R; (-1)%R] <= 1)%R.
Proof.
  apply (rms_between_magnitudes [(1 / 2)%R; (-1)%R] 0 1).
  - discriminate.
  - lra.
  - repeat constructor; unfold Rabs;
      match goal with |- context [Rcase_abs ?x] => destruct (Rcase_abs x) end; lra.
Defined.

(** X5. A buffer whose samples all stay within the speech threshold
    never counts as speech: the callback shows its bars, gives no event
    and sets the counter to 0, in whatever state it runs. *)
Theorem quiet_samples_never_count (inputData : list R) (a : App) :
  inputData <> [] ->
  Forall (fun s => (Rabs s <= SPEECH_THRESHOLD)%R) inputData ->
  onaudioprocess inputData a =
    (Normal NoEvent,
     set_speechBufferCount 0 (set_barVolumes (bands inputData) a)).
Proof.
  intros Hne Hall.
  assert (Hr : (rms inputData <= SPEECH_THRESHOLD)%R).
  { apply (rms_between_magnitudes inputData 0 SPEECH_THRESHOLD Hne); [lra |].
    apply (Forall_impl _ (fun s (H : (Rabs s <= SPEECH_THRESHOLD)%R) =>
                            conj (Rabs_pos s) H) Hall). }
  unfold onaudioprocess, bind, modify.
  rewrite (observe_quiet _ _ Hr). reflexivity.
Qed.

Lemma quiet_samples_never_count_witness :
  onaudioprocess [(1 / 100)%R; 0%R] (mounted plainBrowser) =
    (Normal NoEvent,
     set_speechBufferCount 0
       (set_barVolumes (bands [(1 / 100)%R; 0%R]) (mounted plainBrowser))).
Proof.
  apply quiet_samples_never_count.
  - discriminate.
  - repeat constructor; unfold SPEECH_THRESHOLD, Rabs;
      match goal with |- context [Rcase_abs ?x] => destruct (Rcase_abs x) end; lra.
Defined.

Lemma sum_squares_scaled (c : R) (l : list R) :
  fold_right Rplus 0%R (map (fun x => (x * x)%R) (map (Rmult c) l)) =
    (c * c * fold_right Rplus 0 (map (fun x => x * x) l))%R.
Proof.
  induction l as [| x l IH]; cbn [map fold_right].
  - ring.
  - rewrite IH. ring.
Qed.

(** X6. The energy is homogeneous: scaling every sample of a non-empty
    buffer by [c] scales the energy by the magnitude of [c] (on the
    empty buffer the source divides 0 by 0). *)
Theorem rms_scales (c : R) (inputData : list R) :
  inputData <> [] ->
  rms (map (Rmult c) inputData) = (Rabs c * rms inputData)%R.
Proof.
  intros _. unfold rms. rewrite !fold_left_sum_squares, !Rplus_0_l.
  rewrite sum_squares_scaled, length_map.
  set (sum := fold_right Rplus 0%R (map (fun x => (x * x)%R) inputData)).
  replace (c * c * sum / INR (List.length inputData))%R
    with (Rsqr c * (sum / INR (List.length inputData)))%R
    by (unfold Rsqr, Rdiv; ring).
  rewrite sqrt_mult_alt by apply Rle_0_sqr.
  rewrite sqrt_Rsqr_abs. reflexivity.
Qed.


Lemma rms_scales_witness :
  rms (map (Rmult (-2)) [(1 / 2)%R; 1%R]) = (Rabs (-2) * rms [(1 / 2)%R; 1%R])%R.
Proof.
  apply (rms_scales (-2) [(1 / 2)%R; 1%R]). discriminate.
Defined.

(* ------------------------------------------------------------------ *)
(** ** Runs of loud buffers *)

(** Loud buffers short of a full run only count, flag up or down. *)
Lemma loud_run_counts (rs : list R) :
  forall a : App,
    status a <> speaking ->
    Forall (fun r => (r > SPEECH_THRESHOLD)%R) rs ->
    speechBufferCount a + List.length rs < MIN_SPEECH_BUFFERS ->
    exists shown,
      observeAll rs a =
        (Normal (repeat NoEvent (List.length rs)),
         set_status shown
           (set_speechBufferCount (speechBufferCount a + List.length rs) a)) /\
      shown <> speaking.
Proof.
  induction rs as [| r rs IH]; intros a Hs Hl Hn.
  - exists (status a). split; [| exact Hs].
    cbn [observeAll List.length repeat]. rewrite Nat.add_0_r.
    destruct a; reflexivity.
  - inversion Hl as [| ? ? Hr Hrs]; subst. cbn [List.length] in Hn.
    assert (Hc : (MIN_SPEECH_BUFFERS <=? S (speechBufferCount a))
                 && negb (isRecordingRef a) = false).
    { apply andb_false_iff. left. apply Nat.leb_gt. lia. }
    rewrite observeAll_cons,
      (observe_loud_counts _ _ (no_interrupt_unless_speaking r a Hs) Hr Hc).
    set (a1 := (if quietStatus (status a) then set_status listening
                else fun x => x)
                 (set_speechBufferCount (S (speechBufferCount a)) a)).
    assert (H1 : speechBufferCount a1 = S (speechBufferCount a))
      by (unfold a1; destruct (quietStatus (status a)); reflexivity).
    assert (H3 : status a1 <> speaking).
    { unfold a1. destruct (quietStatus (status a)); cbn; [discriminate | exact Hs]. }
    destruct (IH a1 H3 Hrs) as (shown & E & Hshown); [lia |].
    exists shown. split; [| exact Hshown].
    rewrite E, H1. cbn [List.length repeat].
    replace (S (speechBufferCount a) + List.length rs)
      with (speechBufferCount a + S (List.length rs)) by lia.
    unfold a1. destruct (quietStatus (status a)); destruct a; reflexivity.
Qed.

(** X7. Bursts of loud buffers that are each shorter than a full run
    and each followed by a buffer that is not loud never start a
    recording: every buffer gives no event, and at the end the counter
    is 0 and nothing but the status shown has changed. *)
Theorem short_bursts_never_start_recording
  (bursts : list (list R * R)) (a : App) :
  status a <> speaking ->
  speechBufferCount a = 0 ->
  Forall (fun burst =>
            List.length (fst burst) < MIN_SPEECH_BUFFERS /\
            Forall (fun r => (r > SPEECH_THRESHOLD)%R) (fst burst) /\
            (snd burst <= SPEECH_THRESHOLD)%R) bursts ->
  exists shown,
    observeAll (burstStream bursts) a =
      (Normal (repeat NoEvent (List.length (burstStream bursts))),
       set_status shown (set_speechBufferCount 0 a)) /\
    shown <> speaking.
Proof.
  intros Hs Hc Hall. revert a Hs Hc.
  induction Hall as [| [loud quiet] bursts (Hlen & Hloud & Hquiet) _ IH];
    intros a Hs Hc.
  - exists (status a). split; [| exact Hs].
    cbn. rewrite <- Hc. destruct a; reflexivity.
  - cbn [fst snd] in *. unfold burstStream in *. cbn [flat_map fst snd].
    destruct (loud_run_counts loud a Hs Hloud) as (shown & E & Hshown);
      [rewrite Hc; exact Hlen |].
    rewrite !observeAll_app, E, observeAll_cons, (observe_quiet _ _ Hquiet).
    cbn [observeAll]. unfold ret.
    set (a1 := set_speechBufferCount 0
                 (set_status shown
                    (set_speechBufferCount
                       (speechBufferCount a + List.length loud) a))).
    destruct (IH a1) as (shown' & E' & Hshown').
    { unfold a1. destruct a. exact Hshown. }
    { unfold a1. destruct a. reflexivity. }
    exists shown'. split; [| exact Hshown'].
    rewrite E'. rewrite !length_app, !repeat_app. cbn [List.length repeat].
    unfold a1. destruct a. reflexivity.
Qed.

Lemma short_bursts_never_start_recording_witness :
  exists shown,
    observeAll
      (burstStream [([(5 / 100)%R; (5 / 100)%R], 0%R); ([(5 / 100)%R], 0%R)])
      (mounted plainBrowser) =
      (Normal (repeat NoEvent 5),
       set_status shown (set_speechBufferCount 0 (mounted plainBrowser))) /\
    shown <> speaking.
Proof.
  apply (short_bursts_never_start_recording
           [([(5 / 100)%R; (5 / 100)%R], 0%R); ([(5 / 100)%R], 0%R)]
           (mounted plainBrowser)).
  - cbn. discriminate.
  - reflexivity.
  - repeat constructor; cbn; unfold MIN_SPEECH_BUFFERS, SPEECH_THRESHOLD;
      try lia; try lra.
Defined.

(** Without the status [speaking] the callback gives [NoEvent] or
    [SpeechStart], and leaves the log, the loading flag and the pending
    requests alone. *)
Lemma observe_frame (r : R) (a : App) :
  status a <> speaking ->
  (fst (observe r a) = Normal NoEvent \/ fst (observe r a) = Normal SpeechStart) /\
  messages (snd (observe r a)) = messages a /\
  loading (snd (observe r a)) = loading a /\
  inflight (snd (observe r a)) = inflight a.
Proof.
  intros Hs.
  pose proof (no_interrupt_unless_speaking r a Hs) as Hni.
  destruct (gtb_cases r SPEECH_THRESHOLD) as [[_ Hr] | [_ Hr]].
  - destruct ((MIN_SPEECH_BUFFERS <=? S (speechBufferCount a))
              && negb (isRecordingRef a)) eqn:Hc.
    + apply andb_true_iff in Hc. destruct Hc as [Hc Hf].
      apply Nat.leb_le in Hc. apply negb_true_iff in Hf.
      rewrite (observe_loud_fires r a Hni Hr Hc Hf). cbn [fst snd].
      split; [right; reflexivity |].
      unfold task.
      match goal with
      | |- context [startRecording ?x] =>
          destruct (startRecording_shape x) as (p & c & E & _); rewrite E
      end.
      unfold withNewRecorder.
      destruct a as [b st ld ms ir irr bv cnt ap wc tts pr ch mr rs ts nw inf cs].
      cbn [env set_processorRef set_isRecordingRef set_isRecording
           set_speechBufferCount set_status set_audioChunksRef].
      destruct (mic_denied b); repeat split; reflexivity.
    + rewrite (observe_loud_counts r a Hni Hr Hc). cbn [fst snd].
      split; [left; reflexivity |].
      destruct (quietStatus (status a)); destruct a; repeat split; reflexivity.
  - rewrite (observe_quiet r a Hr). cbn [fst snd].
    split; [left; reflexivity |]. destruct a. repeat split; reflexivity.
Qed.

(** X8. In every state the mounted component reaches through events,
    the status is not [speaking] (the end of [onstop] sets it back to
    [waiting] right after [playAudioResponse] set it), at most one
    recording or request is under way, and so the audio callback never
    takes its interrupt branch, whatever the buffer. *)
Theorem interrupt_branch_never_runs
  (b : Browser) (events : list Event) (inputData : list R) :
  status (run events (mounted b)) <> speaking /\
  sessions (run events (mounted b)) <= 1 /\
  fst (onaudioprocess inputData (run events (mounted b))) <> Normal Interrupt.
Proof.
  destruct (run_exclusive events _ (mounted_exclusive b)) as (Hs & Hn & _).
  split; [exact Hs |].
  split; [destruct (isRecordingRef (run events (mounted b))); lia |].
  unfold onaudioprocess, bind, modify.
  destruct (observe_frame (rms inputData)
              (set_barVolumes (bands inputData) (run events (mounted b))))
    as ([E | E] & _).
  { destruct (run events (mounted b)); exact Hs. }
  - destruct (observe _ _) as [[e | x] a']; cbn in *; congruence.
  - destruct (observe _ _) as [[e | x] a']; cbn in *; congruence.
Qed.

(* ------------------------------------------------------------------ *)
(** ** The timer, the log and the loading flag *)



Lemma newMessages_length (r : FetchResult) : List.length (newMessages r) <= 2.
Proof. destruct r; cbn; lia. Qed.

(** What the timers that fire do to the log and to the loading flag. *)
Lemma timers_frame (due : list (N * nat)) :
  forall a : App,
    let a' := fold_left (fun acc timer => task (recordingTimeout (snd timer)) acc)
                        due a in
    messages a' = messages a /\
    ((loading a = true <-> 0 < inflight a) ->
     (loading a' = true <-> 0 < inflight a')).
Proof.
  induction due as [| t due IH]; intros a; cbn [fold_left]; cbv zeta.
  - split; [reflexivity | tauto].
  - specialize (IH (task (recordingTimeout (snd t)) a)). cbv zeta in IH.
    destruct IH as (IHm & IHl). unfold task in IHm, IHl |- *.
    destruct (recordingTimeout_shape (snd t) a) as [(d & _ & E) | (_ & E)];
      rewrite E in *; cbn [snd] in *.
    + split.
      * rewrite IHm. destruct a; reflexivity.
      * intros _. apply IHl. destruct a; cbn. split; [lia | reflexivity].
    + split; [exact IHm | exact IHl].
Qed.

(** One event leaves the log alone or, when a request settles, appends
    the messages of its answer; and it keeps the loading flag in step
    with the pending request. *)
Lemma dispatch_frame (e : Event) (a : App) :
  exclusive a ->
  (messages (dispatch e a) = messages a \/
   exists r, e = FetchSettled r /\
             messages (dispatch e a) = messages a ++ newMessages r) /\
  ((loading a = true <-> 0 < inflight a) ->
   (loading (dispatch e a) = true <-> 0 < inflight (dispatch e a))).
Proof.
  intros Hex.
  assert (Hplay : messages (task playbackOver a) = messages a /\
                  loading (task playbackOver a) = loading a /\
                  inflight (task playbackOver a) = inflight a).
  { unfold task. rewrite playbackOver_shape, startListening_shape. cbn [snd].
    destruct (mic_denied (env (set_status waiting a))); destruct a;
      repeat split; reflexivity. }
  destruct Hplay as (Pm & Pl & Pi).
  destruct e as [inputData | chunk | ms | r | | |]; cbn [dispatch].
  - destruct (processorRef a).
    + unfold task, onaudioprocess, bind, modify.
      destruct (observe_frame (rms inputData)
                  (set_barVolumes (bands inputData) a)) as (_ & Hm & Hl & Hi).
      { destruct Hex as (Hs & _). destruct a; exact Hs. }
      destruct (observe (rms inputData) (set_barVolumes (bands inputData) a))
        as [[ev | x] a'] eqn:E; cbn [snd] in *;
        (split;
         [left; rewrite Hm; destruct a; reflexivity
         | rewrite Hl, Hi; destruct a; tauto]).
    + split; [left; reflexivity | tauto].
  - split; [left; destruct a; reflexivity | destruct a; tauto].
  - unfold elapse.
    destruct (timers_frame
                (filter (isDue (now a + ms)) (timers a))
                (set_timers
                   (filter (fun timer => negb (isDue (now a + ms) timer))
                           (timers a))
                   (set_now (now a + ms)%N a))) as (Hm & Hl).
    cbv zeta. split.
    + left. rewrite Hm. destruct a; reflexivity.
    + intros H. apply Hl. destruct a; exact H.
  - destruct (inflight a) as [| n] eqn:Hin.
    + split; [left; reflexivity |].
      rewrite Hin. tauto.
    + unfold task.
      destruct (onstop_settled_shape r (set_inflight n a))
        as (p & lg & ar & ct & sp & E & _).
      rewrite E. cbn [snd].
      assert (Hn : n = 0).
      { destruct Hex as (_ & Hn & _). unfold sessions in Hn. rewrite Hin in Hn.
        destruct (isRecordingRef a); lia. }
      subst n. split.
      * right. exists r. split; [reflexivity | destruct a; reflexivity].
      * intros _. destruct a; cbn. split; [discriminate | lia].
  - split.
    + left. destruct (audioPlayerRef a) as [[? ? ? [?|] ? ?] |]; auto.
    + destruct (audioPlayerRef a) as [[? ? ? [?|] ? ?] |]; try tauto.
      rewrite Pl, Pi. tauto.
  - split.
    + left. destruct (audioPlayerRef a) as [[? ? ? ? [?|] ?] |]; auto.
    + destruct (audioPlayerRef a) as [[? ? ? ? [?|] ?] |]; try tauto.
      rewrite Pl, Pi. tauto.
  - split; [left; exact Pm |].
    rewrite Pl, Pi. tauto.
Qed.

Lemma settlements_cons (e : Event) (events : list Event) :
  settlements (e :: events) = settlements [e] + settlements events.
Proof. unfold settlements. cbn. destruct e; reflexivity. Qed.

Lemma run_log (events : list Event) :
  forall a : App,
    exclusive a ->
    exists suffix,
      messages (run events a) = messages a ++ suffix /\
      List.length suffix <= 2 * settlements events.
Proof.
  induction events as [| e events IH]; intros a Hex.
  - exists []. rewrite app_nil_r. split; [reflexivity | cbn; lia].
  - destruct (IH (dispatch e a) (dispatch_exclusive e a Hex)) as (s2 & E2 & L2).
    change (run (e :: events) a) with (run events (dispatch e a)).
    rewrite settlements_cons.
    destruct (dispatch_frame e a Hex) as ([E1 | (r & -> & E1)] & _).
    + exists s2. split; [rewrite E2, E1; reflexivity | lia].
    + exists (newMessages r ++ s2). split.
      * rewrite E2, E1, app_assoc. reflexivity.
      * pose proof (newMessages_length r). rewrite length_app.
        change (settlements [FetchSettled r]) with 1. lia.
Qed.

(** X10. The message log only grows: whatever events follow, the log
    they leave is the earlier log with messages appended, at most two
    for each request that settles among them; no event removes or
    rewrites a message. *)
Theorem message_log_is_append_only
  (b : Browser) (before after : list Event) :
  exists suffix,
    messages (run (before ++ after) (mounted b)) =
      messages (run before (mounted b)) ++ suffix /\
    List.length suffix <= 2 * settlements after.
Proof.
  rewrite run_app.
  apply run_log, run_exclusive, mounted_exclusive.
Qed.

(** X11. In every state the mounted component reaches through events,
    the loading flag is up exactly while a request is pending: the
    [finally] of [processAudio] lowers a flag that no second request
    still needs, since at most one is ever under way. *)
Theorem loading_exactly_while_request_pending
  (b : Browser) (events : list Event) :
  loading (run events (mounted b)) = true <->
  0 < inflight (run events (mounted b)).
Proof.
  assert (H : forall a, exclusive a ->
                (loading a = true <-> 0 < inflight a) ->
                (loading (run events a) = true <-> 0 < inflight (run events a))).
  { induction events as [| e events IH]; intros a Hex Hl; [exact Hl |].
    change (run (e :: events) a) with (run events (dispatch e a)).
    apply IH; [apply dispatch_exclusive, Hex |].
    apply (proj2 (dispatch_frame e a Hex)), Hl. }
  apply H; [apply mounted_exclusive |].
  assert (Hl : loading (mounted b) = false) by (destruct b as [ti tp tk tc tl []]; vm_compute; reflexivity).
  assert (Hi : inflight (mounted b) = 0) by (destruct b as [ti tp tk tc tl []]; vm_compute; reflexivity).
  rewrite Hl, Hi. split; [discriminate | lia].
Qed.

(* ------------------------------------------------------------------ *)
(** ** Failures, unmounting and the handlers of the player *)

(** X12. The three ways a request can fail (the [fetch] rejects, the
    server answers with an error status, the body is not JSON) are
    handled alike: each ends without an exception in the same state, the
    fallback message appended, the microphone asked for again, the
    loading flag down; the player and the recording flag are not
    touched. *)
Theorem request_failures_are_handled_alike (a : App) :
  processAudio_settled fetchNotOk a = processAudio_settled fetchRejected a /\
  processAudio_settled fetchBadJson a = processAudio_settled fetchRejected a /\
  processAudio_settled fetchRejected a =
    (Normal tt,
     set_loading false
       (task startListening
          (set_messages (messages a ++ [fallbackMessage]) a))) /\
  audioPlayerRef (task (processAudio_settled fetchRejected) a) = audioPlayerRef a /\
  isRecordingRef (task (processAudio_settled fetchRejected) a) = isRecordingRef a.
Proof.
  destruct a as [b st ld ms ir irr bv cnt ap wc tts pr ch mr rs ts nw inf cs].
  destruct b as [ti tp tk tc tl md].
  destruct md; vm_compute; repeat split; reflexivity.
Qed.

(** X13. Unmounting ([stopListening] then [hardStopAudio]) never throws;
    afterwards the detector is disconnected and the handlers of the
    player are cleared, so buffers and media events change nothing.  It
    cancels neither the timers nor the recorders nor a pending request:
    when that request settles, the unmounted component asks for the
    microphone again and re-arms the detector. *)
Theorem cleanup_leaves_pending_request (a : App) :
  fst (cleanup a) = Normal tt /\
  processorRef (task cleanup a) = false /\
  isTTSStoppedRef (task cleanup a) = true /\
  (forall inputData,
     dispatch (AudioProcess inputData) (task cleanup a) = task cleanup a) /\
  dispatch MediaEnded (task cleanup a) = task cleanup a /\
  dispatch MediaError (task cleanup a) = task cleanup a /\
  timers (task cleanup a) = timers a /\
  recorders (task cleanup a) = recorders a /\
  inflight (task cleanup a) = inflight a /\
  (forall r,
     0 < inflight a -> mic_denied (env a) = false ->
     processorRef (dispatch (FetchSettled r) (task cleanup a)) = true).
Proof.
  assert (Hfix : fst (cleanup a) = Normal tt /\
                 processorRef (task cleanup a) = false /\
                 isTTSStoppedRef (task cleanup a) = true /\
                 dispatch MediaEnded (task cleanup a) = task cleanup a /\
                 dispatch MediaError (task cleanup a) = task cleanup a /\
                 timers (task cleanup a) = timers a /\
                 recorders (task cleanup a) = recorders a /\
                 inflight (task cleanup a) = inflight a /\
                 env (task cleanup a) = env a).
  { destruct a as [b st ld ms ir irr bv cnt ap wc tts pr ch mr rs ts nw inf cs].
    destruct b as [ti tp tk tc tl md].
    destruct ap as [[p t s oe oerr op] |], wc, pr, ti, tp, tk, tc, tl;
      vm_compute; repeat split; reflexivity. }
  destruct Hfix as (H1 & H2 & H3 & H4 & H5 & H6 & H7 & H8 & H9).
  repeat (split; [assumption |]).
  split; [| split; [assumption | split; [assumption |]]].
  - intros inputData. cbn [dispatch]. rewrite H2. reflexivity.
  - repeat (split; [assumption |]).
    intros r Hin Hmic. cbn [dispatch]. rewrite H8.
    destruct (inflight a) as [| n]; [lia |].
    unfold task at 1.
    destruct (onstop_settled_shape r (set_inflight n (task cleanup a)))
      as (p & lg & ar & ct & sp & E & Harm).
    rewrite E. cbn [snd].
    destruct Harm as (Har & _).
    { destruct (task cleanup a); cbn in *. rewrite H9. exact Hmic. }
    subst ar. destruct (task cleanup a); reflexivity.
Qed.

Lemma cleanup_leaves_pending_request_witness :
  processorRef
    (dispatch (FetchSettled fetchRejected) (task cleanup awaitingAnswer)) = true.
Proof.
  destruct (cleanup_leaves_pending_request awaitingAnswer)
    as (_ & _ & _ & _ & _ & _ & _ & _ & _ & H).
  apply H.
  - vm_compute. constructor.
  - vm_compute. reflexivity.
Defined.

(** X14. [startRecording] stops the player but, unlike [hardStopAudio],
    leaves its handlers in place.  An error event of the stopped player
    therefore still runs the handler set by [playAudioResponse]: in the
    middle of the recording the status goes back to [waiting] and the
    detector is armed again, the recording flag still up. *)
Theorem startRecording_keeps_player_handlers
  (a : App) (el : HTMLAudioElement) (cb : Callback) :
  audioPlayerRef a = Some el ->
  onerror el = Some cb ->
  (exists el',
     audioPlayerRef (task startRecording a) = Some el' /\
     onended el' = onended el /\ onerror el' = Some cb) /\
  (exists el',
     audioPlayerRef (task hardStopAudio a) = Some el' /\
     onended el' = None /\ onerror el' = None) /\
  status (task startRecording a) = listening /\
  status (dispatch MediaError (task startRecording a)) = waiting /\
  isRecordingRef (dispatch MediaError (task startRecording a)) = true /\
  (mic_denied (env a) = false ->
   processorRef (task startRecording a) = false /\
   processorRef (dispatch MediaError (task startRecording a)) = true).
Proof.
  intros Hp He.
  destruct a as [b st ld ms ir irr bv cnt ap wc tts pr ch mr rs ts nw inf cs].
  destruct b as [ti tp tk tc tl md].
  destruct el as [p t s oe oerr op].
  cbn in Hp, He. subst ap oerr.
  destruct wc, ti, tp, tk, tc, tl, md; vm_compute;
    (split; [eexists; split; [reflexivity | split; reflexivity] |]);
    (split; [eexists; split; [reflexivity | split; reflexivity] |]);
    repeat split; try reflexivity; try discriminate.
Qed.

Lemma startRecording_keeps_player_handlers_witness :
  status (dispatch MediaError (task startRecording (playingUnder plainBrowser))) = waiting /\
  isRecordingRef (dispatch MediaError (task startRecording (playingUnder plainBrowser))) = true.
Proof.
  destruct (startRecording_keeps_player_handlers (playingUnder plainBrowser) playingAudio
              (ttsError [82; 73; 70; 70]%Z))
    as (_ & _ & _ & H1 & H2 & _).
  - vm_compute. reflexivity.
  - reflexivity.
  - split; [exact H1 | exact H2].
Defined.

(* ------------------------------------------------------------------ *)
(** ** The view *)

(** X15. Whatever the state, [App] renders exactly one indicator and it
    is a [RecordingBars]: live bars fed with the band volumes when the
    status is [listening], animated bars otherwise.  The condition of
    [ParticleCloud] excludes all four values of the status, so the cloud
    is never rendered, loading or not. *)
Theorem view_never_renders_the_cloud (a : App) :
  exists key props,
    indicators a = [barsElement key props] /\
    match status a with
    | listening => volumes props = Some (barVolumes a) /\ animate props = None
    | _ => volumes props = None /\ animate props = Some true
    end.
Proof.
  unfold indicators, shown. cbv zeta.
  destruct (status a); cbn [Status_eqb negb andb app];
    rewrite ?andb_false_r; do 2 eexists; (split; [reflexivity |]);
    split; reflexivity.
Qed.

(** X16. In every state the mounted component reaches between events the
    view is not the one of the status [speaking]: the caption is never
    [Bot is speaking...] and the bars are never the pink animated ones,
    even while an answer plays. *)
Theorem speaking_view_is_never_shown (b : Browser) (events : list Event) :
  caption (run events (mounted b)) <> "Bot is speaking..."%string /\
  exists key props,
    indicators (run events (mounted b)) = [barsElement key props] /\
    color props <> Some "#e75480"%string.
Proof.
  destruct (run_exclusive events _ (mounted_exclusive b)) as (Hs & _).
  unfold caption, indicators, shown. cbv zeta.
  destruct (status (run events (mounted b))); try (destruct (Hs eq_refl));
    cbn [Status_eqb negb andb app String.concat]; rewrite ?andb_false_r;
    (split; [discriminate |]);
    do 2 eexists; (split; [reflexivity | discriminate]).
Qed.

Lemma newMessages_bubbles (r : FetchResult) :
  Forall (fun m =>
            bubble m = match role m with
                       | user => userBubble (content m)
                       | assistant => assistantBubble (content m) None
                       end)
         (newMessages r).
Proof.
  destruct r as [| | | data]; cbn [newMessages];
    repeat constructor.
  unfold bubble, userMessage. cbn [role transcription content].
  f_equal. unfold orElse.
  destruct (data_transcription data) as [s |]; [| reflexivity].
  destruct (truthy s) eqn:E; [reflexivity |].
  reflexivity.
Qed.

(** X17. Every message of the log of a state the mounted component
    reaches is drawn from its [content] alone: the bubble of the user
    shows the transcription or, without one, the placeholder, both
    already stored as the content; and no bubble of the assistant ever
    shows the block titled Transcription, since no message of the
    assistant is given that field. *)
Theorem bubbles_show_the_content (b : Browser) (events : list Event) :
  Forall (fun m =>
            bubble m = match role m with
                       | user => userBubble (content m)
                       | assistant => assistantBubble (content m) None
                       end)
         (messages (run events (mounted b))).
Proof.
  assert (H : forall a, exclusive a ->
                Forall (fun m =>
                          bubble m = match role m with
                                     | user => userBubble (content m)
                                     | assistant => assistantBubble (content m) None
                                     end) (messages a) ->
                Forall (fun m =>
                          bubble m = match role m with
                                     | user => userBubble (content m)
                                     | assistant => assistantBubble (content m) None
                                     end) (messages (run events a))).
  { induction events as [| e events IH]; intros a Hex Hm; [exact Hm |].
    change (run (e :: events) a) with (run events (dispatch e a)).
    apply IH; [apply dispatch_exclusive, Hex |].
    destruct (dispatch_frame e a Hex) as ([E | (r & _ & E)] & _); rewrite E.
    - exact Hm.
    - apply Forall_app. split; [exact Hm | apply newMessages_bubbles]. }
  apply H; [apply mounted_exclusive |].
  assert (E : messages (mounted b) = [])
    by (destruct b as [ti tp tk tc tl []]; vm_compute; reflexivity).
  rewrite E. constructor.
Qed.

(* ------------------------------------------------------------------ *)
(** ** [RecordingBars] and [ParticleCloud] *)

(** X18. Animated bars: whatever the other props and however often the
    interval ran, [RecordingBars] draws 8 bars, each between 29 and 71
    pixels high; the volumes passed in are ignored. *)
Theorem animated_bars_stay_in_range (props : RecordingBarsProps) (ticks : nat) :
  animate props = Some true ->
  List.length (RecordingBars props ticks) = NUM_BARS /\
  Forall (fun bar => (29 <= height bar <= 71)%R) (RecordingBars props ticks) /\
  RecordingBars props ticks =
    RecordingBars {| volumes := None; color := color props;
                     animate := Some true |} ticks.
Proof.
  intros Ha. unfold RecordingBars. rewrite Ha. cbn [animate color].
  split; [| split; [| reflexivity]].
  - rewrite length_map. destruct ticks; cbn [animatedVolumes].
    + apply repeat_length.
    + unfold sineVolumes. rewrite length_map, length_seq. reflexivity.
  - apply Forall_map. destruct ticks; cbn [animatedVolumes].
    + apply Forall_forall. intros v Hv. apply repeat_spec in Hv. subst v.
      cbn [height]. lra.
    + unfold sineVolumes. apply Forall_map, Forall_forall. intros i _.
      cbn [height].
      pose proof (SIN_bound (INR ticks / 10 + INR i * PI / 4)) as [Hlo Hhi].
      lra.
Qed.

Lemma animated_bars_stay_in_range_witness :
  List.length
    (RecordingBars {| volumes := None; color := Some "green"%string;
                      animate := Some true |} 3) = NUM_BARS.
Proof.
  apply (animated_bars_stay_in_range
           {| volumes := None; color := Some "green"%string;
              animate := Some true |} 3).
  reflexivity.
Defined.

Lemma bands_in_range (inputData : list R) :
  Forall (fun v => (0 <= v <= 1)%R) (bands inputData).
Proof.
  unfold bands. cbv zeta. apply Forall_map, Forall_forall. intros i _.
  split.
  - apply Rmin_glb; [lra |].
    apply Rmult_le_pos; [apply sqrt_pos | lra].
  - apply Rmin_l.
Qed.

(** X19. Live bars: fed with the band volumes of a buffer of at least 8
    samples (on fewer the bands divide 0 by 0) and not animated, [RecordingBars] draws one bar for each of the 8 bands, of
    height 20 plus 60 times the band volume, hence between 20 and 80
    pixels. *)
Theorem live_bars_follow_the_bands
  (inputData : list R) (c : option string) (ticks : nat) :
  8 <= List.length inputData ->
  map height
      (RecordingBars {| volumes := Some (bands inputData); color := c;
                        animate := None |} ticks) =
    map (fun v => (20 + v * 60)%R) (bands inputData) /\
  List.length
    (RecordingBars {| volumes := Some (bands inputData); color := c;
                      animate := None |} ticks) = NUM_BARS /\
  Forall (fun bar => (20 <= height bar <= 80)%R)
         (RecordingBars {| volumes := Some (bands inputData); color := c;
                           animate := None |} ticks).
Proof.
  intros _. unfold RecordingBars. cbn [animate volumes color].
  split; [| split].
  - rewrite map_map. reflexivity.
  - rewrite length_map. reflexivity.
  - apply Forall_map.
    apply (Forall_impl _ (P := fun v => (0 <= v <= 1)%R));
      [| apply bands_in_range].
    intros v Hv. cbn [height]. lra.
Qed.

Lemma live_bars_follow_the_bands_witness :
  List.length
    (RecordingBars {| volumes := Some (bands (repeat 0%R 8));
                      color := Some "purple"%string;
                      animate := None |} 0) = NUM_BARS.
Proof.
  apply (live_bars_follow_the_bands (repeat 0%R 8) (Some "purple"%string) 0).
  cbn. lia.
Defined.

(** X20. [ParticleCloud] draws 12 circles of radius 5 whose centres lie
    on the circle of radius 28 around (40,40); each of them lies inside
    the 80 by 80 box of the [svg], at least 7 from its border. *)
Theorem particles_on_a_circle_inside_the_box :
  List.length ParticleCloud = NUM_PARTICLES /\
  Forall (fun c =>
            circle_r c = PARTICLE_RADIUS /\
            ((cx c - 40) * (cx c - 40) + (cy c - 40) * (cy c - 40)
             = RADIUS * RADIUS)%R /\
            (7 <= cx c - circle_r c)%R /\ (cx c + circle_r c <= 73)%R /\
            (7 <= cy c - circle_r c)%R /\ (cy c + circle_r c <= 73)%R)
         ParticleCloud.
Proof.
  unfold ParticleCloud. split.
  - rewrite length_map, length_seq. reflexivity.
  - apply Forall_map, Forall_forall. intros i _. cbv zeta.
    cbn [cx cy circle_r]. unfold RADIUS, PARTICLE_RADIUS.
    set (angle := (2 * PI * INR i / INR NUM_PARTICLES)%R).
    pose proof (COS_bound angle) as [Hc1 Hc2].
    pose proof (SIN_bound angle) as [Hs1 Hs2].
    pose proof (sin2_cos2 angle) as Hsc. unfold Rsqr in Hsc.
    repeat split; lra.
Qed.

(* ------------------------------------------------------------------ *)
(** ** The second [App] of the file *)

(** X21. In the second [App] nothing inside [playAudioResponse] is
    guarded, so whatever fails there (the audio matches no chunk, or the
    player refuses [pause()]) surfaces in the [catch] of [processAudio]:
    the call still ends normally, but the fallback message follows the
    two messages of the answer, and nothing is played.  The first [App]
    handles both inside [playAudioResponse] and adds the two messages
    only. *)
Theorem plain_playback_failure_is_reported
  (data : ChatResponse) (audioHex : string) (a : App) :
  data_audio data = Some audioHex ->
  truthy audioHex = true ->
  matchAll audioHex = [] \/
  (audioPlayerRef a <> None /\ pause_throws (env a) = true) ->
  fst (Plain.processAudio_settled (fetchOk data) a) = Normal tt /\
  messages (task (Plain.processAudio_settled (fetchOk data)) a) =
    messages a ++ [userMessage data; assistantMessage data; fallbackMessage] /\
  status (task (Plain.processAudio_settled (fetchOk data)) a) = waiting /\
  loading (task (Plain.processAudio_settled (fetchOk data)) a) = false /\
  audioPlayerRef (task (Plain.processAudio_settled (fetchOk data)) a) =
    audioPlayerRef a /\
  messages (task (processAudio_settled (fetchOk data)) a) =
    messages a ++ [userMessage data; assistantMessage data].
Proof.
  intros Ha Ht Hfail.
  destruct data as [tr resp au fl]. cbn [data_audio] in Ha. subst au.
  unfold Plain.processAudio_settled, processAudio_settled.
  cbn [data_audio]. rewrite Ht.
  unfold Plain.playAudioResponse, playAudioResponse, hexToBinary.
  destruct a as [b st ld ms ir irr bv cnt ap wc tts pr ch mr rs ts nw inf cs].
  destruct b as [ti tp tk tc tl md].
  cbn [audioPlayerRef env pause_throws calls] in *.
  destruct Hfail as [Hm | (Hp & Hthrow)].
  - unfold String_match. rewrite Hm.
    destruct ap as [el |], tp, tk, tc, md; vm_compute;
      repeat split; try reflexivity; symmetry; apply (app_assoc ms [_; _] [_]).
  - subst tp. destruct ap as [el |]; [| destruct (Hp eq_refl)].
    destruct (String_match audioHex) as [chunks |];
      [generalize (map (fun byte => toUint8 (parseInt16 byte)) chunks);
       intros binary |];
      destruct tk, tc, md; vm_compute;
      repeat split; try reflexivity; symmetry; apply (app_assoc ms [_; _] [_]).
Qed.

Lemma plain_playback_failure_is_reported_witness :
  messages (task (Plain.processAudio_settled (fetchOk lineFeedAnswer))
                 (mounted plainBrowser)) =
    messages (mounted plainBrowser)
      ++ [userMessage lineFeedAnswer; assistantMessage lineFeedAnswer;
          fallbackMessage].
Proof.
  destruct (plain_playback_failure_is_reported lineFeedAnswer
              (String (ascii_of_nat 10) EmptyString) (mounted plainBrowser))
    as (_ & H & _).
  - reflexivity.
  - reflexivity.
  - left. reflexivity.
  - exact H.
Defined.

Lemma plain_startRecording_shape (a : App) :
  Plain.startRecording a =
    (Normal tt,
     set_calls
       ((if mic_denied (env a) then []
         else [call_start (List.length (recorders a))])
        ++ call_getUserMedia :: calls a)
       (withNewRecorder a
          (set_audioChunksRef [] (set_isRecordingRef true
             (set_isRecording true (set_status listening
                (set_processorRef false a))))))).
Proof.
  destruct a as [b st ld ms ir irr bv cnt ap wc tts pr ch mr rs ts nw inf cs].
  unfold withNewRecorder, Plain.startRecording. js_unfold. cbn.
  destruct (mic_denied b); cbn; rewrite ?updateNth_at_end; reflexivity.
Qed.

Lemma plain_observe_quiet (r : R) (a : App) :
  (r <= SPEECH_THRESHOLD)%R ->
  Plain.observe r a = (Normal NoEvent, set_speechBufferCount 0 a).
Proof.
  intros H. unfold Plain.observe, gets, modify, bind, ret.
  rewrite (gtb_false _ _ H). destruct a; reflexivity.
Qed.

Lemma plain_observe_loud_counts (r : R) (a : App) :
  (r > SPEECH_THRESHOLD)%R ->
  (MIN_SPEECH_BUFFERS <=? S (speechBufferCount a)) && negb (isRecordingRef a)
    = false ->
  Plain.observe r a =
    (Normal NoEvent,
     set_speechBufferCount (S (speechBufferCount a))
       ((if Status_eqb (status a) listening then fun x => x
         else set_status listening) a)).
Proof.
  intros Hr Hc. unfold Plain.observe, gets, modify, bind, ret, setStatus, when.
  rewrite (gtb_true _ _ Hr).
  destruct a as [b st ld ms ir irr bv cnt ap wc tts pr ch mr rs ts nw inf cs].
  cbn [speechBufferCount isRecordingRef status] in *.
  destruct (Status_eqb st listening); cbn -[Nat.leb MIN_SPEECH_BUFFERS];
    unfold modify, ret; cbn -[Nat.leb MIN_SPEECH_BUFFERS];
    rewrite Hc; reflexivity.
Qed.

Lemma plain_observe_loud_fires (r : R) (a : App) :
  (r > SPEECH_THRESHOLD)%R ->
  MIN_SPEECH_BUFFERS <= S (speechBufferCount a) ->
  isRecordingRef a = false ->
  Plain.observe r a =
    (Normal SpeechStart,
     set_speechBufferCount 0
       (task Plain.startRecording
          (set_processorRef false (set_isRecordingRef true
             (set_isRecording true
                (set_speechBufferCount (S (speechBufferCount a))
                   ((if Status_eqb (status a) listening then fun x => x
                     else set_status listening) a))))))).
Proof.
  intros Hr Hc Hf.
  unfold Plain.observe. rewrite (gtb_true _ _ Hr).
  destruct a as [b st ld ms ir irr bv cnt ap wc tts pr ch mr rs ts nw inf cs].
  cbn [speechBufferCount isRecordingRef status] in *. subst irr.
  unfold MIN_SPEECH_BUFFERS in Hc.
  replace cnt with (5 + (cnt - 5)) by lia. generalize (cnt - 5). intros k.
  destruct b as [ti tp tk tc tl md].
  destruct st, md; vm_compute; reflexivity.
Qed.

(** X22. While the status is [waiting] or [listening] the detector of
    the second [App] decides as the detector of the first: the same
    event on every buffer, and the same state but for the player and the
    log of calls (the first [App] stops the player when a recording
    starts).  The two differ only where the first interrupts an answer
    or spares the status [processing]. *)
Theorem plain_detector_agrees (r : R) (a : App) :
  status a = waiting \/ status a = listening ->
  fst (Plain.observe r a) = fst (observe r a) /\
  set_calls [] (set_audioPlayerRef None (snd (Plain.observe r a))) =
    set_calls [] (set_audioPlayerRef None (snd (observe r a))).
Proof.
  intros Hst.
  assert (Hs : status a <> speaking) by (destruct Hst as [E | E]; rewrite E; discriminate).
  pose proof (no_interrupt_unless_speaking r a Hs) as Hni.
  destruct (gtb_cases r SPEECH_THRESHOLD) as [[_ Hr] | [_ Hr]].
  - destruct ((MIN_SPEECH_BUFFERS <=? S (speechBufferCount a))
              && negb (isRecordingRef a)) eqn:Hc.
    + apply andb_true_iff in Hc. destruct Hc as [Hc Hf].
      apply Nat.leb_le in Hc. apply negb_true_iff in Hf.
      rewrite (observe_loud_fires r a Hni Hr Hc Hf),
        (plain_observe_loud_fires r a Hr Hc Hf).
      cbn [fst snd]. split; [reflexivity |].
      unfold task. rewrite plain_startRecording_shape.
      match goal with
      | |- context [startRecording ?x] =>
          destruct (startRecording_shape x) as (p & c & E & _); rewrite E
      end.
      unfold withNewRecorder.
      destruct a as [b st ld ms ir irr bv cnt ap wc tts pr ch mr rs ts nw inf cs].
      cbn [status] in Hst.
      destruct b as [ti tp tk tc tl md].
      destruct Hst; subst st; destruct md; vm_compute; reflexivity.
    + rewrite (observe_loud_counts r a Hni Hr Hc),
        (plain_observe_loud_counts r a Hr Hc).
      cbn [fst snd]. split; [reflexivity |].
      destruct a as [b st ld ms ir irr bv cnt ap wc tts pr ch mr rs ts nw inf cs].
      cbn [status] in Hst.
      destruct Hst; subst st; reflexivity.
  - rewrite (observe_quiet r a Hr), (plain_observe_quiet r a Hr).
    split; reflexivity.
Qed.

Lemma plain_detector_agrees_witness :
  fst (Plain.observe 0 (mounted plainBrowser)) =
    fst (observe 0 (mounted plainBrowser)).
Proof.
  apply (plain_detector_agrees 0 (mounted plainBrowser)).
  left. reflexivity.
Defined.

(** X23. The detector of the second [App] never interrupts and never
    touches the player: a full run of loud buffers starts a recording
    while the answer goes on playing, where the first [App] stops the
    player first. *)
Theorem plain_detector_leaves_the_player (r : R) (a : App) :
  fst (Plain.observe r a) <> Normal Interrupt /\
  audioPlayerRef (snd (Plain.observe r a)) = audioPlayerRef a.
Proof.
  destruct (gtb_cases r SPEECH_THRESHOLD) as [[_ Hr] | [_ Hr]].
  - destruct ((MIN_SPEECH_BUFFERS <=? S (speechBufferCount a))
              && negb (isRecordingRef a)) eqn:Hc.
    + apply andb_true_iff in Hc. destruct Hc as [Hc Hf].
      apply Nat.leb_le in Hc. apply negb_true_iff in Hf.
      rewrite (plain_observe_loud_fires r a Hr Hc Hf). cbn [fst snd].
      split; [discriminate |].
      unfold task. rewrite plain_startRecording_shape. unfold withNewRecorder.
      destruct a as [b st ld ms ir irr bv cnt ap wc tts pr ch mr rs ts nw inf cs].
      destruct b as [ti tp tk tc tl md].
      destruct st, md; vm_compute; reflexivity.
    + rewrite (plain_observe_loud_counts r a Hr Hc). cbn [fst snd].
      split; [discriminate |].
      destruct a as [b st ld ms ir irr bv cnt ap wc tts pr ch mr rs ts nw inf cs].
      cbn [status]. destruct (Status_eqb st listening); reflexivity.
  - rewrite (plain_observe_quiet r a Hr).
    split; [discriminate | destruct a; reflexivity].
Qed.

